(** * LoanSchedule_FHE: the LoanAmortizationFHE contract and the planner UI

    A shallow embedding of the Solidity contract [LoanAmortizationFHE] and of
    the storage routine [submitSchedule] of the React front end (both in
    [src/frontend/web/src/App.tsx]), with the properties the specification
    states about them.

    The contract calls the external library [FHE] for all arithmetic on
    encrypted integers and for the decryption-request protocol.  The library
    is not part of the repository; it is an interface here ([FHEEngine]),
    and its operational contract, as the specification words it, is a second
    interface ([EngineSemantics]).  [Ref] is a reference instance. *)

From Stdlib Require Import ZArith List Bool Lia QArith Qround.
From Stdlib.Strings Require Import Byte.
From Stdlib Require Import DecimalString Sorted Permutation.
From stdpp Require Import base gmap strings list.

Import ListNotations.
Local Open Scope Z_scope.

(** ** Solidity value types *)

Abbreviation address := Z (only parsing).
Abbreviation uint256 := Z (only parsing).
Abbreviation uint32 := Z (only parsing).
Abbreviation bytes32 := Z (only parsing).
Abbreviation bytes := (list byte) (only parsing).

Definition MAX_UINT256 : Z := 2 ^ 256 - 1.
Definition MAX_UINT32 : Z := 2 ^ 32 - 1.

(** [type euint32 is bytes32], [type ebool is bytes32]: a ciphertext handle. *)
Abbreviation euint32 := Z (only parsing).
Abbreviation ebool := Z (only parsing).

(** Storage that was never written reads as zero. *)
Class ZeroValue (A : Type) := zero_value : A.
Global Instance Z_zero : ZeroValue Z := 0.
Global Instance bool_zero : ZeroValue bool := false.
Global Instance list_zero {A} : ZeroValue (list A) := [].

Definition sload `{ZeroValue A} (m : gmap Z A) (k : Z) : A :=
  default zero_value (m !! k).

(** ** ABI coding of the oracle's cleartexts

    [abi.decode(cleartexts, (uint32, uint32, uint32))] reads three 32-byte
    big-endian words; it reverts when the data is shorter than 96 bytes or a
    word does not fit 32 bits. *)

Definition byte_to_Z (b : byte) : Z := Z.of_N (Byte.to_N b).

Definition byte_of_Z (v : Z) : byte :=
  default x00 (Byte.of_N (Z.to_N (v mod 256))).

Fixpoint be_bytes (n : nat) (v : Z) : bytes :=
  match n with
  | O => []
  | S k => be_bytes k (v / 256) ++ [byte_of_Z v]
  end.

Definition be_value (bs : bytes) : Z :=
  fold_left (fun acc b => acc * 256 + byte_to_Z b) bs 0.

Definition bytes_eqb (a b : bytes) : bool :=
  bool_decide (map byte_to_Z a = map byte_to_Z b).

Definition abi_word (v : Z) : bytes := be_bytes 32 v.

Definition abi_encode (vs : list Z) : bytes := concat (map abi_word vs).

Definition word_at (data : bytes) (i : nat) : Z :=
  be_value (firstn 32 (skipn (32 * i) data)).

Definition abi_decode_uint32x3 (data : bytes) : option (uint32 * uint32 * uint32) :=
  if (Z.of_nat (length data) <? 96) then None
  else
    let a := word_at data 0 in
    let b := word_at data 1 in
    let c := word_at data 2 in
    if (a <=? MAX_UINT32) && (b <=? MAX_UINT32) && (c <=? MAX_UINT32)
    then Some (a, b, c) else None.

(** ** The external FHE library, as the contract uses it

    Result handles are a function of the operand handles, and the operations
    are total: the contract calls them with no error path and applies them to
    whatever handles its storage holds, the zero handle of unwritten storage
    included.  The decryption requests the library keeps in the contract's
    storage are the component [DecryptionRequests] of the contract state;
    [FHE.requestDecryption] also takes the callback selector, a constant of
    the contract, left out here.  [FHE.checkSignatures] reverts on a proof it
    does not accept: the boolean is whether it returns. *)

Class FHEEngine := {
  FHE_asEuint32 : Z -> euint32;
  FHE_add : euint32 -> euint32 -> euint32;
  FHE_sub : euint32 -> euint32 -> euint32;
  FHE_mul : euint32 -> euint32 -> euint32;
  FHE_div : euint32 -> euint32 -> euint32;
  FHE_pow : euint32 -> euint32 -> euint32;
  FHE_gt : euint32 -> euint32 -> ebool;
  FHE_cmux : ebool -> euint32 -> euint32 -> euint32;
  DecryptionRequests : Type;
  no_requests : DecryptionRequests;
  FHE_requestDecryption :
    DecryptionRequests -> list bytes32 -> uint256 * DecryptionRequests;
  FHE_checkSignatures : DecryptionRequests -> uint256 -> bytes -> bytes -> bool;
}.

(** [FHE.toBytes32] unwraps the handle. *)
Definition FHE_toBytes32 (h : euint32) : bytes32 := h.

(** ** Errors

    One constructor per revert of the contract, named after the
    specification's taxonomy; [revert_message] is the string of the source. *)

Inductive Error :=
| NotAdmin
| NotAdvisor
| AlreadyCalculated
| Unauthorized
| AlreadyRevealed
| NotCalculated
| UnknownRequest
| InvalidProof
| AbiDecodeError
| ArithmeticPanic.

Definition revert_message (e : Error) : string :=
  match e with
  | NotAdmin => "Not admin"
  | NotAdvisor => "Not authorized"
  | AlreadyCalculated => "Already calculated"
  | Unauthorized => "Not borrower"
  | AlreadyRevealed => "Already decrypted"
  | NotCalculated => "Schedule not calculated"
  | UnknownRequest => "Invalid request"
  | InvalidProof => "FHE.checkSignatures"
  | AbiDecodeError => "abi.decode"
  | ArithmeticPanic => "Panic(0x11)"
  end.

Inductive Result (A : Type) :=
| Ok (a : A)
| Revert (e : Error).
Arguments Ok {A} a.
Arguments Revert {A} e.

Definition bind {A B} (r : Result A) (k : A -> Result B) : Result B :=
  match r with
  | Ok a => k a
  | Revert e => Revert e
  end.

Definition require (cond : bool) (e : Error) : Result unit :=
  if cond then Ok tt else Revert e.

Notation "x <- r ;; k" := (bind r (fun x => k))
  (at level 100, r at next level, right associativity).
Notation "'do' r ;; k" := (bind r (fun _ => k))
  (at level 100, r at next level, right associativity).

Definition succeeds {A} (r : Result A) : bool :=
  match r with Ok _ => true | Revert _ => false end.

(** The error of a call that reverts. *)
Definition failure {A} (r : Result A) : option Error :=
  match r with Ok _ => None | Revert e => Some e end.

(** ** Data model of the contract *)

Record EncryptedLoan := {
  loan_id : uint256;
  borrower : address;
  encryptedPrincipal : euint32;
  encryptedInterestRate : euint32;
  encryptedTerm : euint32;
  encryptedExtraPayment : euint32;
  timestamp : uint256;
}.

Record AmortizationSchedule := {
  encryptedMonthlyPayment : euint32;
  encryptedTotalInterest : euint32;
  encryptedPayoffTime : euint32;
  isCalculated : bool;
}.

Record DecryptedSchedule := {
  monthlyPayment : uint32;
  totalInterest : uint32;
  payoffTime : uint32;
  isRevealed : bool;
}.

Global Instance EncryptedLoan_zero : ZeroValue EncryptedLoan :=
  {| loan_id := 0; borrower := 0; encryptedPrincipal := 0;
     encryptedInterestRate := 0; encryptedTerm := 0;
     encryptedExtraPayment := 0; timestamp := 0 |}.

Global Instance AmortizationSchedule_zero : ZeroValue AmortizationSchedule :=
  {| encryptedMonthlyPayment := 0; encryptedTotalInterest := 0;
     encryptedPayoffTime := 0; isCalculated := false |}.

Global Instance DecryptedSchedule_zero : ZeroValue DecryptedSchedule :=
  {| monthlyPayment := 0; totalInterest := 0; payoffTime := 0;
     isRevealed := false |}.

Inductive Event :=
| LoanSubmitted (id : uint256) (who : address)
| ScheduleCalculated (id : uint256)
| ScheduleDecrypted (id : uint256).

Section Contract.
Context `{E : FHEEngine}.

Record State := {
  loanCount : uint256;
  encryptedLoans : gmap Z EncryptedLoan;
  amortizationSchedules : gmap Z AmortizationSchedule;
  decryptedSchedules : gmap Z DecryptedSchedule;
  borrowerLoans : gmap Z (list uint256);
  financialAdvisors : gmap Z bool;
  requestToLoanId : gmap Z uint256;
  platformAdmin : address;
  fhe : DecryptionRequests;
  events : list Event;
}.

(** [constructor]: [platformAdmin = msg.sender], everything else zero. *)
Definition constructor (sender : address) : State :=
  {| loanCount := 0; encryptedLoans := ∅; amortizationSchedules := ∅;
     decryptedSchedules := ∅; borrowerLoans := ∅; financialAdvisors := ∅;
     requestToLoanId := ∅; platformAdmin := sender; fhe := no_requests;
     events := [] |}.

Definition emit (ev : Event) (s : State) : State :=
  {| loanCount := loanCount s; encryptedLoans := encryptedLoans s;
     amortizationSchedules := amortizationSchedules s;
     decryptedSchedules := decryptedSchedules s;
     borrowerLoans := borrowerLoans s;
     financialAdvisors := financialAdvisors s;
     requestToLoanId := requestToLoanId s;
     platformAdmin := platformAdmin s; fhe := fhe s;
     events := events s ++ [ev] |}.

Definition set_amortizationSchedule (k : uint256) (v : AmortizationSchedule)
    (s : State) : State :=
  {| loanCount := loanCount s; encryptedLoans := encryptedLoans s;
     amortizationSchedules := <[k:=v]> (amortizationSchedules s);
     decryptedSchedules := decryptedSchedules s;
     borrowerLoans := borrowerLoans s;
     financialAdvisors := financialAdvisors s;
     requestToLoanId := requestToLoanId s;
     platformAdmin := platformAdmin s; fhe := fhe s; events := events s |}.

Definition set_decryptedSchedule (k : uint256) (v : DecryptedSchedule)
    (s : State) : State :=
  {| loanCount := loanCount s; encryptedLoans := encryptedLoans s;
     amortizationSchedules := amortizationSchedules s;
     decryptedSchedules := <[k:=v]> (decryptedSchedules s);
     borrowerLoans := borrowerLoans s;
     financialAdvisors := financialAdvisors s;
     requestToLoanId := requestToLoanId s;
     platformAdmin := platformAdmin s; fhe := fhe s; events := events s |}.

Definition set_financialAdvisor (k : address) (v : bool) (s : State) : State :=
  {| loanCount := loanCount s; encryptedLoans := encryptedLoans s;
     amortizationSchedules := amortizationSchedules s;
     decryptedSchedules := decryptedSchedules s;
     borrowerLoans := borrowerLoans s;
     financialAdvisors := <[k:=v]> (financialAdvisors s);
     requestToLoanId := requestToLoanId s;
     platformAdmin := platformAdmin s; fhe := fhe s; events := events s |}.

Definition set_request (reqId loanId : uint256) (fhe' : DecryptionRequests)
    (s : State) : State :=
  {| loanCount := loanCount s; encryptedLoans := encryptedLoans s;
     amortizationSchedules := amortizationSchedules s;
     decryptedSchedules := decryptedSchedules s;
     borrowerLoans := borrowerLoans s;
     financialAdvisors := financialAdvisors s;
     requestToLoanId := <[reqId:=loanId]> (requestToLoanId s);
     platformAdmin := platformAdmin s; fhe := fhe'; events := events s |}.

(** *** Modifiers *)

Definition onlyAdmin (sender : address) (s : State) : Result unit :=
  require (sender =? platformAdmin s) NotAdmin.

Definition onlyAdvisor (sender : address) (s : State) : Result unit :=
  require (sload (financialAdvisors s) sender) NotAdvisor.

(** *** State-changing functions

    Each takes [msg.sender] first and returns the new state, or the revert;
    a reverted call leaves the state it was given ([transact] below). *)

Definition authorizeAdvisor (sender advisor : address) (s : State)
    : Result State :=
  do onlyAdmin sender s ;;
  Ok (set_financialAdvisor advisor true s).

Definition submitEncryptedLoan (sender : address) (now : uint256)
    (principal rate term extra : euint32) (s : State) : Result State :=
  do require (loanCount s + 1 <=? MAX_UINT256) ArithmeticPanic ;;
  let newId := loanCount s + 1 in
  Ok {| loanCount := newId;
        encryptedLoans :=
          <[newId := {| loan_id := newId; borrower := sender;
                        encryptedPrincipal := principal;
                        encryptedInterestRate := rate;
                        encryptedTerm := term;
                        encryptedExtraPayment := extra;
                        timestamp := now |}]> (encryptedLoans s);
        amortizationSchedules :=
          <[newId := {| encryptedMonthlyPayment := FHE_asEuint32 0;
                        encryptedTotalInterest := FHE_asEuint32 0;
                        encryptedPayoffTime := FHE_asEuint32 0;
                        isCalculated := false |}]> (amortizationSchedules s);
        decryptedSchedules :=
          <[newId := {| monthlyPayment := 0; totalInterest := 0;
                        payoffTime := 0; isRevealed := false |}]>
            (decryptedSchedules s);
        borrowerLoans :=
          <[sender := sload (borrowerLoans s) sender ++ [newId]]>
            (borrowerLoans s);
        financialAdvisors := financialAdvisors s;
        requestToLoanId := requestToLoanId s;
        platformAdmin := platformAdmin s;
        fhe := fhe s;
        events := events s ++ [LoanSubmitted newId sender] |}.

(** The three handles [calculateAmortization] derives from a loan. *)
Definition amortize (loan : EncryptedLoan) : AmortizationSchedule :=
  let monthlyRate := FHE_div (encryptedInterestRate loan) (FHE_asEuint32 1200) in
  let numerator :=
    FHE_mul (FHE_mul (encryptedPrincipal loan) monthlyRate)
            (FHE_pow (FHE_add (FHE_asEuint32 1) monthlyRate) (encryptedTerm loan)) in
  let denominator :=
    FHE_sub (FHE_pow (FHE_add (FHE_asEuint32 1) monthlyRate) (encryptedTerm loan))
            (FHE_asEuint32 1) in
  let monthlyPayment := FHE_div numerator denominator in
  let totalPayment := FHE_mul monthlyPayment (encryptedTerm loan) in
  let totalInterest := FHE_sub totalPayment (encryptedPrincipal loan) in
  let extraPayment := encryptedExtraPayment loan in
  let effectivePayment := FHE_add monthlyPayment extraPayment in
  let payoffTime := FHE_div (encryptedPrincipal loan) effectivePayment in
  {| encryptedMonthlyPayment := monthlyPayment;
     encryptedTotalInterest := totalInterest;
     encryptedPayoffTime := payoffTime;
     isCalculated := true |}.

Definition calculateAmortization (sender : address) (loanId : uint256)
    (s : State) : Result State :=
  do onlyAdvisor sender s ;;
  let loan := sload (encryptedLoans s) loanId in
  do require (negb (isCalculated (sload (amortizationSchedules s) loanId)))
             AlreadyCalculated ;;
  Ok (emit (ScheduleCalculated loanId)
           (set_amortizationSchedule loanId (amortize loan) s)).

Definition requestScheduleDecryption (sender : address) (loanId : uint256)
    (s : State) : Result State :=
  do require (borrower (sload (encryptedLoans s) loanId) =? sender) Unauthorized ;;
  do require (negb (isRevealed (sload (decryptedSchedules s) loanId)))
             AlreadyRevealed ;;
  do require (isCalculated (sload (amortizationSchedules s) loanId))
             NotCalculated ;;
  let schedule := sload (amortizationSchedules s) loanId in
  let ciphertexts :=
    [ FHE_toBytes32 (encryptedMonthlyPayment schedule);
      FHE_toBytes32 (encryptedTotalInterest schedule);
      FHE_toBytes32 (encryptedPayoffTime schedule) ] in
  let '(reqId, fhe') := FHE_requestDecryption (fhe s) ciphertexts in
  Ok (set_request reqId loanId fhe' s).

Definition decryptAmortizationSchedule (sender : address)
    (requestId : uint256) (cleartexts proof : bytes) (s : State)
    : Result State :=
  let loanId := sload (requestToLoanId s) requestId in
  do require (negb (loanId =? 0)) UnknownRequest ;;
  let aSchedule := sload (amortizationSchedules s) loanId in
  let dSchedule := sload (decryptedSchedules s) loanId in
  do require (isCalculated aSchedule) NotCalculated ;;
  do require (negb (isRevealed dSchedule)) AlreadyRevealed ;;
  do require (FHE_checkSignatures (fhe s) requestId cleartexts proof)
             InvalidProof ;;
  match abi_decode_uint32x3 cleartexts with
  | None => Revert AbiDecodeError
  | Some (mp, ti, pt) =>
      Ok (emit (ScheduleDecrypted loanId)
               (set_decryptedSchedule loanId
                  {| monthlyPayment := mp; totalInterest := ti;
                     payoffTime := pt; isRevealed := true |} s))
  end.

Definition protectFinancialPrivacy (sender who : address) (s : State)
    : Result State :=
  do onlyAdmin sender s ;;
  Ok s.

(** *** Read-only analytic functions ([view]) *)

Definition calculateInterestSavings (s : State) (loanId : uint256)
    : Result euint32 :=
  let loan := sload (encryptedLoans s) loanId in
  let schedule := sload (amortizationSchedules s) loanId in
  do require (isCalculated schedule) NotCalculated ;;
  let baseTotalInterest := encryptedTotalInterest schedule in
  let extraPayment := encryptedExtraPayment loan in
  let effectivePayment := FHE_add (encryptedMonthlyPayment schedule) extraPayment in
  let payoffTime := encryptedPayoffTime schedule in
  let totalPaymentWithExtra := FHE_mul effectivePayment payoffTime in
  let totalInterestWithExtra :=
    FHE_sub totalPaymentWithExtra (encryptedPrincipal loan) in
  Ok (FHE_sub baseTotalInterest totalInterestWithExtra).

Definition calculateAffordability (s : State) (loanId : uint256)
    : Result euint32 :=
  let loan := sload (encryptedLoans s) loanId in
  let schedule := sload (amortizationSchedules s) loanId in
  do require (isCalculated schedule) NotCalculated ;;
  let estimatedIncome := FHE_div (encryptedPrincipal loan) (FHE_asEuint32 10) in
  let disposableIncome :=
    FHE_sub estimatedIncome (encryptedMonthlyPayment schedule) in
  Ok (FHE_div (FHE_mul disposableIncome (FHE_asEuint32 100)) estimatedIncome).

Definition optimizePaymentStrategy (s : State) (loanId : uint256)
    : Result euint32 :=
  let loan := sload (encryptedLoans s) loanId in
  let schedule := sload (amortizationSchedules s) loanId in
  do require (isCalculated schedule) NotCalculated ;;
  savings <- calculateInterestSavings s loanId ;;
  let savingsRatio :=
    FHE_div (FHE_mul savings (FHE_asEuint32 100))
            (encryptedTotalInterest schedule) in
  Ok (FHE_cmux (FHE_gt savingsRatio (FHE_asEuint32 15))
               (FHE_add (encryptedExtraPayment loan) (FHE_asEuint32 100))
               (encryptedExtraPayment loan)).

Definition calculateDebtToIncome (s : State) (loanId : uint256)
    : Result euint32 :=
  let loan := sload (encryptedLoans s) loanId in
  let schedule := sload (amortizationSchedules s) loanId in
  do require (isCalculated schedule) NotCalculated ;;
  let estimatedIncome := FHE_div (encryptedPrincipal loan) (FHE_asEuint32 10) in
  Ok (FHE_div (FHE_mul (encryptedMonthlyPayment schedule) (FHE_asEuint32 100))
              estimatedIncome).

Definition estimateEarlyPayoffImpact (s : State) (loanId : uint256)
    (additionalPayment : euint32) : Result euint32 :=
  let loan := sload (encryptedLoans s) loanId in
  let schedule := sload (amortizationSchedules s) loanId in
  do require (isCalculated schedule) NotCalculated ;;
  let newExtraPayment := FHE_add (encryptedExtraPayment loan) additionalPayment in
  let effectivePayment :=
    FHE_add (encryptedMonthlyPayment schedule) newExtraPayment in
  let newPayoffTime := FHE_div (encryptedPrincipal loan) effectivePayment in
  let totalPayment := FHE_mul effectivePayment newPayoffTime in
  let totalInterest := FHE_sub totalPayment (encryptedPrincipal loan) in
  Ok (FHE_sub (encryptedTotalInterest schedule) totalInterest).

Definition calculateLoanHealth (s : State) (loanId : uint256)
    : Result euint32 :=
  dti <- calculateDebtToIncome s loanId ;;
  affordability <- calculateAffordability s loanId ;;
  Ok (FHE_div (FHE_add (FHE_sub (FHE_asEuint32 100) dti) affordability)
              (FHE_asEuint32 2)).

Definition calculateRefinancingBenefit (s : State) (loanId : uint256)
    (newRate : euint32) : Result euint32 :=
  let loan := sload (encryptedLoans s) loanId in
  let schedule := sload (amortizationSchedules s) loanId in
  do require (isCalculated schedule) NotCalculated ;;
  let newMonthlyRate := FHE_div newRate (FHE_asEuint32 1200) in
  let newMonthlyPayment :=
    FHE_div
      (FHE_mul (FHE_mul (encryptedPrincipal loan) newMonthlyRate)
               (FHE_pow (FHE_add (FHE_asEuint32 1) newMonthlyRate)
                        (encryptedTerm loan)))
      (FHE_sub (FHE_pow (FHE_add (FHE_asEuint32 1) newMonthlyRate)
                        (encryptedTerm loan))
               (FHE_asEuint32 1)) in
  let newTotalInterest :=
    FHE_sub (FHE_mul newMonthlyPayment (encryptedTerm loan))
            (encryptedPrincipal loan) in
  Ok (FHE_sub (encryptedTotalInterest schedule) newTotalInterest).

Definition calculatePaymentShockRisk (s : State) (loanId : uint256)
    : Result euint32 :=
  let schedule := sload (amortizationSchedules s) loanId in
  do require (isCalculated schedule) NotCalculated ;;
  Ok (FHE_div (FHE_mul (encryptedMonthlyPayment schedule) (FHE_asEuint32 100))
              (encryptedPrincipal (sload (encryptedLoans s) loanId))).

Definition optimizeForGoals (s : State) (loanId : uint256) (goalTime : euint32)
    : Result euint32 :=
  let loan := sload (encryptedLoans s) loanId in
  let schedule := sload (amortizationSchedules s) loanId in
  do require (isCalculated schedule) NotCalculated ;;
  Ok (FHE_div (encryptedPrincipal loan) goalTime).

Definition calculateInterestSensitivity (s : State) (loanId : uint256)
    : Result euint32 :=
  let loan := sload (encryptedLoans s) loanId in
  let schedule := sload (amortizationSchedules s) loanId in
  do require (isCalculated schedule) NotCalculated ;;
  let rateChange := FHE_asEuint32 100 in
  let newRate := FHE_add (encryptedInterestRate loan) rateChange in
  let newMonthlyRate := FHE_div newRate (FHE_asEuint32 1200) in
  let newMonthlyPayment :=
    FHE_div
      (FHE_mul (FHE_mul (encryptedPrincipal loan) newMonthlyRate)
               (FHE_pow (FHE_add (FHE_asEuint32 1) newMonthlyRate)
                        (encryptedTerm loan)))
      (FHE_sub (FHE_pow (FHE_add (FHE_asEuint32 1) newMonthlyRate)
                        (encryptedTerm loan))
               (FHE_asEuint32 1)) in
  Ok (FHE_sub newMonthlyPayment (encryptedMonthlyPayment schedule)).

Definition estimateTaxBenefit (s : State) (loanId : uint256) : Result euint32 :=
  let schedule := sload (amortizationSchedules s) loanId in
  do require (isCalculated schedule) NotCalculated ;;
  Ok (FHE_div (encryptedTotalInterest schedule) (FHE_asEuint32 4)).

Definition calculateLoanLiquidity (s : State) (loanId : uint256)
    : Result euint32 :=
  let loan := sload (encryptedLoans s) loanId in
  let schedule := sload (amortizationSchedules s) loanId in
  do require (isCalculated schedule) NotCalculated ;;
  Ok (FHE_div (encryptedPrincipal loan)
              (FHE_mul (encryptedMonthlyPayment schedule) (FHE_asEuint32 6))).

Definition detectOverleveraging (s : State) (loanId : uint256) : Result ebool :=
  dti <- calculateDebtToIncome s loanId ;;
  Ok (FHE_gt dti (FHE_asEuint32 40)).

Definition calculateFinancialFlexibility (s : State) (loanId : uint256)
    : Result euint32 :=
  affordability <- calculateAffordability s loanId ;;
  loanHealth <- calculateLoanHealth s loanId ;;
  Ok (FHE_div (FHE_add affordability loanHealth) (FHE_asEuint32 2)).

Definition optimizeForCashFlow (s : State) (loanId : uint256) : Result euint32 :=
  let schedule := sload (amortizationSchedules s) loanId in
  do require (isCalculated schedule) NotCalculated ;;
  Ok (FHE_div (FHE_mul (encryptedMonthlyPayment schedule) (FHE_asEuint32 90))
              (FHE_asEuint32 100)).

Definition calculatePrepaymentRisk (s : State) (loanId : uint256)
    : Result euint32 :=
  let loan := sload (encryptedLoans s) loanId in
  Ok (FHE_div (FHE_mul (encryptedExtraPayment loan) (FHE_asEuint32 100))
              (encryptedPrincipal loan)).

Definition estimateNetCost (s : State) (loanId : uint256) : Result euint32 :=
  let schedule := sload (amortizationSchedules s) loanId in
  do require (isCalculated schedule) NotCalculated ;;
  taxBenefit <- estimateTaxBenefit s loanId ;;
  Ok (FHE_sub (encryptedTotalInterest schedule) taxBenefit).

Definition calculateLoanEfficiency (s : State) (loanId : uint256)
    : Result euint32 :=
  let loan := sload (encryptedLoans s) loanId in
  let schedule := sload (amortizationSchedules s) loanId in
  do require (isCalculated schedule) NotCalculated ;;
  Ok (FHE_div (FHE_mul (encryptedPrincipal loan) (FHE_asEuint32 100))
              (FHE_add (encryptedPrincipal loan)
                       (encryptedTotalInterest schedule))).

Definition generatePersonalizedAdvice (s : State) (loanId : uint256)
    : Result euint32 :=
  savings <- calculateInterestSavings s loanId ;;
  risk <- calculatePaymentShockRisk s loanId ;;
  Ok (FHE_cmux (FHE_gt savings (FHE_asEuint32 1000))
               (FHE_asEuint32 1)
               (FHE_cmux (FHE_gt risk (FHE_asEuint32 15))
                         (FHE_asEuint32 2)
                         (FHE_asEuint32 3))).

Definition calculateDebtSustainability (s : State) (loanId : uint256)
    : Result euint32 :=
  dti <- calculateDebtToIncome s loanId ;;
  Ok (FHE_sub (FHE_asEuint32 100) dti).

Definition estimateInflationImpact (s : State) (loanId : uint256)
    : Result euint32 :=
  let schedule := sload (amortizationSchedules s) loanId in
  do require (isCalculated schedule) NotCalculated ;;
  Ok (FHE_div (encryptedTotalInterest schedule) (FHE_asEuint32 2)).

Definition getEncryptedLoan (s : State) (loanId : uint256)
    : address * euint32 * euint32 * euint32 * euint32 * uint256 :=
  let l := sload (encryptedLoans s) loanId in
  (borrower l, encryptedPrincipal l, encryptedInterestRate l, encryptedTerm l,
   encryptedExtraPayment l, timestamp l).

Definition getEncryptedSchedule (s : State) (loanId : uint256)
    : euint32 * euint32 * euint32 * bool :=
  let a := sload (amortizationSchedules s) loanId in
  (encryptedMonthlyPayment a, encryptedTotalInterest a, encryptedPayoffTime a,
   isCalculated a).

Definition getDecryptedSchedule (s : State) (loanId : uint256)
    : uint32 * uint32 * uint32 * bool :=
  let d := sload (decryptedSchedules s) loanId in
  (monthlyPayment d, totalInterest d, payoffTime d, isRevealed d).

(** The analytic functions under one name each, so that a property can range
    over all of them. *)
Inductive Analytic :=
| InterestSavings
| Affordability
| PaymentStrategy
| DebtToIncome
| EarlyPayoffImpact (additionalPayment : euint32)
| LoanHealth
| RefinancingBenefit (newRate : euint32)
| PaymentShockRisk
| ForGoals (goalTime : euint32)
| InterestSensitivity
| TaxBenefit
| LoanLiquidity
| Overleveraging
| FinancialFlexibility
| ForCashFlow
| PrepaymentRisk
| NetCost
| LoanEfficiency
| PersonalizedAdvice
| DebtSustainability
| InflationImpact.

Definition analytic (q : Analytic) (s : State) (loanId : uint256)
    : Result bytes32 :=
  match q with
  | InterestSavings => calculateInterestSavings s loanId
  | Affordability => calculateAffordability s loanId
  | PaymentStrategy => optimizePaymentStrategy s loanId
  | DebtToIncome => calculateDebtToIncome s loanId
  | EarlyPayoffImpact p => estimateEarlyPayoffImpact s loanId p
  | LoanHealth => calculateLoanHealth s loanId
  | RefinancingBenefit r => calculateRefinancingBenefit s loanId r
  | PaymentShockRisk => calculatePaymentShockRisk s loanId
  | ForGoals g => optimizeForGoals s loanId g
  | InterestSensitivity => calculateInterestSensitivity s loanId
  | TaxBenefit => estimateTaxBenefit s loanId
  | LoanLiquidity => calculateLoanLiquidity s loanId
  | Overleveraging => detectOverleveraging s loanId
  | FinancialFlexibility => calculateFinancialFlexibility s loanId
  | ForCashFlow => optimizeForCashFlow s loanId
  | PrepaymentRisk => calculatePrepaymentRisk s loanId
  | NetCost => estimateNetCost s loanId
  | LoanEfficiency => calculateLoanEfficiency s loanId
  | PersonalizedAdvice => generatePersonalizedAdvice s loanId
  | DebtSustainability => calculateDebtSustainability s loanId
  | InflationImpact => estimateInflationImpact s loanId
  end.

(** *** Transactions *)

Inductive Call :=
| AuthorizeAdvisor (advisor : address)
| SubmitEncryptedLoan (now : uint256) (principal rate term extra : euint32)
| CalculateAmortization (loanId : uint256)
| RequestScheduleDecryption (loanId : uint256)
| DecryptAmortizationSchedule (requestId : uint256) (cleartexts proof : bytes)
| ProtectFinancialPrivacy (who : address).

Definition execute (sender : address) (c : Call) (s : State) : Result State :=
  match c with
  | AuthorizeAdvisor a => authorizeAdvisor sender a s
  | SubmitEncryptedLoan now p r t e => submitEncryptedLoan sender now p r t e s
  | CalculateAmortization i => calculateAmortization sender i s
  | RequestScheduleDecryption i => requestScheduleDecryption sender i s
  | DecryptAmortizationSchedule r ct pf =>
      decryptAmortizationSchedule sender r ct pf s
  | ProtectFinancialPrivacy b => protectFinancialPrivacy sender b s
  end.

(** A transaction that reverts leaves the state as it was. *)
Definition transact (sender : address) (c : Call) (s : State) : State :=
  match execute sender c s with
  | Ok s' => s'
  | Revert _ => s
  end.

Definition run (txs : list (address * Call)) (s : State) : State :=
  fold_left (fun st tx => transact (fst tx) (snd tx) st) txs s.

(** How many calls of [calculateAmortization] for [loanId] go through in a
    sequence of transactions. *)
Definition is_calculate (loanId : uint256) (c : Call) : bool :=
  match c with
  | CalculateAmortization i => i =? loanId
  | _ => false
  end.

Fixpoint calculations (loanId : uint256) (txs : list (address * Call))
    (s : State) : nat :=
  match txs with
  | [] => 0%nat
  | (sender, c) :: rest =>
      ((if is_calculate loanId c && succeeds (execute sender c s)
        then 1 else 0)
       + calculations loanId rest (transact sender c s))%nat
  end.

(** Attempts at one loan by a list of callers, one after the other. *)
Definition attempts (loanId : uint256) (callers : list address)
    : list (address * Call) :=
  map (fun a => (a, CalculateAmortization loanId)) callers.

Inductive reachable : State -> Prop :=
| reach_deploy (admin : address) : reachable (constructor admin)
| reach_transact s sender c : reachable s -> reachable (transact sender c s).

End Contract.

Arguments State {E}.

(** ** The engine's operational contract *)

Definition wrap32 (v : Z) : Z := v mod 2 ^ 32.

Definition POW_EXPONENT_BOUND : Z := 600.

(** Modelled from the spec: the FHE arithmetic engine and the decryption
    oracle, an external library absent from the repository.  The interface
    states what sections 4.2, 4.4 and 8 of the specification say of them:
    each handle stands for an unsigned 32-bit plaintext ([dec]); [add], [sub]
    and [mul] wrap modulo [2^32]; [div] truncates and answers a fixed
    sentinel ([div_by_zero]) on a zero divisor; [pow] is defined for
    exponents up to 600; a decryption request records the handles submitted
    ([pending]); the oracle's proof is accepted only for the ABI coding of
    the decryptions of the handles recorded for the request. *)
Class EngineSemantics (E : FHEEngine) := {
  dec : bytes32 -> Z;
  div_by_zero : Z;
  pending : DecryptionRequests -> uint256 -> option (list bytes32);
  dec_range : forall h, 0 <= dec h <= MAX_UINT32;
  dec_asEuint32 : forall v, dec (FHE_asEuint32 v) = wrap32 v;
  dec_add : forall a b, dec (FHE_add a b) = wrap32 (dec a + dec b);
  dec_sub : forall a b, dec (FHE_sub a b) = wrap32 (dec a - dec b);
  dec_mul : forall a b, dec (FHE_mul a b) = wrap32 (dec a * dec b);
  dec_div : forall a b,
    dec (FHE_div a b) = if dec b =? 0 then div_by_zero else dec a / dec b;
  dec_pow : forall a b,
    dec b <= POW_EXPONENT_BOUND -> dec (FHE_pow a b) = wrap32 (dec a ^ dec b);
  pending_init : forall r, pending no_requests r = None;
  request_recorded : forall o cts r o',
    FHE_requestDecryption o cts = (r, o') ->
    pending o' r = Some cts /\
    forall r', r' <> r -> pending o' r' = pending o r';
  check_sound : forall o r ct pf,
    FHE_checkSignatures o r ct pf = true ->
    exists cts, pending o r = Some cts /\ ct = abi_encode (map dec cts);
}.

(** ** A reference engine

    The handle of a value is the value: enough to run the contract on
    concrete inputs.  A zero divisor answers the largest 32-bit value.  The
    request identifiers count up from zero, and the proof the oracle issues
    for a request is the request word followed by the cleartexts. *)

Module Ref.

Definition asEuint32 (v : Z) : euint32 := wrap32 v.
Definition add (a b : euint32) : euint32 := wrap32 (wrap32 a + wrap32 b).
Definition sub (a b : euint32) : euint32 := wrap32 (wrap32 a - wrap32 b).
Definition mul (a b : euint32) : euint32 := wrap32 (wrap32 a * wrap32 b).
Definition div (a b : euint32) : euint32 :=
  if wrap32 b =? 0 then MAX_UINT32 else wrap32 a / wrap32 b.
Definition pow (a b : euint32) : euint32 := wrap32 (wrap32 a ^ wrap32 b).
Definition gt (a b : euint32) : ebool :=
  if wrap32 b <? wrap32 a then 1 else 0.
Definition cmux (c : ebool) (a b : euint32) : euint32 :=
  if c =? 0 then b else a.

Definition requests := list (list bytes32).

Definition requestDecryption (o : requests) (cts : list bytes32)
    : uint256 * requests :=
  (Z.of_nat (length o), o ++ [cts]).

Definition lookup_request (o : requests) (r : uint256) : option (list bytes32) :=
  if r <? 0 then None else nth_error o (Z.to_nat r).

Definition sign (r : uint256) (ct : bytes) : bytes := abi_word r ++ ct.

Definition checkSignatures (o : requests) (r : uint256) (ct pf : bytes) : bool :=
  match lookup_request o r with
  | Some cts =>
      bytes_eqb ct (abi_encode (map wrap32 cts)) && bytes_eqb pf (sign r ct)
  | None => false
  end.

#[export] Instance engine : FHEEngine := {|
  FHE_asEuint32 := asEuint32;
  FHE_add := add;
  FHE_sub := sub;
  FHE_mul := mul;
  FHE_div := div;
  FHE_pow := pow;
  FHE_gt := gt;
  FHE_cmux := cmux;
  DecryptionRequests := requests;
  no_requests := [];
  FHE_requestDecryption := requestDecryption;
  FHE_checkSignatures := checkSignatures;
|}.

End Ref.

(** Modelled from the spec: comparison and select of the external engine
    (sections 4.2 and 8 of the specification).  An encrypted boolean stands
    for a plaintext boolean ([dec_bool]); [gt] compares the plaintexts;
    [cmux] decrypts to its first operand when the condition is true, to its
    second otherwise. *)
Class SelectSemantics (E : FHEEngine) (Sem : EngineSemantics E) := {
  dec_bool : bytes32 -> bool;
  dec_gt : forall a b, dec_bool (FHE_gt a b) = (dec b <? dec a);
  dec_cmux : forall c a b,
    dec (FHE_cmux c a b) = if dec_bool c then dec a else dec b;
}.

(** The largest monthly payment whose product with 90 fits 32 bits. *)
Definition CASH_FLOW_BOUND : Z := 47721858.

(** ** Concrete runs on the reference engine *)

Module Example.

Definition admin : address := 1.
Definition advisor : address := 2.
Definition alice : address := 3.
Definition mallory : address := 4.
Definition oracle : address := 5.

Definition deployed : State (E := Ref.engine) := constructor admin.

Definition authorized : State (E := Ref.engine) :=
  transact admin (AuthorizeAdvisor advisor) deployed.

(** The loan of the specification's scenario: principal 10000, rate 500,
    term 36, no extra payment. *)
Definition submitted : State (E := Ref.engine) :=
  run [ (admin, AuthorizeAdvisor advisor);
        (alice, SubmitEncryptedLoan 1700000000 10000 500 36 0) ]
      deployed.

Definition calculated : State (E := Ref.engine) :=
  transact advisor (CalculateAmortization 1) submitted.

Definition requested : State (E := Ref.engine) :=
  transact alice (RequestScheduleDecryption 1) calculated.

(** What the oracle sends back for request 0: the three plaintexts and the
    proof for them. *)
Definition cleartexts : bytes :=
  let schedule := sload (amortizationSchedules requested) 1 in
  abi_encode [ wrap32 (encryptedMonthlyPayment schedule);
               wrap32 (encryptedTotalInterest schedule);
               wrap32 (encryptedPayoffTime schedule) ].

Definition proof : bytes := Ref.sign 0 cleartexts.

Definition resolved : State (E := Ref.engine) :=
  transact oracle (DecryptAmortizationSchedule 0 cleartexts proof) requested.

(** A loan with an extra payment, submitted and not yet calculated. *)
Definition with_extra : State (E := Ref.engine) :=
  transact alice (SubmitEncryptedLoan 1700000000 10000 500 36 500) deployed.

(** An advisor calculates loan 1 before it exists, a borrower then submits
    the loan that gets id 1, and the advisor calculates it again. *)
Definition early_calculation : list (address * Call) :=
  [ (admin, AuthorizeAdvisor advisor);
    (advisor, CalculateAmortization 1) ].

Definition early_then_submitted : list (address * Call) :=
  early_calculation ++ [ (alice, SubmitEncryptedLoan 1700000000 10000 500 36 0) ].

Definition calculated_twice : list (address * Call) :=
  early_then_submitted ++ [ (advisor, CalculateAmortization 1) ].

End Example.

(** ** The end-to-end scenario of the specification *)

Section Scenario.
Context `{E : FHEEngine}.

(** Deploy, authorize an advisor, submit one loan, calculate its schedule and
    request its decryption: the state the oracle's callback then meets. *)
Definition scenario (admin advisor who : address) (now : uint256)
    (principal rate term extra : euint32) : State :=
  run [ (admin, AuthorizeAdvisor advisor);
        (who, SubmitEncryptedLoan now principal rate term extra);
        (advisor, CalculateAmortization 1);
        (who, RequestScheduleDecryption 1) ]
      (constructor admin).

(** The identifier the library hands out for the scenario's request. *)
Definition scenario_request (admin advisor who : address) (now : uint256)
    (principal rate term extra : euint32) : uint256 :=
  let s :=
    run [ (admin, AuthorizeAdvisor advisor);
          (who, SubmitEncryptedLoan now principal rate term extra);
          (advisor, CalculateAmortization 1) ]
        (constructor admin) in
  let schedule := sload (amortizationSchedules s) 1 in
  fst (FHE_requestDecryption (fhe s)
         [ FHE_toBytes32 (encryptedMonthlyPayment schedule);
           FHE_toBytes32 (encryptedTotalInterest schedule);
           FHE_toBytes32 (encryptedPayoffTime schedule) ]).

End Scenario.

(** The closed-form annuity payment, in the specification's words: monthly
    rate [r = annual rate / 1200], payment [P*r*(1+r)^n / ((1+r)^n - 1)],
    over the rationals. *)
Definition closed_form_annuity (principal rate term : Z) : Q :=
  let r := (inject_Z rate / inject_Z 1200)%Q in
  let g := Qpower (1 + r)%Q term in
  (inject_Z principal * r * g / (g - 1))%Q.

(** An integer is a rounding of a rational when it is its floor or its
    ceiling: this covers truncation, rounding up and rounding to nearest. *)
Definition rounds_to (q : Q) (v : Z) : Prop := Qfloor q <= v <= Qceiling q.

(** ** The planner UI: what [submitSchedule] writes *)

Module UI.

#[local] Unset Elimination Schemes.
Inductive json :=
| JNull
| JBool (b : bool)
| JNum (n : Z)
| JStr (s : string)
| JArr (items : list json)
| JObj (fields : list (string * json)).
#[local] Set Elimination Schemes.

Abbreviation Storage := (gmap string (list byte)) (only parsing).

(** Modelled from the spec: the key-value storage contract the UI reads and
    writes through [getData] and [setData] (reached through [./contract],
    which is not among the sources): a finite map from string keys to bytes,
    a missing key reading as empty bytes. *)
Definition getData (st : Storage) (key : string) : bytes :=
  default [] (st !! key).

Definition setData (key : string) (value : bytes) (st : Storage) : Storage :=
  <[key := value]> st.

(** [newScheduleData]: the four strings of the form. *)
Record ScheduleForm := {
  loanAmount : string;
  term : string;
  interestRate : string;
  goal : string;
}.

(** What the run depends on besides its arguments: the clock, the random
    suffix, and whether each awaited call goes through. *)
Record Env := {
  provider_connected : bool;
  date_now : Z;
  random_suffix : string;
  signer_available : bool;
  first_setData_ok : bool;
  getData_ok : bool;
  second_setData_ok : bool;
}.

Inductive Outcome :=
| NotConnected
| Submitted
| SubmissionFailed.

Section Planner.

(** The JavaScript runtime: [JSON.stringify], [JSON.parse] (no value when it
    throws), [ethers.toUtf8Bytes], [ethers.toUtf8String], [btoa], [parseInt]
    (no value for [NaN], which [JSON.stringify] prints as [null]) and the
    conversion of a number to a string in a template literal. *)
Variable JSON_stringify : json -> string.
Variable JSON_parse : string -> option json.
Variable toUtf8Bytes : string -> bytes.
Variable toUtf8String : bytes -> option string.
Variable btoa : string -> option string.
Variable parseInt : string -> option Z.
Variable Number_toString : Z -> string.

Definition form_json (f : ScheduleForm) : json :=
  JObj [ ("loanAmount", JStr (loanAmount f)); ("term", JStr (term f));
         ("interestRate", JStr (interestRate f)); ("goal", JStr (goal f)) ]%string.

Definition number_json (n : option Z) : json :=
  match n with
  | Some v => JNum v
  | None => JNull
  end.

(** The object literal [scheduleData]. *)
Definition schedule_record (data : json) (timestamp : json) (owner : json)
    (amount : json) (months : json) (status : json) : json :=
  JObj [ ("data", data); ("timestamp", timestamp); ("owner", owner);
         ("loanAmount", amount); ("term", months); ("status", status) ]%string.

Definition scheduleId (env : Env) : string :=
  (Number_toString (date_now env) ++ "-" ++ random_suffix env)%string.

Definition schedule_key (id : string) : string := ("schedule_" ++ id)%string.

(** The array [keys] just before [keys.push]: empty when nothing is stored
    (whether the empty value has length zero, or is a text that does not
    parse) or when the stored text does not parse (the inner [catch]); no
    value when the parsed value has no [push], which throws to the outer
    [catch]. *)
Definition stored_keys (st : Storage) : option (list json) :=
  let keysBytes := getData st "schedule_keys" in
  if (0 <? length keysBytes)%nat then
    match toUtf8String keysBytes ≫= JSON_parse with
    | Some (JArr items) => Some items
    | Some _ => None
    | None => Some []
    end
  else Some [].

Definition submitSchedule (env : Env) (account : string) (f : ScheduleForm)
    (st : Storage) : Outcome * Storage :=
  if negb (provider_connected env) then (NotConnected, st)
  else
    match btoa (JSON_stringify (form_json f)) with
    | None => (SubmissionFailed, st)
    | Some b64 =>
        let encryptedData := ("FHE-" ++ b64)%string in
        if negb (signer_available env) then (SubmissionFailed, st)
        else
          let id := scheduleId env in
          let scheduleData :=
            schedule_record (JStr encryptedData)
                            (JNum (date_now env / 1000))
                            (JStr account)
                            (JStr (loanAmount f))
                            (number_json (parseInt (term f)))
                            (JStr "pending") in
          if negb (first_setData_ok env) then (SubmissionFailed, st)
          else
            let st1 :=
              setData (schedule_key id)
                      (toUtf8Bytes (JSON_stringify scheduleData)) st in
            if negb (getData_ok env) then (SubmissionFailed, st1)
            else
              match stored_keys st1 with
              | None => (SubmissionFailed, st1)
              | Some keys =>
                  let keys' := keys ++ [JStr id] in
                  if negb (second_setData_ok env) then (SubmissionFailed, st1)
                  else
                    (Submitted,
                     setData "schedule_keys"
                             (toUtf8Bytes (JSON_stringify (JArr keys'))) st1)
              end
    end.

(** Modelled from the spec: the persisted-storage contract.  A record is
    stored under the string key [schedule_<id>] as the text of a JSON object
    with exactly the fields data, timestamp, owner, loanAmount, term and
    status; [schedule_keys] holds the text of the JSON array of all ids (no
    id at all while nothing is stored there). *)
Definition record_fields : list string :=
  [ "data"; "timestamp"; "owner"; "loanAmount"; "term"; "status" ]%string.

Definition holds_record (st : Storage) (id : string) : Prop :=
  exists fields,
    st !! ("schedule_" ++ id)%string
      = Some (toUtf8Bytes (JSON_stringify (JObj fields)))
    /\ map fst fields = record_fields.

Definition holds_index (st : Storage) (ids : list string) : Prop :=
  match st !! "schedule_keys"%string with
  | Some value => value = toUtf8Bytes (JSON_stringify (JArr (map JStr ids)))
  | None => ids = []
  end.

Definition keys_written (st : Storage) (keys : list json) : Prop :=
  st !! "schedule_keys"%string = Some (toUtf8Bytes (JSON_stringify (JArr keys))).

(** The index lists ids that have a record each; none of them is the word
    [keys], whose record key would be the index itself. *)
Definition index_sound (st : Storage) : Prop :=
  exists ids,
    holds_index st ids
    /\ forall id, In id ids -> id <> "keys"%string /\ holds_record st id.

(** Submissions one after the other, whatever their outcome. *)
Definition submissions (runs : list (Env * string * ScheduleForm))
    (st : Storage) : Storage :=
  fold_left (fun acc r => snd (submitSchedule (fst (fst r)) (snd (fst r)) (snd r) acc))
            runs st.

End Planner.

End UI.

(** ** A stand-in for the JavaScript runtime

    Enough to run [submitSchedule] on concrete inputs: JSON text is printed
    with quote and backslash escaped, arrays of plain strings are read back,
    text is coded one byte per character, [btoa] keeps the text, [parseInt]
    reads a decimal numeral.  The properties below hold for every runtime;
    this one only shows runs. *)

Module Runtime.
Import UI.

Definition quote_char : Ascii.ascii := Ascii.ascii_of_nat 34.
Definition backslash_char : Ascii.ascii := Ascii.ascii_of_nat 92.
Definition open_bracket : Ascii.ascii := Ascii.ascii_of_nat 91.
Definition close_bracket : Ascii.ascii := Ascii.ascii_of_nat 93.
Definition comma_char : Ascii.ascii := Ascii.ascii_of_nat 44.

Fixpoint escape (s : string) : string :=
  match s with
  | EmptyString => EmptyString
  | String c rest =>
      if (Ascii.eqb c quote_char || Ascii.eqb c backslash_char)%bool
      then String backslash_char (String c (escape rest))
      else String c (escape rest)
  end.

Definition quoted (s : string) : string :=
  String quote_char (escape s ++ String quote_char EmptyString)%string.

Definition Number_toString (n : Z) : string :=
  NilZero.string_of_int (Z.to_int n).

Fixpoint JSON_stringify (j : json) : string :=
  match j with
  | JNull => "null"
  | JBool true => "true"
  | JBool false => "false"
  | JNum n => Number_toString n
  | JStr s => quoted s
  | JArr items =>
      ("[" ++
       (fix items_text (l : list json) : string :=
          match l with
          | [] => EmptyString
          | x :: rest =>
              match rest with
              | [] => JSON_stringify x
              | _ => JSON_stringify x ++ "," ++ items_text rest
              end
          end) items
       ++ "]")%string
  | JObj fields =>
      ("{" ++
       (fix fields_text (l : list (string * json)) : string :=
          match l with
          | [] => EmptyString
          | (k, v) :: rest =>
              match rest with
              | [] => quoted k ++ ":" ++ JSON_stringify v
              | _ => quoted k ++ ":" ++ JSON_stringify v ++ "," ++ fields_text rest
              end
          end) fields
       ++ "}")%string
  end.

Inductive mode := Open | InString | Closed | Comma | Finished.

Fixpoint scan (m : mode) (cur : string) (acc : list json) (s : string)
    : option json :=
  match s with
  | EmptyString =>
      match m with
      | Finished => Some (JArr (rev acc))
      | _ => None
      end
  | String c rest =>
      match m with
      | Open =>
          if Ascii.eqb c quote_char then scan InString EmptyString acc rest
          else if Ascii.eqb c close_bracket then scan Finished cur acc rest
          else None
      | Comma =>
          if Ascii.eqb c quote_char then scan InString EmptyString acc rest
          else None
      | InString =>
          if Ascii.eqb c quote_char then scan Closed EmptyString (JStr cur :: acc) rest
          else if Ascii.eqb c backslash_char then None
          else scan InString (cur ++ String c EmptyString)%string acc rest
      | Closed =>
          if Ascii.eqb c comma_char then scan Comma cur acc rest
          else if Ascii.eqb c close_bracket then scan Finished cur acc rest
          else None
      | Finished => None
      end
  end.

Definition JSON_parse (s : string) : option json :=
  match s with
  | String c rest => if Ascii.eqb c open_bracket then scan Open EmptyString [] rest else None
  | EmptyString => None
  end.

Definition toUtf8Bytes (s : string) : bytes := String.list_byte_of_string s.

Definition toUtf8String (b : bytes) : option string :=
  Some (String.string_of_list_byte b).

Definition btoa (s : string) : option string := Some s.

Definition parseInt (s : string) : option Z :=
  option_map Z.of_int (NilZero.int_of_string s).

Definition submit : Env -> string -> ScheduleForm -> Storage -> Outcome * Storage :=
  submitSchedule JSON_stringify JSON_parse toUtf8Bytes toUtf8String btoa
                 parseInt Number_toString.

Definition first_run : Env :=
  {| provider_connected := true; date_now := 1700000000123;
     random_suffix := "k3j9x2a"; signer_available := true;
     first_setData_ok := true; getData_ok := true;
     second_setData_ok := true |}.

Definition second_run : Env :=
  {| provider_connected := true; date_now := 1700000060456;
     random_suffix := "b7m1q0z"; signer_available := true;
     first_setData_ok := true; getData_ok := true;
     second_setData_ok := true |}.

Definition form : ScheduleForm :=
  {| loanAmount := "10000"; term := "36"; interestRate := "5";
     goal := "pay early" |}.

Definition account : string := "0xa11ce".

Definition after_first : Storage := snd (submit first_run account form ∅).

Definition after_second : Storage :=
  snd (submit second_run account form after_first).

End Runtime.

(** ** The planner UI: loading, activating and completing schedules *)

Module Schedules.

(** An entry of the [schedules] state.  A field read off a parsed record is
    absent ([undefined]) when the record has no such property. *)
Record LoanSchedule := {
  schedule_id : UI.json;
  encryptedData : option UI.json;
  timestamp : option UI.json;
  owner : option UI.json;
  loanAmount : option UI.json;
  term : option UI.json;
  status : UI.json;
}.

(** What [loadSchedules] depends on besides the store: whether the
    read-only contract is there, what [isAvailable] answers (no value when
    the call throws), and whether each read goes through. *)
Record LoadEnv := {
  readonly_available : bool;
  isAvailable : option bool;
  keys_read_ok : bool;
  record_read_ok : UI.json -> bool;
}.

(** What [activateSchedule] and [completeSchedule] depend on. *)
Record UpdateEnv := {
  provider_connected : bool;
  signer_available : bool;
  getData_ok : bool;
  setData_ok : bool;
}.

Inductive UpdateOutcome :=
| NotConnected
| Updated
| UpdateFailed.

(** The lookup of an own property of a parsed object. *)
Fixpoint field (name : string) (fields : list (string * UI.json))
    : option UI.json :=
  match fields with
  | [] => None
  | (k, v) :: rest => if String.eqb k name then Some v else field name rest
  end.

(** [value.name] on a parsed value: it throws on [null] (no result); on an
    object it is the property or [undefined]; numbers, booleans, strings and
    arrays have none of the six properties read here. *)
Definition property (value : UI.json) (name : string)
    : option (option UI.json) :=
  match value with
  | UI.JNull => None
  | UI.JObj fields => Some (field name fields)
  | _ => Some None
  end.

(** The values that [||] replaces: [undefined], [null], [false], zero and
    the empty string. *)
Definition falsy (v : option UI.json) : bool :=
  match v with
  | None => true
  | Some UI.JNull => true
  | Some (UI.JBool b) => negb b
  | Some (UI.JNum n) => n =? 0
  | Some (UI.JStr text) => String.eqb text EmptyString
  | Some _ => false
  end.

(** [object.name = v]: the value is replaced where the property is, or the
    property is added last. *)
Fixpoint assign (name : string) (v : UI.json) (fields : list (string * UI.json))
    : list (string * UI.json) :=
  match fields with
  | [] => [(name, v)]
  | (k, x) :: rest =>
      if String.eqb k name then (k, v) :: rest
      else (k, x) :: assign name v rest
  end.

(** The three counters of the statistics panel. *)
Definition has_status (name : string) (x : LoanSchedule) : bool :=
  match status x with
  | UI.JStr text => String.eqb text name
  | _ => false
  end.

Definition activeCount (schedules : list LoanSchedule) : nat :=
  length (List.filter (has_status "active") schedules).

Definition pendingCount (schedules : list LoanSchedule) : nat :=
  length (List.filter (has_status "pending") schedules).

Definition completedCount (schedules : list LoanSchedule) : nat :=
  length (List.filter (has_status "completed") schedules).

Section Planner.

(** The JavaScript runtime, as for [submitSchedule], and further: the
    conversion of a value to a string in a template literal ([ToString]) and
    to a number in a subtraction ([ToNumber], no value for [NaN]), the code
    points a string iterates over, the code units it spreads into, and
    [Array.prototype.sort]. *)
Variable JSON_stringify : UI.json -> string.
Variable JSON_parse : string -> option UI.json.
Variable toUtf8Bytes : string -> bytes.
Variable toUtf8String : bytes -> option string.
Variable Number_toString : Z -> string.
Variable ToString : UI.json -> string.
Variable ToNumber : UI.json -> option Z.
Variable String_points : string -> list string.
Variable String_units : string -> list string.
Variable Array_sort :
  (LoanSchedule -> LoanSchedule -> option Z) ->
  list LoanSchedule -> list LoanSchedule.

(** [`${key}`]. *)
Definition template (key : UI.json) : string :=
  match key with
  | UI.JStr text => text
  | _ => ToString key
  end.

(** [for (const key of keys)]: an array gives its items, a string its code
    points, anything else is not iterable and throws. *)
Definition iterate (keys : UI.json) : option (list UI.json) :=
  match keys with
  | UI.JArr items => Some items
  | UI.JStr text => Some (map UI.JStr (String_points text))
  | _ => None
  end.

(** The operand of the subtraction in the sort's comparator. *)
Definition to_number (v : option UI.json) : option Z :=
  match v with
  | None => None
  | Some (UI.JNum n) => Some n
  | Some j => ToNumber j
  end.

(** [(a, b) => b.timestamp - a.timestamp]. *)
Definition by_timestamp_descending (a b : LoanSchedule) : option Z :=
  match to_number (timestamp b), to_number (timestamp a) with
  | Some x, Some y => Some (x - y)
  | _, _ => None
  end.

(** The body of the loop of [loadSchedules] for one key: no entry when the
    read fails, the record is empty or does not parse, or parses to [null]
    (the property reads then throw, inside the inner [try]). *)
Definition load_one (env : LoadEnv) (st : gmap string (list byte))
    (key : UI.json) : option LoanSchedule :=
  if negb (record_read_ok env key) then None
  else
    let scheduleBytes := UI.getData st (UI.schedule_key (template key)) in
    if (0 <? length scheduleBytes)%nat then
      match toUtf8String scheduleBytes ≫= JSON_parse with
      | None => None
      | Some scheduleData =>
          match property scheduleData "data",
                property scheduleData "timestamp",
                property scheduleData "owner",
                property scheduleData "loanAmount",
                property scheduleData "term",
                property scheduleData "status" with
          | Some d, Some t, Some o, Some a, Some m, Some st0 =>
              Some {| schedule_id := key;
                      encryptedData := d;
                      timestamp := t;
                      owner := o;
                      loanAmount := a;
                      term := m;
                      status := if falsy st0 then UI.JStr "pending"
                                else default UI.JNull st0 |}
          | _, _, _, _, _, _ => None
          end
      end
    else None.

(** [loadSchedules]: the new value of [schedules], or no value when the
    function returns early or throws and [schedules] stays as it was. *)
Definition loadSchedules (env : LoadEnv) (st : gmap string (list byte))
    : option (list LoanSchedule) :=
  if negb (readonly_available env) then None
  else
    match isAvailable env with
    | None => None
    | Some false => None
    | Some true =>
        if negb (keys_read_ok env) then None
        else
          let keysBytes := UI.getData st "schedule_keys" in
          let keys :=
            if (0 <? length keysBytes)%nat then
              match toUtf8String keysBytes ≫= JSON_parse with
              | Some parsed => parsed
              | None => UI.JArr []
              end
            else UI.JArr [] in
          match iterate keys with
          | None => None
          | Some items =>
              let list := omap (load_one env st) items in
              Some (Array_sort by_timestamp_descending list)
          end
    end.

(** [{...value}]: the own properties of an object; the items of an array
    and the code units of a string under their indices; nothing for
    [null], a number or a boolean. *)
Definition spread (value : UI.json) : list (string * UI.json) :=
  match value with
  | UI.JObj fields => fields
  | UI.JArr items =>
      imap (fun i x => (Number_toString (Z.of_nat i), x)) items
  | UI.JStr text =>
      imap (fun i c => (Number_toString (Z.of_nat i), UI.JStr c))
           (String_units text)
  | _ => []
  end.

(** [{...scheduleData, status: word}]. *)
Definition with_status (word : string) (scheduleData : UI.json) : UI.json :=
  UI.JObj (assign "status" (UI.JStr word) (spread scheduleData)).

(** [activateSchedule] and [completeSchedule] are the same code with another
    status word (and other messages): read the record, fail when it is empty
    or does not parse, write it back with the status replaced. *)
Definition rewrite_status (word : string) (env : UpdateEnv)
    (scheduleId : string) (st : gmap string (list byte))
    : UpdateOutcome * gmap string (list byte) :=
  if negb (provider_connected env) then (NotConnected, st)
  else if negb (signer_available env) then (UpdateFailed, st)
  else if negb (getData_ok env) then (UpdateFailed, st)
  else
    let scheduleBytes := UI.getData st (UI.schedule_key scheduleId) in
    if (length scheduleBytes =? 0)%nat then (UpdateFailed, st)
    else
      match toUtf8String scheduleBytes ≫= JSON_parse with
      | None => (UpdateFailed, st)
      | Some scheduleData =>
          let updatedSchedule := with_status word scheduleData in
          if negb (setData_ok env) then (UpdateFailed, st)
          else
            (Updated,
             UI.setData (UI.schedule_key scheduleId)
                        (toUtf8Bytes (JSON_stringify updatedSchedule)) st)
      end.

Definition activateSchedule := rewrite_status "active".

Definition completeSchedule := rewrite_status "completed".

(** A value that the store gives back as it was written: its text is not
    empty and parses to the value. *)
Definition reads_back (value : UI.json) : Prop :=
  (0 < length (toUtf8Bytes (JSON_stringify value)))%nat
  /\ toUtf8String (toUtf8Bytes (JSON_stringify value)) ≫= JSON_parse
     = Some value.

End Planner.

End Schedules.

(** ** A fuller stand-in for the JavaScript runtime

    [Runtime] with a reader of the JSON text it prints (objects, arrays,
    strings, integers and the three literals, without white space), a sort
    by insertion, and strings taken one character at a time.  As before, it
    only shows runs. *)

Module Browser.
Import UI.

Definition open_brace : Ascii.ascii := Ascii.ascii_of_nat 123.
Definition close_brace : Ascii.ascii := Ascii.ascii_of_nat 125.
Definition colon_char : Ascii.ascii := Ascii.ascii_of_nat 58.
Definition minus_char : Ascii.ascii := Ascii.ascii_of_nat 45.

Definition is_digit (c : Ascii.ascii) : bool :=
  let n := Ascii.nat_of_ascii c in ((48 <=? n) && (n <=? 57))%nat.

Fixpoint strip_prefix (p s : string) : option string :=
  match p with
  | EmptyString => Some s
  | String a p' =>
      match s with
      | String b s' => if Ascii.eqb a b then strip_prefix p' s' else None
      | EmptyString => None
      end
  end.

(** The text of a string after its opening quote, and what follows. *)
Fixpoint read_text (acc : string) (s : string) : option (string * string) :=
  match s with
  | EmptyString => None
  | String c rest =>
      if Ascii.eqb c Runtime.quote_char then Some (acc, rest)
      else if Ascii.eqb c Runtime.backslash_char then
        match rest with
        | String d rest' =>
            if (Ascii.eqb d Runtime.quote_char
                || Ascii.eqb d Runtime.backslash_char)%bool
            then read_text (acc ++ String d EmptyString)%string rest'
            else None
        | EmptyString => None
        end
      else read_text (acc ++ String c EmptyString)%string rest
  end.

Fixpoint read_digits (acc : string) (s : string) : string * string :=
  match s with
  | String c rest =>
      if is_digit c then read_digits (acc ++ String c EmptyString)%string rest
      else (acc, s)
  | EmptyString => (acc, s)
  end.

Definition read_number (s : string) : option (json * string) :=
  let '(sign, body) :=
    match s with
    | String c rest =>
        if Ascii.eqb c minus_char then (String c EmptyString, rest)
        else (EmptyString, s)
    | EmptyString => (EmptyString, s)
    end in
  let '(digits, rest) := read_digits EmptyString body in
  match digits with
  | EmptyString => None
  | _ =>
      option_map (fun n => (JNum (Z.of_int n), rest))
                 (NilZero.int_of_string (sign ++ digits)%string)
  end.

Definition read_literal (s : string) : option (json * string) :=
  match strip_prefix "null" s with
  | Some rest => Some (JNull, rest)
  | None =>
      match strip_prefix "true" s with
      | Some rest => Some (JBool true, rest)
      | None =>
          match strip_prefix "false" s with
          | Some rest => Some (JBool false, rest)
          | None => read_number s
          end
      end
  end.

Fixpoint read_value (fuel : nat) (s : string) : option (json * string) :=
  match fuel with
  | O => None
  | S n =>
      match s with
      | EmptyString => None
      | String c rest =>
          if Ascii.eqb c Runtime.quote_char then
            option_map (fun tr => (JStr (fst tr), snd tr))
                       (read_text EmptyString rest)
          else if Ascii.eqb c Runtime.open_bracket then
            match rest with
            | String c' rest' =>
                if Ascii.eqb c' Runtime.close_bracket then Some (JArr [], rest')
                else read_items n [] rest
            | EmptyString => None
            end
          else if Ascii.eqb c open_brace then
            match rest with
            | String c' rest' =>
                if Ascii.eqb c' close_brace then Some (JObj [], rest')
                else read_members n [] rest
            | EmptyString => None
            end
          else read_literal s
      end
  end
with read_items (fuel : nat) (acc : list json) (s : string)
    : option (json * string) :=
  match fuel with
  | O => None
  | S n =>
      match read_value n s with
      | Some (v, String c rest) =>
          if Ascii.eqb c Runtime.comma_char then read_items n (v :: acc) rest
          else if Ascii.eqb c Runtime.close_bracket
          then Some (JArr (rev (v :: acc)), rest)
          else None
      | _ => None
      end
  end
with read_members (fuel : nat) (acc : list (string * json)) (s : string)
    : option (json * string) :=
  match fuel with
  | O => None
  | S n =>
      match s with
      | String q rest =>
          if Ascii.eqb q Runtime.quote_char then
            match read_text EmptyString rest with
            | Some (k, String c rest') =>
                if Ascii.eqb c colon_char then
                  match read_value n rest' with
                  | Some (v, String c' rest'') =>
                      if Ascii.eqb c' Runtime.comma_char
                      then read_members n ((k, v) :: acc) rest''
                      else if Ascii.eqb c' close_brace
                      then Some (JObj (rev ((k, v) :: acc)), rest'')
                      else None
                  | _ => None
                  end
                else None
            | _ => None
            end
          else None
      | EmptyString => None
      end
  end.

Definition JSON_parse (s : string) : option json :=
  match read_value (S (String.length s)) s with
  | Some (v, EmptyString) => Some v
  | _ => None
  end.

Fixpoint characters (s : string) : list string :=
  match s with
  | EmptyString => []
  | String c rest => String c EmptyString :: characters rest
  end.

Definition ToNumber (j : json) : option Z :=
  match j with
  | JNull => Some 0
  | JBool b => Some (if b then 1 else 0)
  | _ => None
  end.

Section Sort.
Context {A : Type} (compare : A -> A -> option Z).

Definition goes_after (x y : A) : bool :=
  match compare x y with
  | Some d => 0 <? d
  | None => false
  end.

Fixpoint insert_sorted (x : A) (l : list A) : list A :=
  match l with
  | [] => [x]
  | y :: rest => if goes_after x y then y :: insert_sorted x rest else x :: l
  end.

Definition Array_sort (l : list A) : list A := foldr insert_sorted [] l.

End Sort.

(** What [Runtime.JSON_stringify] prints between the brackets of an array
    of strings. *)
Fixpoint ids_text (l : list string) : string :=
  match l with
  | [] => EmptyString
  | x :: rest =>
      match rest with
      | [] => Runtime.quoted x
      | _ => (Runtime.quoted x ++ "," ++ ids_text rest)%string
      end
  end.

Definition submit :
    Env -> string -> ScheduleForm -> gmap string (list byte) ->
    Outcome * gmap string (list byte) :=
  submitSchedule Runtime.JSON_stringify JSON_parse Runtime.toUtf8Bytes
                 Runtime.toUtf8String Runtime.btoa Runtime.parseInt
                 Runtime.Number_toString.

Definition load :
    Schedules.LoadEnv -> gmap string (list byte) ->
    option (list Schedules.LoanSchedule) :=
  Schedules.loadSchedules JSON_parse Runtime.toUtf8String
    Runtime.JSON_stringify ToNumber characters Array_sort.

Definition activate :
    Schedules.UpdateEnv -> string -> gmap string (list byte) ->
    Schedules.UpdateOutcome * gmap string (list byte) :=
  Schedules.activateSchedule Runtime.JSON_stringify JSON_parse
    Runtime.toUtf8Bytes Runtime.toUtf8String Runtime.Number_toString
    characters.

Definition complete :
    Schedules.UpdateEnv -> string -> gmap string (list byte) ->
    Schedules.UpdateOutcome * gmap string (list byte) :=
  Schedules.completeSchedule Runtime.JSON_stringify JSON_parse
    Runtime.toUtf8Bytes Runtime.toUtf8String Runtime.Number_toString
    characters.

Definition all_reads : Schedules.LoadEnv :=
  {| Schedules.readonly_available := true;
     Schedules.isAvailable := Some true;
     Schedules.keys_read_ok := true;
     Schedules.record_read_ok := fun _ => true |}.

Definition all_writes : Schedules.UpdateEnv :=
  {| Schedules.provider_connected := true;
     Schedules.signer_available := true;
     Schedules.getData_ok := true;
     Schedules.setData_ok := true |}.

(** Two submissions, then the first schedule activated and completed. *)
Definition first_id : string := "1700000000123-k3j9x2a".

Definition two_stored : gmap string (list byte) :=
  snd (submit Runtime.second_run Runtime.account Runtime.form
         (snd (submit Runtime.first_run Runtime.account Runtime.form ∅))).

Definition first_activated : gmap string (list byte) :=
  snd (activate all_writes first_id two_stored).

Definition first_completed : gmap string (list byte) :=
  snd (complete all_writes first_id first_activated).

End Browser.

(** ** What the log and a sequence of calls show *)

(** The [LoanSubmitted] events of a log. *)
Definition is_LoanSubmitted (ev : Event) : bool :=
  match ev with
  | LoanSubmitted _ _ => true
  | _ => false
  end.

Definition submitted_count (log : list Event) : Z :=
  Z.of_nat (length (filter (fun ev => is_LoanSubmitted ev = true) log)).

Definition is_request (c : Call) : bool :=
  match c with
  | RequestScheduleDecryption _ => true
  | _ => false
  end.

(** ** Further inputs of concrete runs *)

Module Inputs.

(** A loan at a yearly rate of 1200 over 36 months. *)
Definition doubling_loan : EncryptedLoan :=
  {| loan_id := 1; borrower := Example.alice; encryptedPrincipal := 10000;
     encryptedInterestRate := 1200; encryptedTerm := 36;
     encryptedExtraPayment := 0; timestamp := 1700000000 |}.

(** A submission whose second write fails. *)
Definition interrupted : UI.Env :=
  {| UI.provider_connected := true; UI.date_now := 1700000120789;
     UI.random_suffix := "q8w2e5r"; UI.signer_available := true;
     UI.first_setData_ok := true; UI.getData_ok := true;
     UI.second_setData_ok := false |}.

(** A store whose index is no JSON text, and one whose index is an object. *)
Definition broken_index : gmap string (list byte) :=
  <["schedule_keys"%string := Runtime.toUtf8Bytes "oops"]> ∅.

Definition object_index : gmap string (list byte) :=
  <["schedule_keys"%string := Runtime.toUtf8Bytes "{}"]> ∅.

(** The record of the first submission of [Runtime], with a given status. *)
Definition first_record (status : UI.json) : UI.json :=
  UI.schedule_record
    (UI.JStr ("FHE-" ++ Runtime.JSON_stringify (UI.form_json Runtime.form)))
    (UI.JNum (1700000000123 / 1000))
    (UI.JStr Runtime.account)
    (UI.JStr "10000")
    (UI.JNum 36)
    status.

(** The store after one submission, and after a second one, on the runtime
    that reads JSON back. *)
Definition one_submitted : gmap string (list byte) :=
  UI.submissions Runtime.JSON_stringify Browser.JSON_parse Runtime.toUtf8Bytes
    Runtime.toUtf8String Runtime.btoa Runtime.parseInt Runtime.Number_toString
    [ (Runtime.first_run, Runtime.account, Runtime.form) ] ∅.

Definition two_submitted : gmap string (list byte) :=
  snd (Browser.submit Runtime.second_run Runtime.account Runtime.form
         one_submitted).

(** What the list shows after the first schedule is completed. *)
Definition shown (status : string) : Schedules.LoanSchedule :=
  {| Schedules.schedule_id := UI.JStr Browser.first_id;
     Schedules.encryptedData := Some (UI.JStr "FHE-");
     Schedules.timestamp := Some (UI.JNum 1700000000);
     Schedules.owner := Some (UI.JStr Runtime.account);
     Schedules.loanAmount := Some (UI.JStr "10000");
     Schedules.term := Some (UI.JNum 36);
     Schedules.status := UI.JStr status |}.

End Inputs.

(** * Properties *)

(** ** Storage reads *)

Lemma sload_insert_eq `{ZeroValue A} (m : gmap Z A) k v :
  sload (<[k:=v]> m) k = v.
Proof. unfold sload. by rewrite lookup_insert_eq. Qed.

Lemma sload_insert_ne `{ZeroValue A} (m : gmap Z A) k k' v :
  k ≠ k' -> sload (<[k:=v]> m) k' = sload m k'.
Proof. intros Hne. unfold sload. by rewrite lookup_insert_ne. Qed.

Lemma sload_empty `{ZeroValue A} k : sload (∅ : gmap Z A) k = zero_value.
Proof. unfold sload. by rewrite lookup_empty. Qed.

(** ** ABI coding *)

Lemma byte_to_of_Z v : byte_to_Z (byte_of_Z v) = v mod 256.
Proof.
  unfold byte_to_Z, byte_of_Z.
  assert (Hr : 0 <= v mod 256 < 256) by (apply Z.mod_pos_bound; lia).
  destruct (Byte.of_N (Z.to_N (v mod 256))) as [b|] eqn:Hb; simpl.
  - apply Byte.to_of_N in Hb. rewrite Hb. lia.
  - apply Byte.of_N_None_iff in Hb. lia.
Qed.

Lemma byte_to_Z_inj a b : byte_to_Z a = byte_to_Z b -> a = b.
Proof.
  unfold byte_to_Z. intros Hab. apply N2Z.inj in Hab.
  assert (Ha := Byte.of_to_N a). rewrite Hab, Byte.of_to_N in Ha. congruence.
Qed.

Lemma bytes_eqb_eq a b : bytes_eqb a b = true <-> a = b.
Proof.
  unfold bytes_eqb. rewrite bool_decide_eq_true. split; [|congruence].
  revert b. induction a as [|x a IH]; intros [|y b] Hab; simpl in *;
    try discriminate; [done|].
  injection Hab as Hxy Hab. f_equal; [by apply byte_to_Z_inj | by apply IH].
Qed.

Lemma be_value_snoc l b : be_value (l ++ [b]) = be_value l * 256 + byte_to_Z b.
Proof. unfold be_value. by rewrite fold_left_app. Qed.

Lemma length_be_bytes n v : length (be_bytes n v) = n.
Proof.
  revert v. induction n as [|n IH]; intros v; simpl; [done|].
  rewrite length_app, IH. simpl. lia.
Qed.

Lemma be_value_be_bytes n v : be_value (be_bytes n v) = v mod 256 ^ Z.of_nat n.
Proof.
  revert v. induction n as [|n IH]; intros v.
  - simpl. by rewrite Z.mod_1_r.
  - cbn [be_bytes]. rewrite be_value_snoc, IH, byte_to_of_Z.
    rewrite Nat2Z.inj_succ, Z.pow_succ_r by lia.
    rewrite (Z.rem_mul_r v 256 (256 ^ Z.of_nat n)) by lia. lia.
Qed.

Lemma be_value_abi_word v : 0 <= v <= MAX_UINT32 -> be_value (abi_word v) = v.
Proof.
  intros Hv. unfold abi_word. rewrite be_value_be_bytes.
  apply Z.mod_small. unfold MAX_UINT32 in Hv. lia.
Qed.

Lemma abi_decode_encode a b c rest :
  0 <= a <= MAX_UINT32 -> 0 <= b <= MAX_UINT32 -> 0 <= c <= MAX_UINT32 ->
  abi_decode_uint32x3 (abi_encode (a :: b :: c :: rest)) = Some (a, b, c).
Proof.
  intros Ha Hb Hc.
  assert (Hl : forall v, length (abi_word v) = 32%nat)
    by (intros; apply length_be_bytes).
  unfold abi_decode_uint32x3, abi_encode, word_at. cbn [map concat].
  rewrite !length_app, !Hl.
  destruct (Z.ltb_spec (Z.of_nat (32 + (32 + (32 + length (concat (map abi_word rest))))))
              96) as [Hlt|_]; [lia|].
  change (32 * 0)%nat with 0%nat. change (32 * 1)%nat with 32%nat.
  change (32 * 2)%nat with (32 + 32)%nat.
  rewrite skipn_O.
  rewrite (take_app_length' (abi_word a) _ 32) by (symmetry; apply Hl).
  rewrite (drop_app_length' (abi_word a) _ 32) by (symmetry; apply Hl).
  rewrite (take_app_length' (abi_word b) _ 32) by (symmetry; apply Hl).
  rewrite <- drop_drop.
  rewrite (drop_app_length' (abi_word a) _ 32) by (symmetry; apply Hl).
  rewrite (drop_app_length' (abi_word b) _ 32) by (symmetry; apply Hl).
  rewrite (take_app_length' (abi_word c) _ 32) by (symmetry; apply Hl).
  rewrite !be_value_abi_word by done.
  destruct (Z.leb_spec a MAX_UINT32); [|lia].
  destruct (Z.leb_spec b MAX_UINT32); [|lia].
  destruct (Z.leb_spec c MAX_UINT32); [|lia]. done.
Qed.

(** ** The contract *)

Section ContractProperties.
Context `{E : FHEEngine}.

Implicit Types (s : State) (loanId requestId : uint256) (sender : address).

Lemma require_true e : require true e = Ok tt.
Proof. reflexivity. Qed.

Lemma require_false e : require false e = Revert e.
Proof. reflexivity. Qed.

Lemma bind_Ok {A B} (r : Result A) (k : A -> Result B) b :
  bind r k = Ok b -> exists a, r = Ok a /\ k a = Ok b.
Proof. destruct r as [a|e]; simpl; [eauto | discriminate]. Qed.

Lemma require_Ok cond e u : require cond e = Ok u -> cond = true.
Proof. destruct cond; [done | discriminate]. Qed.

(** Splits a successful run of guarded code into its guards. *)
Ltac guards H :=
  repeat match type of H with
  | bind _ _ = Ok _ =>
      let u := fresh "u" in
      let G := fresh "G" in
      apply bind_Ok in H as (u & G & H);
      try apply require_Ok in G
  end.

Lemma transact_revert sender c s e : execute sender c s = Revert e -> transact sender c s = s.
Proof. unfold transact. by intros ->. Qed.

Lemma transact_ok sender c s s' : execute sender c s = Ok s' -> transact sender c s = s'.
Proof. unfold transact. by intros ->. Qed.

(** *** Analytic functions and the [isCalculated] guard *)

(** C1.  For a loan whose schedule is not calculated, each of the twenty
    analytic functions other than [calculatePrepaymentRisk] reverts with
    [NotCalculated], as the specification says of all of them.
    [calculatePrepaymentRisk] departs from this: the [require] its siblings
    carry is missing, and in every state, for every loan id, calculated or
    not, it returns the handle of [extraPayment * 100 / principal]. *)
Theorem analytic_requires_calculated (q : Analytic) s loanId :
  (isCalculated (sload (amortizationSchedules s) loanId) = false ->
   q <> PrepaymentRisk ->
   analytic q s loanId = Revert NotCalculated)
  /\ analytic PrepaymentRisk s loanId =
       Ok (FHE_div
             (FHE_mul (encryptedExtraPayment (sload (encryptedLoans s) loanId))
                      (FHE_asEuint32 100))
             (encryptedPrincipal (sload (encryptedLoans s) loanId))).
Proof.
  split; [|reflexivity].
  intros Hnot Hq.
  destruct q; try congruence; cbn [analytic];
    unfold calculateInterestSavings, calculateAffordability,
      optimizePaymentStrategy, calculateDebtToIncome,
      estimateEarlyPayoffImpact, calculateLoanHealth,
      calculateRefinancingBenefit, calculatePaymentShockRisk,
      optimizeForGoals, calculateInterestSensitivity, estimateTaxBenefit,
      calculateLoanLiquidity, detectOverleveraging,
      calculateFinancialFlexibility, optimizeForCashFlow, estimateNetCost,
      calculateLoanEfficiency, generatePersonalizedAdvice,
      calculateDebtSustainability, estimateInflationImpact,
      calculateDebtToIncome, calculateAffordability,
      calculateInterestSavings;
    rewrite Hnot; reflexivity.
Qed.

(** *** [calculateAmortization]: what a call does *)

Lemma calculateAmortization_cases sender loanId s :
  calculateAmortization sender loanId s =
    if negb (sload (financialAdvisors s) sender) then Revert NotAdvisor
    else if isCalculated (sload (amortizationSchedules s) loanId)
    then Revert AlreadyCalculated
    else Ok (emit (ScheduleCalculated loanId)
               (set_amortizationSchedule loanId
                  (amortize (sload (encryptedLoans s) loanId)) s)).
Proof.
  unfold calculateAmortization, onlyAdvisor.
  destruct (sload (financialAdvisors s) sender); [|reflexivity].
  destruct (isCalculated (sload (amortizationSchedules s) loanId)); reflexivity.
Qed.

Lemma calculateAmortization_rejected sender loanId s :
  isCalculated (sload (amortizationSchedules s) loanId) = true ->
  calculateAmortization sender loanId s =
    Revert (if sload (financialAdvisors s) sender
            then AlreadyCalculated else NotAdvisor).
Proof.
  intros Hc. rewrite calculateAmortization_cases, Hc.
  by destruct (sload (financialAdvisors s) sender).
Qed.

Lemma calculateAmortization_marks sender loanId s s' :
  calculateAmortization sender loanId s = Ok s' ->
  isCalculated (sload (amortizationSchedules s') loanId) = true
  /\ loanCount s' = loanCount s
  /\ financialAdvisors s' = financialAdvisors s.
Proof.
  rewrite calculateAmortization_cases.
  destruct (negb _); [discriminate|].
  destruct (isCalculated _); [discriminate|].
  intros [= <-]. cbn. by rewrite sload_insert_eq.
Qed.

(** *** What a transaction leaves alone *)

Lemma transact_loanCount sender c s : loanCount s <= loanCount (transact sender c s).
Proof.
  unfold transact.
  destruct (execute sender c s) as [s'|e] eqn:Hx; [|lia].
  destruct c; cbn [execute] in Hx.
  - unfold authorizeAdvisor in Hx. guards Hx. injection Hx as <-. cbn. lia.
  - unfold submitEncryptedLoan in Hx. guards Hx. injection Hx as <-. cbn. lia.
  - apply calculateAmortization_marks in Hx. lia.
  - unfold requestScheduleDecryption in Hx. guards Hx.
    destruct (FHE_requestDecryption _ _). injection Hx as <-. cbn. lia.
  - unfold decryptAmortizationSchedule in Hx. guards Hx.
    destruct (abi_decode_uint32x3 _) as [[[? ?] ?]|]; [|discriminate].
    injection Hx as <-. cbn. lia.
  - unfold protectFinancialPrivacy in Hx. guards Hx. injection Hx as <-. lia.
Qed.

(** Once a schedule is calculated, no transaction changes it, unless it is
    the [submitEncryptedLoan] that assigns its id. *)
Lemma transact_keeps_schedule_unless_assigned sender c s loanId :
  loanId <= loanCount s \/ loanCount (transact sender c s) < loanId ->
  isCalculated (sload (amortizationSchedules s) loanId) = true ->
  sload (amortizationSchedules (transact sender c s)) loanId
  = sload (amortizationSchedules s) loanId.
Proof.
  intros Hid Hc. unfold transact in *.
  destruct (execute sender c s) as [s'|e] eqn:Hx; [|done].
  destruct c; cbn [execute] in Hx.
  - unfold authorizeAdvisor in Hx. guards Hx. by injection Hx as <-.
  - unfold submitEncryptedLoan in Hx. guards Hx. injection Hx as <-.
    cbn in Hid |- *. apply sload_insert_ne. lia.
  - rewrite calculateAmortization_cases in Hx.
    destruct (negb _); [discriminate|].
    destruct (isCalculated (sload (amortizationSchedules s) loanId0)) eqn:Hc0;
      [discriminate|].
    injection Hx as <-. cbn. apply sload_insert_ne. congruence.
  - unfold requestScheduleDecryption in Hx. guards Hx.
    destruct (FHE_requestDecryption _ _). by injection Hx as <-.
  - unfold decryptAmortizationSchedule in Hx. guards Hx.
    destruct (abi_decode_uint32x3 _) as [[[? ?] ?]|]; [|discriminate].
    by injection Hx as <-.
  - unfold protectFinancialPrivacy in Hx. guards Hx. by injection Hx as <-.
Qed.

Lemma transact_keeps_schedule sender c s loanId :
  loanId <= loanCount s ->
  isCalculated (sload (amortizationSchedules s) loanId) = true ->
  sload (amortizationSchedules (transact sender c s)) loanId
  = sload (amortizationSchedules s) loanId.
Proof. intros Hid. apply transact_keeps_schedule_unless_assigned. by left. Qed.

Lemma run_cons tx txs s : run (tx :: txs) s = run txs (transact (fst tx) (snd tx) s).
Proof. reflexivity. Qed.

Lemma run_keeps_schedule txs s loanId :
  loanId <= loanCount s ->
  isCalculated (sload (amortizationSchedules s) loanId) = true ->
  sload (amortizationSchedules (run txs s)) loanId
  = sload (amortizationSchedules s) loanId.
Proof.
  revert s. induction txs as [|[a c] txs IH]; intros s Hid Hc; [done|].
  rewrite run_cons. cbn [fst snd].
  pose proof (transact_loanCount a c s) as Hmono.
  pose proof (transact_keeps_schedule a c s loanId Hid Hc) as Hkeep.
  rewrite IH; [done | lia | by rewrite Hkeep].
Qed.

Lemma calculations_after_calculated txs s loanId :
  loanId <= loanCount s ->
  isCalculated (sload (amortizationSchedules s) loanId) = true ->
  calculations loanId txs s = 0%nat.
Proof.
  revert s. induction txs as [|[a c] txs IH]; intros s Hid Hc; [done|].
  cbn [calculations].
  pose proof (transact_loanCount a c s) as Hmono.
  pose proof (transact_keeps_schedule a c s loanId Hid Hc) as Hkeep.
  rewrite IH; [| lia | by rewrite Hkeep].
  destruct c; cbn [is_calculate andb]; try done.
  destruct (Z.eqb_spec loanId0 loanId) as [->|]; [|done].
  cbn [execute andb]. by rewrite calculateAmortization_rejected.
Qed.

Lemma calculations_at_most_once txs s loanId :
  loanId <= loanCount s -> (calculations loanId txs s <= 1)%nat.
Proof.
  revert s. induction txs as [|[a c] txs IH]; intros s Hid; [cbn; lia|].
  cbn [calculations].
  pose proof (transact_loanCount a c s) as Hmono.
  destruct (is_calculate loanId c && succeeds (execute a c s)) eqn:Hdone.
  - apply andb_prop in Hdone as [Hc Hs].
    destruct c; try discriminate. cbn [is_calculate] in Hc.
    apply Z.eqb_eq in Hc as ->. cbn [execute] in Hs.
    unfold transact. cbn [execute].
    destruct (calculateAmortization a loanId s) as [s'|] eqn:Hx; [|discriminate].
    apply calculateAmortization_marks in Hx as (Hm & Hn & _).
    rewrite calculations_after_calculated; [lia | lia | done].
  - specialize (IH (transact a c s)). lia.
Qed.

(** Attempts only, at any loan id. *)
Lemma attempts_after_calculated callers s loanId :
  isCalculated (sload (amortizationSchedules s) loanId) = true ->
  calculations loanId (attempts loanId callers) s = 0%nat
  /\ run (attempts loanId callers) s = s.
Proof.
  intros Hc. induction callers as [|a callers [IHn IHs]]; [done|].
  cbn [attempts map calculations]. rewrite run_cons. cbn [fst snd].
  fold (attempts loanId callers).
  assert (Hx := calculateAmortization_rejected a loanId s Hc).
  rewrite (transact_revert a (CalculateAmortization loanId) s _ Hx).
  cbn [execute]. rewrite Hx.
  rewrite andb_false_r. done.
Qed.

Lemma attempts_exactly_once callers s loanId :
  isCalculated (sload (amortizationSchedules s) loanId) = false ->
  calculations loanId (attempts loanId callers) s
  = if existsb (fun a => sload (financialAdvisors s) a) callers
    then 1%nat else 0%nat.
Proof.
  intros Hc. induction callers as [|a callers IH]; [done|].
  cbn [attempts map calculations existsb]. fold (attempts loanId callers).
  cbn [is_calculate execute]. rewrite Z.eqb_refl. cbn [andb].
  unfold transact. cbn [execute].
  rewrite calculateAmortization_cases, Hc.
  destruct (sload (financialAdvisors s) a) eqn:Ha; cbn [negb orb succeeds].
  - match goal with
    | |- context [calculations loanId (attempts loanId callers) ?s'] =>
        destruct (attempts_after_calculated callers s' loanId) as [-> _];
        [cbn; by rewrite sload_insert_eq | done]
    end.
  - by rewrite IH.
Qed.

(** C3 (amended).  While [isCalculated] is set, every call of
    [calculateAmortization] for that loan reverts ([AlreadyCalculated] for an
    advisor, the [onlyAdvisor] error for anyone else) and leaves the state
    as it was.  For a loan id that [submitEncryptedLoan] has already
    assigned, this lasts through any later transactions: the call goes
    through at most once in any sequence, and the stored schedule never
    changes afterwards.  Over any sequence of attempts at one loan that is
    not yet calculated, exactly one goes through when a caller is an
    advisor, none otherwise. *)
Theorem calculateAmortization_once s loanId :
  (isCalculated (sload (amortizationSchedules s) loanId) = true ->
   forall sender,
     calculateAmortization sender loanId s =
       Revert (if sload (financialAdvisors s) sender
               then AlreadyCalculated else NotAdvisor)
     /\ transact sender (CalculateAmortization loanId) s = s)
  /\ (loanId <= loanCount s ->
      forall txs,
        (calculations loanId txs s <= 1)%nat
        /\ (isCalculated (sload (amortizationSchedules s) loanId) = true ->
            calculations loanId txs s = 0%nat
            /\ sload (amortizationSchedules (run txs s)) loanId
               = sload (amortizationSchedules s) loanId))
  /\ (isCalculated (sload (amortizationSchedules s) loanId) = false ->
      forall callers,
        calculations loanId (attempts loanId callers) s
        = if existsb (fun a => sload (financialAdvisors s) a) callers
          then 1%nat else 0%nat).
Proof.
  split; [|split].
  - intros Hc sender.
    pose proof (calculateAmortization_rejected sender loanId s Hc) as Hx.
    split; [done|].
    by apply (transact_revert sender (CalculateAmortization loanId) s _ Hx).
  - intros Hid txs. split; [by apply calculations_at_most_once|].
    intros Hc. split.
    + by apply calculations_after_calculated.
    + by apply run_keeps_schedule.
  - intros Hc callers. by apply attempts_exactly_once.
Qed.

(** *** The decryption path: what a call does *)

Lemma requestScheduleDecryption_cases sender loanId s :
  requestScheduleDecryption sender loanId s =
    if negb (borrower (sload (encryptedLoans s) loanId) =? sender)
    then Revert Unauthorized
    else if isRevealed (sload (decryptedSchedules s) loanId)
    then Revert AlreadyRevealed
    else if negb (isCalculated (sload (amortizationSchedules s) loanId))
    then Revert NotCalculated
    else
      let schedule := sload (amortizationSchedules s) loanId in
      let r := FHE_requestDecryption (fhe s)
                 [ FHE_toBytes32 (encryptedMonthlyPayment schedule);
                   FHE_toBytes32 (encryptedTotalInterest schedule);
                   FHE_toBytes32 (encryptedPayoffTime schedule) ] in
      Ok (set_request (fst r) loanId (snd r) s).
Proof.
  unfold requestScheduleDecryption.
  destruct (borrower _ =? sender); [|reflexivity].
  destruct (isRevealed _); [reflexivity|].
  destruct (isCalculated _); [|reflexivity].
  cbn. by destruct (FHE_requestDecryption _ _).
Qed.

Lemma decryptAmortizationSchedule_cases sender requestId ct pf s :
  decryptAmortizationSchedule sender requestId ct pf s =
    let loanId := sload (requestToLoanId s) requestId in
    if loanId =? 0 then Revert UnknownRequest
    else if negb (isCalculated (sload (amortizationSchedules s) loanId))
    then Revert NotCalculated
    else if isRevealed (sload (decryptedSchedules s) loanId)
    then Revert AlreadyRevealed
    else if negb (FHE_checkSignatures (fhe s) requestId ct pf)
    then Revert InvalidProof
    else
      match abi_decode_uint32x3 ct with
      | None => Revert AbiDecodeError
      | Some (mp, ti, pt) =>
          Ok (emit (ScheduleDecrypted loanId)
                (set_decryptedSchedule loanId
                   {| monthlyPayment := mp; totalInterest := ti;
                      payoffTime := pt; isRevealed := true |} s))
      end.
Proof.
  unfold decryptAmortizationSchedule. cbn zeta.
  destruct (sload (requestToLoanId s) requestId =? 0); [reflexivity|].
  destruct (isCalculated _); [|reflexivity].
  destruct (isRevealed _); [reflexivity|].
  destruct (FHE_checkSignatures _ _ _ _); reflexivity.
Qed.

(** A successful resolution, taken apart. *)
Lemma decryptAmortizationSchedule_Ok sender requestId ct pf s s' :
  decryptAmortizationSchedule sender requestId ct pf s = Ok s' ->
  let loanId := sload (requestToLoanId s) requestId in
  loanId <> 0
  /\ isCalculated (sload (amortizationSchedules s) loanId) = true
  /\ isRevealed (sload (decryptedSchedules s) loanId) = false
  /\ FHE_checkSignatures (fhe s) requestId ct pf = true
  /\ exists mp ti pt,
       abi_decode_uint32x3 ct = Some (mp, ti, pt)
       /\ s' = emit (ScheduleDecrypted loanId)
                 (set_decryptedSchedule loanId
                    {| monthlyPayment := mp; totalInterest := ti;
                       payoffTime := pt; isRevealed := true |} s).
Proof.
  rewrite decryptAmortizationSchedule_cases. cbn zeta.
  destruct (Z.eqb_spec (sload (requestToLoanId s) requestId) 0); [discriminate|].
  destruct (isCalculated _); [|discriminate].
  destruct (isRevealed _); [discriminate|].
  destruct (FHE_checkSignatures _ _ _ _); [|discriminate].
  destruct (abi_decode_uint32x3 ct) as [[[mp ti] pt]|]; [|discriminate].
  intros [= <-]. repeat split; try done. by exists mp, ti, pt.
Qed.

(** C4.  After a successful resolution of [requestId], which stores the
    decoded plaintext and sets [isRevealed], a replay of the same
    [requestId], by any caller and with any cleartexts and proof, reverts
    with [AlreadyRevealed] and leaves the state, so the stored plaintext, as
    it was. *)
Theorem resolve_exactly_once sender requestId ct pf s s' :
  decryptAmortizationSchedule sender requestId ct pf s = Ok s' ->
  let loanId := sload (requestToLoanId s) requestId in
  (exists mp ti pt,
     abi_decode_uint32x3 ct = Some (mp, ti, pt)
     /\ sload (decryptedSchedules s') loanId
        = {| monthlyPayment := mp; totalInterest := ti; payoffTime := pt;
             isRevealed := true |})
  /\ forall sender' ct' pf',
       decryptAmortizationSchedule sender' requestId ct' pf' s'
         = Revert AlreadyRevealed
       /\ transact sender' (DecryptAmortizationSchedule requestId ct' pf') s'
          = s'.
Proof.
  intros Hok loanId.
  apply decryptAmortizationSchedule_Ok in Hok
    as (Hid & Hcalc & _ & _ & mp & ti & pt & Hdec & ->).
  fold loanId in Hid, Hcalc |- *.
  split.
  - exists mp, ti, pt. split; [done|]. cbn. by rewrite sload_insert_eq.
  - intros sender' ct' pf'.
    assert (Hx : decryptAmortizationSchedule sender' requestId ct' pf'
                   (emit (ScheduleDecrypted loanId)
                      (set_decryptedSchedule loanId
                         {| monthlyPayment := mp; totalInterest := ti;
                            payoffTime := pt; isRevealed := true |} s))
                 = Revert AlreadyRevealed).
    { rewrite decryptAmortizationSchedule_cases. cbn.
      fold loanId. destruct (Z.eqb_spec loanId 0); [done|].
      rewrite Hcalc. cbn. by rewrite sload_insert_eq. }
    split; [done|].
    by apply (transact_revert sender'
                (DecryptAmortizationSchedule requestId ct' pf') _ _ Hx).
Qed.

(** *** Invariants of the reachable states *)

Lemma transact_revealed_calculated sender c s :
  (forall i, isRevealed (sload (decryptedSchedules s) i) = true ->
             isCalculated (sload (amortizationSchedules s) i) = true) ->
  forall i, isRevealed (sload (decryptedSchedules (transact sender c s)) i) = true ->
            isCalculated (sload (amortizationSchedules (transact sender c s)) i) = true.
Proof.
  intros Inv i. unfold transact.
  destruct (execute sender c s) as [s'|e] eqn:Hx; [|apply Inv].
  destruct c; cbn [execute] in Hx.
  - unfold authorizeAdvisor in Hx. guards Hx. injection Hx as <-. apply Inv.
  - unfold submitEncryptedLoan in Hx. guards Hx. injection Hx as <-. cbn.
    destruct (decide (loanCount s + 1 = i)) as [<-|Hne].
    + by rewrite sload_insert_eq.
    + rewrite !sload_insert_ne by done. apply Inv.
  - rewrite calculateAmortization_cases in Hx.
    destruct (negb _); [discriminate|].
    destruct (isCalculated _); [discriminate|].
    injection Hx as <-. cbn.
    destruct (decide (loanId = i)) as [<-|Hne].
    + by rewrite sload_insert_eq.
    + rewrite sload_insert_ne by done. apply Inv.
  - rewrite requestScheduleDecryption_cases in Hx.
    destruct (negb _); [discriminate|].
    destruct (isRevealed _); [discriminate|].
    destruct (negb _); [discriminate|].
    injection Hx as <-. apply Inv.
  - apply decryptAmortizationSchedule_Ok in Hx
      as (_ & Hcalc & _ & _ & mp & ti & pt & _ & ->). cbn.
    destruct (decide (sload (requestToLoanId s) requestId = i)) as [<-|Hne].
    + done.
    + rewrite sload_insert_ne by done. apply Inv.
  - unfold protectFinancialPrivacy in Hx. guards Hx. injection Hx as <-. apply Inv.
Qed.

(** A revealed schedule is a calculated one. *)
Lemma reachable_revealed_calculated s :
  reachable s ->
  forall i, isRevealed (sload (decryptedSchedules s) i) = true ->
            isCalculated (sload (amortizationSchedules s) i) = true.
Proof.
  induction 1 as [admin | s sender c _ IH].
  - intros i. cbn. by rewrite sload_empty.
  - by apply transact_revealed_calculated.
Qed.

Lemma reachable_loanCount s : reachable s -> 0 <= loanCount s.
Proof.
  induction 1 as [admin | s sender c _ IH]; [done|].
  pose proof (transact_loanCount sender c s). lia.
Qed.

(** Once revealed, the plaintext of a loan whose id is assigned is never
    written again. *)
Lemma transact_keeps_plaintext sender c s loanId :
  loanId <= loanCount s ->
  isRevealed (sload (decryptedSchedules s) loanId) = true ->
  sload (decryptedSchedules (transact sender c s)) loanId
  = sload (decryptedSchedules s) loanId.
Proof.
  intros Hid Hrev. unfold transact.
  destruct (execute sender c s) as [s'|e] eqn:Hx; [|done].
  destruct c; cbn [execute] in Hx.
  - unfold authorizeAdvisor in Hx. guards Hx. by injection Hx as <-.
  - unfold submitEncryptedLoan in Hx. guards Hx. injection Hx as <-. cbn.
    apply sload_insert_ne. lia.
  - rewrite calculateAmortization_cases in Hx.
    destruct (negb _); [discriminate|].
    destruct (isCalculated _); [discriminate|].
    by injection Hx as <-.
  - rewrite requestScheduleDecryption_cases in Hx.
    destruct (negb _); [discriminate|].
    destruct (isRevealed (sload (decryptedSchedules s) loanId0));
      [discriminate|].
    destruct (negb _); [discriminate|].
    by injection Hx as <-.
  - apply decryptAmortizationSchedule_Ok in Hx
      as (_ & _ & Hnot & _ & mp & ti & pt & _ & ->). cbn.
    apply sload_insert_ne. intros Heq. rewrite Heq in Hnot. congruence.
  - unfold protectFinancialPrivacy in Hx. guards Hx. by injection Hx as <-.
Qed.

Lemma run_keeps_plaintext txs s loanId :
  loanId <= loanCount s ->
  isRevealed (sload (decryptedSchedules s) loanId) = true ->
  sload (decryptedSchedules (run txs s)) loanId
  = sload (decryptedSchedules s) loanId.
Proof.
  revert s. induction txs as [|[a c] txs IH]; intros s Hid Hrev; [done|].
  rewrite run_cons. cbn [fst snd].
  pose proof (transact_loanCount a c s) as Hmono.
  pose proof (transact_keeps_plaintext a c s loanId Hid Hrev) as Hkeep.
  rewrite IH; [done | lia | by rewrite Hkeep].
Qed.

(** C5.  [requestScheduleDecryption] reverts with [Unauthorized] when the
    caller is not the loan's borrower, and the state is then as it was; with
    [NotCalculated] when the borrower calls before the schedule is computed;
    with [AlreadyRevealed] when the borrower calls after the schedule was
    revealed, in particular after a request for that loan was resolved. *)
Theorem requestScheduleDecryption_preconditions s sender loanId :
  (borrower (sload (encryptedLoans s) loanId) <> sender ->
   requestScheduleDecryption sender loanId s = Revert Unauthorized
   /\ transact sender (RequestScheduleDecryption loanId) s = s)
  /\ (reachable s ->
      borrower (sload (encryptedLoans s) loanId) = sender ->
      isCalculated (sload (amortizationSchedules s) loanId) = false ->
      requestScheduleDecryption sender loanId s = Revert NotCalculated)
  /\ (borrower (sload (encryptedLoans s) loanId) = sender ->
      isRevealed (sload (decryptedSchedules s) loanId) = true ->
      requestScheduleDecryption sender loanId s = Revert AlreadyRevealed)
  /\ (forall oracle requestId ct pf s',
        sload (requestToLoanId s) requestId = loanId ->
        borrower (sload (encryptedLoans s) loanId) = sender ->
        decryptAmortizationSchedule oracle requestId ct pf s = Ok s' ->
        requestScheduleDecryption sender loanId s' = Revert AlreadyRevealed).
Proof.
  split; [|split; [|split]].
  - intros Hne.
    assert (Hx : requestScheduleDecryption sender loanId s = Revert Unauthorized).
    { rewrite requestScheduleDecryption_cases.
      by destruct (Z.eqb_spec (borrower (sload (encryptedLoans s) loanId)) sender). }
    split; [done|].
    by apply (transact_revert sender (RequestScheduleDecryption loanId) s _ Hx).
  - intros Hr Hb Hc. rewrite requestScheduleDecryption_cases.
    destruct (Z.eqb_spec (borrower (sload (encryptedLoans s) loanId)) sender);
      [cbn [negb] | done].
    destruct (isRevealed (sload (decryptedSchedules s) loanId)) eqn:Hrev.
    + apply (reachable_revealed_calculated s Hr) in Hrev. congruence.
    + by rewrite Hc.
  - intros Hb Hrev. rewrite requestScheduleDecryption_cases.
    destruct (Z.eqb_spec (borrower (sload (encryptedLoans s) loanId)) sender);
      [cbn [negb] | done].
    by rewrite Hrev.
  - intros oracle requestId ct pf s' Hreq Hb Hok.
    apply decryptAmortizationSchedule_Ok in Hok
      as (_ & _ & _ & _ & mp & ti & pt & _ & ->).
    rewrite Hreq. rewrite requestScheduleDecryption_cases. cbn.
    destruct (Z.eqb_spec (borrower (sload (encryptedLoans s) loanId)) sender);
      [cbn [negb] | done].
    by rewrite sload_insert_eq.
Qed.

(** C6 (amended).  A [requestId] that was never issued reverts with
    [UnknownRequest]; one that was already resolved reverts with
    [AlreadyRevealed]; either way the state is as it was. *)
Theorem resolve_unknown_or_resolved s sender requestId ct pf :
  (requestToLoanId s !! requestId = None ->
   decryptAmortizationSchedule sender requestId ct pf s = Revert UnknownRequest
   /\ transact sender (DecryptAmortizationSchedule requestId ct pf) s = s)
  /\ (reachable s ->
      sload (requestToLoanId s) requestId <> 0 ->
      isRevealed (sload (decryptedSchedules s)
                    (sload (requestToLoanId s) requestId)) = true ->
      decryptAmortizationSchedule sender requestId ct pf s = Revert AlreadyRevealed
      /\ transact sender (DecryptAmortizationSchedule requestId ct pf) s = s).
Proof.
  split.
  - intros Hnone.
    assert (Hx : decryptAmortizationSchedule sender requestId ct pf s
                 = Revert UnknownRequest).
    { assert (Hz : sload (requestToLoanId s) requestId = 0)
        by (unfold sload; by rewrite Hnone).
      rewrite decryptAmortizationSchedule_cases. cbn zeta. by rewrite Hz. }
    split; [done|].
    by apply (transact_revert sender
                (DecryptAmortizationSchedule requestId ct pf) s _ Hx).
  - intros Hr Hid Hrev.
    assert (Hx : decryptAmortizationSchedule sender requestId ct pf s
                 = Revert AlreadyRevealed).
    { rewrite decryptAmortizationSchedule_cases. cbn zeta.
      destruct (Z.eqb_spec (sload (requestToLoanId s) requestId) 0); [done|].
      rewrite (reachable_revealed_calculated s Hr _ Hrev). cbn [negb].
      by rewrite Hrev. }
    split; [done|].
    by apply (transact_revert sender
                (DecryptAmortizationSchedule requestId ct pf) s _ Hx).
Qed.

(** *** Loan ids that were never assigned *)

Lemma run_loanCount txs s : loanCount s <= loanCount (run txs s).
Proof.
  revert s. induction txs as [|[a c] txs IH]; intros s; [cbn; lia|].
  rewrite run_cons. cbn [fst snd].
  pose proof (transact_loanCount a c s). specialize (IH (transact a c s)). lia.
Qed.

Lemma run_keeps_schedule_unless_assigned txs s loanId :
  loanId <= loanCount s \/ loanCount (run txs s) < loanId ->
  isCalculated (sload (amortizationSchedules s) loanId) = true ->
  sload (amortizationSchedules (run txs s)) loanId
  = sload (amortizationSchedules s) loanId.
Proof.
  revert s. induction txs as [|[a c] txs IH]; intros s Hid Hc; [done|].
  rewrite run_cons in Hid |- *. cbn [fst snd] in Hid |- *.
  pose proof (transact_loanCount a c s) as Hmono.
  pose proof (run_loanCount txs (transact a c s)) as Hrun.
  assert (Hkeep : sload (amortizationSchedules (transact a c s)) loanId
                  = sload (amortizationSchedules s) loanId).
  { apply transact_keeps_schedule_unless_assigned; [lia | done]. }
  rewrite IH; [done | lia | by rewrite Hkeep].
Qed.

Lemma transact_unassigned sender c s :
  0 <= loanCount s ->
  (forall i, i < 1 \/ loanCount s < i -> encryptedLoans s !! i = None) ->
  forall i, i < 1 \/ loanCount (transact sender c s) < i ->
            encryptedLoans (transact sender c s) !! i = None.
Proof.
  intros Hn Inv i. pose proof (transact_loanCount sender c s) as Hmono.
  unfold transact in *.
  destruct (execute sender c s) as [s'|e] eqn:Hx; [|apply Inv].
  destruct c; cbn [execute] in Hx.
  - unfold authorizeAdvisor in Hx. guards Hx. injection Hx as <-. apply Inv.
  - unfold submitEncryptedLoan in Hx. guards Hx. injection Hx as <-.
    cbn. intros Hi. rewrite lookup_insert_ne by lia. apply Inv. lia.
  - rewrite calculateAmortization_cases in Hx.
    destruct (negb _); [discriminate|].
    destruct (isCalculated _); [discriminate|].
    injection Hx as <-. apply Inv.
  - rewrite requestScheduleDecryption_cases in Hx.
    destruct (negb _); [discriminate|].
    destruct (isRevealed _); [discriminate|].
    destruct (negb _); [discriminate|].
    injection Hx as <-. apply Inv.
  - apply decryptAmortizationSchedule_Ok in Hx
      as (_ & _ & _ & _ & mp & ti & pt & _ & ->). apply Inv.
  - unfold protectFinancialPrivacy in Hx. guards Hx. injection Hx as <-. apply Inv.
Qed.

(** The loan record of an id that [submitEncryptedLoan] never assigned was
    never written. *)
Lemma reachable_unassigned s :
  reachable s ->
  forall i, i < 1 \/ loanCount s < i -> encryptedLoans s !! i = None.
Proof.
  induction 1 as [admin | s sender c Hr IH]; [done|].
  apply transact_unassigned; [by apply reachable_loanCount | done].
Qed.

(** C10 (amended).  [calculateAmortization] does not check that the loan
    exists.  For a loan id that [submitEncryptedLoan] never assigned (zero, or
    above [loanCount]) and whose schedule is not marked, the guard passes, an
    advisor's call goes through, computes over the zero handles of the
    unwritten loan record and marks the schedule calculated.  The mark and
    the three handles stay through any later transactions as long as the id
    is not assigned; zero is never assigned. *)
Theorem calculateAmortization_phantom s sender loanId :
  reachable s ->
  loanId < 1 \/ loanCount s < loanId ->
  sload (financialAdvisors s) sender = true ->
  isCalculated (sload (amortizationSchedules s) loanId) = false ->
  encryptedLoans s !! loanId = None
  /\ exists s',
       calculateAmortization sender loanId s = Ok s'
       /\ sload (amortizationSchedules s') loanId = amortize zero_value
       /\ isCalculated (sload (amortizationSchedules s') loanId) = true
       /\ forall txs,
            loanId < 1 \/ loanCount (run txs s') < loanId ->
            sload (amortizationSchedules (run txs s')) loanId
            = amortize zero_value.
Proof.
  intros Hr Hid Hadv Hc.
  pose proof (reachable_unassigned s Hr loanId Hid) as Hnone.
  pose proof (reachable_loanCount s Hr) as Hn.
  split; [done|].
  eexists. rewrite calculateAmortization_cases, Hadv, Hc. cbn [negb].
  split; [reflexivity|].
  assert (Hs : sload
                 (amortizationSchedules
                    (emit (ScheduleCalculated loanId)
                       (set_amortizationSchedule loanId
                          (amortize (sload (encryptedLoans s) loanId)) s)))
                 loanId = amortize zero_value).
  { cbn. rewrite sload_insert_eq. unfold sload at 1. by rewrite Hnone. }
  split; [done|]. split; [by rewrite Hs|].
  intros txs Hlater.
  rewrite run_keeps_schedule_unless_assigned; [done | | by rewrite Hs].
  destruct Hlater as [Hz|Hlater]; [left; cbn; lia | by right].
Qed.

(** *** With the engine's operational contract *)

Section WithSemantics.
Context {Sem : EngineSemantics E}.

Lemma transact_pending_three sender c s :
  (forall r cts, pending (fhe s) r = Some cts -> length cts = 3%nat) ->
  forall r cts, pending (fhe (transact sender c s)) r = Some cts ->
                length cts = 3%nat.
Proof.
  intros Inv r cts. unfold transact.
  destruct (execute sender c s) as [s'|e] eqn:Hx; [|apply Inv].
  destruct c; cbn [execute] in Hx.
  - unfold authorizeAdvisor in Hx. guards Hx. injection Hx as <-. apply Inv.
  - unfold submitEncryptedLoan in Hx. guards Hx. injection Hx as <-. apply Inv.
  - rewrite calculateAmortization_cases in Hx.
    destruct (negb _); [discriminate|].
    destruct (isCalculated _); [discriminate|].
    injection Hx as <-. apply Inv.
  - rewrite requestScheduleDecryption_cases in Hx.
    destruct (negb _); [discriminate|].
    destruct (isRevealed _); [discriminate|].
    destruct (negb _); [discriminate|].
    cbn zeta in Hx. injection Hx as <-. cbn [fhe set_request].
    match goal with
    | |- context [FHE_requestDecryption ?o ?l] =>
        destruct (FHE_requestDecryption o l) as [r0 o'] eqn:Hreq
    end.
    apply request_recorded in Hreq as [Hnew Hold]. cbn [snd].
    destruct (decide (r = r0)) as [->|Hne].
    + rewrite Hnew. by intros [= <-].
    + rewrite Hold by done. apply Inv.
  - apply decryptAmortizationSchedule_Ok in Hx
      as (_ & _ & _ & _ & mp & ti & pt & _ & ->). apply Inv.
  - unfold protectFinancialPrivacy in Hx. guards Hx. injection Hx as <-. apply Inv.
Qed.

(** Every request on record is for the three handles of a schedule. *)
Lemma reachable_pending_three s :
  reachable s ->
  forall r cts, pending (fhe s) r = Some cts -> length cts = 3%nat.
Proof.
  induction 1 as [admin | s sender c _ IH].
  - intros r cts. cbn. by rewrite pending_init.
  - by apply transact_pending_three.
Qed.

(** Cleartexts the oracle's proof is accepted for decode, to the plaintexts
    of the three handles on record. *)
Lemma accepted_cleartexts_decode s requestId ct pf :
  reachable s ->
  FHE_checkSignatures (fhe s) requestId ct pf = true ->
  exists a b c,
    pending (fhe s) requestId = Some [a; b; c]
    /\ abi_decode_uint32x3 ct = Some (dec a, dec b, dec c).
Proof.
  intros Hr Hacc. apply check_sound in Hacc as (cts & Hp & ->).
  pose proof (reachable_pending_three s Hr _ _ Hp) as Hlen.
  destruct cts as [|a [|b [|c [|? ?]]]]; try discriminate.
  exists a, b, c. split; [done|].
  cbn [map]. apply abi_decode_encode; apply dec_range.
Qed.

(** C9.  [decryptAmortizationSchedule] does not look at its caller: any two
    addresses get the same result.  In a reachable state the call goes
    through exactly when the request id maps to a loan, the schedule is
    calculated, the result is not yet revealed, and [FHE.checkSignatures]
    accepts the request id, cleartexts and proof. *)
Theorem resolve_open_to_any_caller s requestId ct pf :
  reachable s ->
  (forall a b,
     decryptAmortizationSchedule a requestId ct pf s
     = decryptAmortizationSchedule b requestId ct pf s)
  /\ forall sender,
       succeeds (decryptAmortizationSchedule sender requestId ct pf s) = true
       <-> (sload (requestToLoanId s) requestId <> 0
            /\ isCalculated (sload (amortizationSchedules s)
                               (sload (requestToLoanId s) requestId)) = true
            /\ isRevealed (sload (decryptedSchedules s)
                              (sload (requestToLoanId s) requestId)) = false
            /\ FHE_checkSignatures (fhe s) requestId ct pf = true).
Proof.
  intros Hr. split.
  - intros a b. by rewrite !decryptAmortizationSchedule_cases.
  - intros sender. split.
    + destruct (decryptAmortizationSchedule sender requestId ct pf s)
        as [s'|e] eqn:Hx; [intros _ | discriminate].
      apply decryptAmortizationSchedule_Ok in Hx as (? & ? & ? & ? & _). done.
    + intros (Hid & Hc & Hrev & Hacc).
      destruct (accepted_cleartexts_decode s requestId ct pf Hr Hacc)
        as (a & b & c & _ & Hdec).
      rewrite decryptAmortizationSchedule_cases. cbn zeta.
      destruct (Z.eqb_spec (sload (requestToLoanId s) requestId) 0); [done|].
      by rewrite Hc, Hrev, Hacc, Hdec.
Qed.

(** C7.  When the proof is not accepted the call reverts with
    [InvalidProof] and the state, the pending request included, is as it was;
    a later call for the same request id with cleartexts and proof that are
    accepted goes through and reveals the schedule. *)
Theorem invalid_proof_recoverable s sender requestId ct pf :
  reachable s ->
  sload (requestToLoanId s) requestId <> 0 ->
  isCalculated (sload (amortizationSchedules s)
                  (sload (requestToLoanId s) requestId)) = true ->
  isRevealed (sload (decryptedSchedules s)
                (sload (requestToLoanId s) requestId)) = false ->
  FHE_checkSignatures (fhe s) requestId ct pf = false ->
  decryptAmortizationSchedule sender requestId ct pf s = Revert InvalidProof
  /\ transact sender (DecryptAmortizationSchedule requestId ct pf) s = s
  /\ forall sender' ct' pf',
       FHE_checkSignatures (fhe s) requestId ct' pf' = true ->
       exists s',
         decryptAmortizationSchedule sender' requestId ct' pf'
           (transact sender (DecryptAmortizationSchedule requestId ct pf) s)
         = Ok s'
         /\ isRevealed (sload (decryptedSchedules s')
                          (sload (requestToLoanId s) requestId)) = true.
Proof.
  intros Hr Hid Hc Hrev Hbad.
  assert (Hx : decryptAmortizationSchedule sender requestId ct pf s
               = Revert InvalidProof).
  { rewrite decryptAmortizationSchedule_cases. cbn zeta.
    destruct (Z.eqb_spec (sload (requestToLoanId s) requestId) 0); [done|].
    by rewrite Hc, Hrev, Hbad. }
  assert (Hs : transact sender (DecryptAmortizationSchedule requestId ct pf) s = s)
    by apply (transact_revert sender
                (DecryptAmortizationSchedule requestId ct pf) s _ Hx).
  split; [done|]. split; [done|].
  intros sender' ct' pf' Hacc. rewrite Hs.
  destruct (accepted_cleartexts_decode s requestId ct' pf' Hr Hacc)
    as (a & b & c & _ & Hdec).
  eexists. rewrite decryptAmortizationSchedule_cases. cbn zeta.
  destruct (Z.eqb_spec (sload (requestToLoanId s) requestId) 0); [done|].
  rewrite Hc, Hrev, Hacc, Hdec. cbn [negb]. split; [reflexivity|].
  cbn. by rewrite sload_insert_eq.
Qed.

(** *** The end-to-end scenario *)

Lemma reachable_run txs s : reachable s -> reachable (run txs s).
Proof.
  revert s. induction txs as [|[a c] txs IH]; intros s Hr; [done|].
  rewrite run_cons. apply IH. by apply reach_transact.
Qed.

Lemma wrap32_small v : 0 <= v <= MAX_UINT32 -> wrap32 v = v.
Proof. intros Hv. unfold wrap32. apply Z.mod_small. unfold MAX_UINT32 in Hv. lia. Qed.

(** Whenever the annual rate is below 1200, the monthly rate [rate / 1200]
    is zero, numerator and denominator of the payment are both zero, and the
    monthly payment is what the engine answers for a division by zero. *)
Lemma amortize_divides_by_zero (loan : EncryptedLoan) :
  dec (encryptedInterestRate loan) < 1200 ->
  dec (encryptedTerm loan) <= POW_EXPONENT_BOUND ->
  dec (encryptedMonthlyPayment (amortize loan)) = div_by_zero.
Proof.
  intros Hrate Hterm.
  pose proof (dec_range (encryptedInterestRate loan)) as Hr.
  pose proof (dec_range (encryptedTerm loan)) as Ht.
  cbn [amortize encryptedMonthlyPayment].
  assert (Hmr : dec (FHE_div (encryptedInterestRate loan) (FHE_asEuint32 1200)) = 0).
  { rewrite dec_div, dec_asEuint32. change (wrap32 1200) with 1200.
    cbn [Z.eqb]. apply Z.div_small. lia. }
  assert (Hone : dec (FHE_add (FHE_asEuint32 1)
                        (FHE_div (encryptedInterestRate loan) (FHE_asEuint32 1200)))
                 = 1).
  { rewrite dec_add, dec_asEuint32, Hmr. reflexivity. }
  assert (Hpow : dec (FHE_pow
                        (FHE_add (FHE_asEuint32 1)
                           (FHE_div (encryptedInterestRate loan) (FHE_asEuint32 1200)))
                        (encryptedTerm loan)) = 1).
  { rewrite dec_pow by done. rewrite Hone, Z.pow_1_l by lia. reflexivity. }
  rewrite dec_div, dec_sub, Hpow, dec_asEuint32. reflexivity.
Qed.

(** The state the scenario ends in, field by field. *)
Lemma scenario_state admin advisor who now principal rate term extra :
  let loan :=
    {| loan_id := 1; borrower := who; encryptedPrincipal := principal;
       encryptedInterestRate := rate; encryptedTerm := term;
       encryptedExtraPayment := extra; timestamp := now |} in
  let S := scenario admin advisor who now principal rate term extra in
  let r := scenario_request admin advisor who now principal rate term extra in
  reachable S
  /\ sload (requestToLoanId S) r = 1
  /\ sload (amortizationSchedules S) 1 = amortize loan
  /\ isRevealed (sload (decryptedSchedules S) 1) = false
  /\ pending (fhe S) r
     = Some [ encryptedMonthlyPayment (amortize loan);
              encryptedTotalInterest (amortize loan);
              encryptedPayoffTime (amortize loan) ].
Proof.
  intros loan S r.
  split; [apply reachable_run, reach_deploy|].
  set (s0 := constructor admin).
  set (s1 := set_financialAdvisor advisor true s0).
  assert (H1 : transact admin (AuthorizeAdvisor advisor) s0 = s1).
  { apply transact_ok. cbn [execute]. unfold authorizeAdvisor, onlyAdmin.
    cbn [platformAdmin s0 constructor]. by rewrite Z.eqb_refl. }
  assert (E2 : exists s2,
            transact who (SubmitEncryptedLoan now principal rate term extra) s1 = s2
            /\ loanCount s2 = 1
            /\ sload (encryptedLoans s2) 1 = loan
            /\ sload (amortizationSchedules s2) 1
               = {| encryptedMonthlyPayment := FHE_asEuint32 0;
                    encryptedTotalInterest := FHE_asEuint32 0;
                    encryptedPayoffTime := FHE_asEuint32 0;
                    isCalculated := false |}
            /\ sload (decryptedSchedules s2) 1 = zero_value
            /\ financialAdvisors s2 = financialAdvisors s1
            /\ fhe s2 = no_requests).
  { eexists. split; [apply transact_ok; cbn [execute]; reflexivity|].
    cbn. rewrite !sload_insert_eq. done. }
  destruct E2 as (s2 & H2 & Hn2 & Hl2 & Ha2 & Hd2 & Hf2 & Ho2).
  set (s3 := emit (ScheduleCalculated 1)
               (set_amortizationSchedule 1 (amortize loan) s2)).
  assert (H3 : transact advisor (CalculateAmortization 1) s2 = s3).
  { apply transact_ok. cbn [execute].
    rewrite calculateAmortization_cases, Hf2, Ha2, Hl2.
    cbn [financialAdvisors s1 set_financialAdvisor isCalculated].
    by rewrite sload_insert_eq. }
  assert (Hs3 : sload (amortizationSchedules s3) 1 = amortize loan)
    by (cbn; by rewrite sload_insert_eq).
  destruct (FHE_requestDecryption (fhe s3)
              [ FHE_toBytes32 (encryptedMonthlyPayment (amortize loan));
                FHE_toBytes32 (encryptedTotalInterest (amortize loan));
                FHE_toBytes32 (encryptedPayoffTime (amortize loan)) ])
    as [r0 o'] eqn:Hreq.
  assert (H4 : transact who (RequestScheduleDecryption 1) s3
               = set_request r0 1 o' s3).
  { apply transact_ok. cbn [execute].
    rewrite requestScheduleDecryption_cases, Hs3.
    cbn [encryptedLoans decryptedSchedules s3 emit set_amortizationSchedule].
    rewrite Hl2, Hd2. cbn [borrower loan isRevealed zero_value
                             DecryptedSchedule_zero isCalculated amortize negb].
    rewrite Z.eqb_refl. cbn [negb]. cbv zeta. by rewrite Hreq. }
  assert (HS : S = set_request r0 1 o' s3).
  { unfold S, scenario, run. cbn [fold_left fst snd].
    fold s0. by rewrite H1, H2, H3, H4. }
  assert (Hr : r = r0).
  { unfold r, scenario_request, run. cbn [fold_left fst snd].
    fold s0. rewrite H1, H2, H3, Hs3. cbv zeta. by rewrite Hreq. }
  rewrite HS, Hr. cbn [requestToLoanId amortizationSchedules decryptedSchedules
                        fhe set_request].
  rewrite sload_insert_eq.
  apply request_recorded in Hreq as [Hnew _].
  repeat split; try done.
  cbn [decryptedSchedules s3 emit set_amortizationSchedule]. by rewrite Hd2.
Qed.

(** C2 (what the code does in the scenario).  Submit a loan whose rate is
    below 1200 (500 in the specification's scenario) and whose term is within
    the engine's bound (36), calculate, request decryption and resolve with an
    accepted proof: the callback goes through, [isRevealed] is set, and the
    revealed [monthlyPayment] is the engine's answer to a division by zero,
    whatever the principal. *)
Theorem scenario_reveals_division_by_zero
    admin advisor who now principal rate term extra oracle ct pf :
  dec rate < 1200 ->
  dec term <= POW_EXPONENT_BOUND ->
  FHE_checkSignatures
    (fhe (scenario admin advisor who now principal rate term extra))
    (scenario_request admin advisor who now principal rate term extra)
    ct pf = true ->
  exists s',
    decryptAmortizationSchedule oracle
      (scenario_request admin advisor who now principal rate term extra)
      ct pf (scenario admin advisor who now principal rate term extra) = Ok s'
    /\ isRevealed (sload (decryptedSchedules s') 1) = true
    /\ monthlyPayment (sload (decryptedSchedules s') 1) = div_by_zero.
Proof.
  intros Hrate Hterm Hacc.
  destruct (scenario_state admin advisor who now principal rate term extra)
    as (Hreach & Hid & Hsched & Hrev & Hpend).
  destruct (accepted_cleartexts_decode _ _ _ _ Hreach Hacc)
    as (a & b & c & Hp & Hdec).
  rewrite Hpend in Hp. injection Hp as <- <- <-.
  eexists. rewrite decryptAmortizationSchedule_cases. cbn zeta.
  rewrite Hid, Hsched, Hrev, Hacc, Hdec.
  cbn [Z.eqb isCalculated amortize negb]. split; [reflexivity|].
  cbn [decryptedSchedules emit set_decryptedSchedule].
  rewrite sload_insert_eq. cbn [isRevealed monthlyPayment].
  split; [done|].
  by apply (amortize_divides_by_zero
              {| loan_id := 1; borrower := who; encryptedPrincipal := principal;
                 encryptedInterestRate := rate; encryptedTerm := term;
                 encryptedExtraPayment := extra; timestamp := now |}).
Qed.

End WithSemantics.

End ContractProperties.

(** ** The reference engine meets the operational contract *)

Module RefFacts.

Lemma wrap32_range v : 0 <= wrap32 v <= MAX_UINT32.
Proof.
  unfold wrap32, MAX_UINT32.
  pose proof (Z.mod_pos_bound v (2 ^ 32) ltac:(lia)). lia.
Qed.

Lemma wrap32_idem v : wrap32 (wrap32 v) = wrap32 v.
Proof. unfold wrap32. apply Z.mod_mod. lia. Qed.

Lemma wrap32_id v : 0 <= v <= MAX_UINT32 -> wrap32 v = v.
Proof. intros Hv. unfold wrap32. apply Z.mod_small. unfold MAX_UINT32 in Hv. lia. Qed.

Lemma ref_div_dec a b :
  wrap32 (Ref.div a b)
  = if wrap32 b =? 0 then MAX_UINT32 else wrap32 a / wrap32 b.
Proof.
  unfold Ref.div. pose proof (wrap32_range a) as Ha.
  pose proof (wrap32_range b) as Hb.
  destruct (Z.eqb_spec (wrap32 b) 0) as [|Hnz].
  - apply wrap32_id. unfold MAX_UINT32. lia.
  - apply wrap32_id. split.
    + apply Z.div_pos; lia.
    + assert (wrap32 a / wrap32 b <= wrap32 a); [|lia].
      apply Z.div_le_upper_bound; nia.
Qed.

Lemma lookup_request_nil r : Ref.lookup_request [] r = None.
Proof.
  unfold Ref.lookup_request. destruct (r <? 0); [done|].
  by destruct (Z.to_nat r).
Qed.

Lemma ref_request_recorded (o : Ref.requests) cts r o' :
  Ref.requestDecryption o cts = (r, o') ->
  Ref.lookup_request o' r = Some cts
  /\ forall r', r' <> r -> Ref.lookup_request o' r' = Ref.lookup_request o r'.
Proof.
  unfold Ref.requestDecryption. intros [= <- <-]. unfold Ref.lookup_request.
  split.
  - destruct (Z.ltb_spec (Z.of_nat (length o)) 0); [lia|].
    rewrite Nat2Z.id, nth_error_app2 by lia. by rewrite Nat.sub_diag.
  - intros r' Hne. destruct (Z.ltb_spec r' 0); [done|].
    destruct (Nat.lt_ge_cases (Z.to_nat r') (length o)) as [Hlt|Hge].
    + by rewrite nth_error_app1.
    + assert (Hgt : (length o < Z.to_nat r')%nat) by lia.
      rewrite (proj2 (nth_error_None o (Z.to_nat r'))) by lia.
      apply nth_error_None. rewrite length_app. cbn. lia.
Qed.

Lemma ref_check_sound (o : Ref.requests) r ct pf :
  Ref.checkSignatures o r ct pf = true ->
  exists cts, Ref.lookup_request o r = Some cts
              /\ ct = abi_encode (map wrap32 cts).
Proof.
  unfold Ref.checkSignatures.
  destruct (Ref.lookup_request o r) as [cts|]; [|discriminate].
  intros [Hct _]%andb_prop. exists cts. split; [done|].
  by apply bytes_eqb_eq.
Qed.

#[export] Instance semantics : EngineSemantics Ref.engine := {|
  dec := wrap32;
  div_by_zero := MAX_UINT32;
  pending := (Ref.lookup_request
              : DecryptionRequests (FHEEngine := Ref.engine) -> Z -> option (list Z));
  dec_range := wrap32_range;
  dec_asEuint32 := fun v => wrap32_idem v;
  dec_add := fun a b => wrap32_idem (wrap32 a + wrap32 b);
  dec_sub := fun a b => wrap32_idem (wrap32 a - wrap32 b);
  dec_mul := fun a b => wrap32_idem (wrap32 a * wrap32 b);
  dec_div := ref_div_dec;
  dec_pow := fun a b _ => wrap32_idem (wrap32 a ^ wrap32 b);
  pending_init := lookup_request_nil;
  request_recorded := ref_request_recorded;
  check_sound := ref_check_sound;
|}.

End RefFacts.

(** ** The planner UI *)

Section PlannerProperties.

Variable JSON_stringify : UI.json -> string.
Variable JSON_parse : string -> option UI.json.
Variable toUtf8Bytes : string -> bytes.
Variable toUtf8String : bytes -> option string.
Variable btoa : string -> option string.
Variable parseInt : string -> option Z.
Variable Number_toString : Z -> string.

Local Abbreviation submitSchedule :=
  (UI.submitSchedule JSON_stringify JSON_parse toUtf8Bytes toUtf8String btoa
                     parseInt Number_toString).
Local Abbreviation scheduleId := (UI.scheduleId Number_toString).
Local Abbreviation stored_keys := (UI.stored_keys JSON_parse toUtf8String).
Local Abbreviation holds_record := (UI.holds_record JSON_stringify toUtf8Bytes).
Local Abbreviation holds_index := (UI.holds_index JSON_stringify toUtf8Bytes).
Local Abbreviation index_sound := (UI.index_sound JSON_stringify toUtf8Bytes).
Local Abbreviation submissions :=
  (UI.submissions JSON_stringify JSON_parse toUtf8Bytes toUtf8String btoa
                  parseInt Number_toString).
Local Abbreviation reads_back :=
  (Schedules.reads_back JSON_stringify JSON_parse toUtf8Bytes toUtf8String).
Local Abbreviation keys_written := (UI.keys_written JSON_stringify toUtf8Bytes).

(** A schedule id has a dash in it, so it is never the word [keys]. *)
Lemma dashed_not_keys (x r : string) : (x ++ "-" ++ r)%string <> "keys"%string.
Proof.
  destruct x as [|c1 [|c2 [|c3 [|c4 [|c5 x]]]]]; cbn; intros H; discriminate H.
Qed.

Lemma schedule_key_inj a b : UI.schedule_key a = UI.schedule_key b -> a = b.
Proof. unfold UI.schedule_key. cbn. intros H. by injection H. Qed.

Lemma schedule_key_not_index id :
  id <> "keys"%string -> UI.schedule_key id <> "schedule_keys"%string.
Proof.
  intros Hne Heq. apply Hne.
  by apply (schedule_key_inj id "keys").
Qed.

Lemma stored_keys_setData id value (st : gmap string (list byte)) :
  id <> "keys"%string ->
  stored_keys (UI.setData (UI.schedule_key id) value st) = stored_keys st.
Proof.
  intros Hne. unfold UI.stored_keys, UI.getData, UI.setData.
  rewrite lookup_insert_ne; [done|]. by apply schedule_key_not_index.
Qed.

(** The store a submission that goes through leaves. *)
Lemma submitSchedule_Submitted_shape env account f
    (st st' : gmap string (list byte)) :
  submitSchedule env account f st = (UI.Submitted, st') ->
  exists b64 keys,
    btoa (JSON_stringify (UI.form_json f)) = Some b64
    /\ stored_keys st = Some keys
    /\ st' = UI.setData "schedule_keys"
               (toUtf8Bytes (JSON_stringify
                  (UI.JArr (keys ++ [UI.JStr (scheduleId env)]))))
               (UI.setData (UI.schedule_key (scheduleId env))
                  (toUtf8Bytes (JSON_stringify
                     (UI.schedule_record (UI.JStr ("FHE-" ++ b64))
                        (UI.JNum (UI.date_now env / 1000))
                        (UI.JStr account)
                        (UI.JStr (UI.loanAmount f))
                        (UI.number_json (parseInt (UI.term f)))
                        (UI.JStr "pending"))))
                  st).
Proof.
  unfold UI.submitSchedule.
  destruct (UI.provider_connected env); cbn [negb]; [|discriminate].
  destruct (btoa _) as [b64|] eqn:Hb64; [|discriminate].
  destruct (UI.signer_available env); cbn [negb]; [|discriminate].
  destruct (UI.first_setData_ok env); cbn [negb]; [|discriminate].
  destruct (UI.getData_ok env); cbn [negb]; [|discriminate].
  assert (Hid : scheduleId env <> "keys"%string) by apply dashed_not_keys.
  rewrite stored_keys_setData by done.
  destruct (stored_keys st) as [keys|] eqn:Hkeys; [|discriminate].
  destruct (UI.second_setData_ok env); cbn [negb]; [|discriminate].
  intros [= <-]. by exists b64, keys.
Qed.

(** With a runtime in which an array of ids written to the store reads back
    as written, the index stays sound through any submissions, whether they
    go through or fail half-way, starting from the empty store. *)
Section ReadBack.

Hypothesis read_back : forall ids : list string,
  reads_back (UI.JArr (map UI.JStr ids)).

(** What [submitSchedule] reads off an index that holds the ids. *)
Lemma stored_keys_of_index (st : gmap string (list byte)) ids :
  holds_index st ids -> stored_keys st = Some (map UI.JStr ids).
Proof.
  unfold UI.holds_index, UI.stored_keys, UI.getData.
  destruct (st !! "schedule_keys"%string) as [value|];
    cbn [default from_option id].
  - intros ->. destruct (read_back ids) as [Hlen Hparse].
    apply Nat.ltb_lt in Hlen. by rewrite Hlen, Hparse.
  - by intros ->.
Qed.

(** A record that is written keeps the index and the records listed. *)
Lemma index_sound_record_written id fields (st : gmap string (list byte)) :
  id <> "keys"%string ->
  map fst fields = UI.record_fields ->
  index_sound st ->
  index_sound (UI.setData (UI.schedule_key id)
                 (toUtf8Bytes (JSON_stringify (UI.JObj fields))) st).
Proof.
  intros Hid Hfields (ids & Hidx & Hrecs). exists ids. split.
  - unfold UI.holds_index, UI.setData in *.
    rewrite lookup_insert_ne; [done|]. by apply schedule_key_not_index.
  - intros id' Hin. destruct (Hrecs id' Hin) as [Hne (fs & Hlook & Hfs)].
    split; [done|]. unfold UI.holds_record, UI.setData.
    change ("schedule_" ++ id')%string with (UI.schedule_key id').
    destruct (decide (id' = id)) as [->|Hdiff].
    + exists fields. by rewrite lookup_insert_eq.
    + exists fs. rewrite lookup_insert_ne; [done|].
      intros Heq. apply Hdiff. symmetry. by apply schedule_key_inj.
Qed.

(** The record and the index of a submission, written one after the other
    over a sound index. *)
Lemma index_sound_submitted id fields ids (st : gmap string (list byte)) :
  id <> "keys"%string ->
  map fst fields = UI.record_fields ->
  holds_index st ids ->
  (forall id', In id' ids -> id' <> "keys"%string /\ holds_record st id') ->
  holds_index
    (UI.setData "schedule_keys"
       (toUtf8Bytes (JSON_stringify (UI.JArr (map UI.JStr ids ++ [UI.JStr id]))))
       (UI.setData (UI.schedule_key id)
          (toUtf8Bytes (JSON_stringify (UI.JObj fields))) st))
    (ids ++ [id])
  /\ forall id', In id' (ids ++ [id]) ->
       id' <> "keys"%string
       /\ holds_record
            (UI.setData "schedule_keys"
               (toUtf8Bytes
                  (JSON_stringify (UI.JArr (map UI.JStr ids ++ [UI.JStr id]))))
               (UI.setData (UI.schedule_key id)
                  (toUtf8Bytes (JSON_stringify (UI.JObj fields))) st))
            id'.
Proof.
  intros Hid Hfields Hidx Hrecs. split.
  - unfold UI.holds_index, UI.setData. rewrite lookup_insert_eq.
    by rewrite map_app.
  - assert (Hsound : index_sound
                       (UI.setData (UI.schedule_key id)
                          (toUtf8Bytes (JSON_stringify (UI.JObj fields))) st)).
    { apply index_sound_record_written; [done..|]. by exists ids. }
    assert (Hkept : forall id', id' <> "keys"%string ->
              holds_record
                (UI.setData (UI.schedule_key id)
                   (toUtf8Bytes (JSON_stringify (UI.JObj fields))) st) id' ->
              holds_record
                (UI.setData "schedule_keys"
                   (toUtf8Bytes
                      (JSON_stringify
                         (UI.JArr (map UI.JStr ids ++ [UI.JStr id]))))
                   (UI.setData (UI.schedule_key id)
                      (toUtf8Bytes (JSON_stringify (UI.JObj fields))) st)) id').
    { intros id' Hne (fs & Hlook & Hfs). exists fs. split; [|done].
      unfold UI.setData at 1.
      change ("schedule_" ++ id')%string with (UI.schedule_key id') in *.
      rewrite lookup_insert_ne; [done|].
      apply not_eq_sym. by apply schedule_key_not_index. }
    intros id' [Hin|[<-|[]]]%in_app_or.
    + destruct (Hrecs id' Hin) as [Hne _]. split; [done|].
      apply Hkept; [done|].
      destruct (index_sound_record_written id fields st Hid Hfields)
        as (ids' & _ & _); [by exists ids|].
      destruct (Hrecs id' Hin) as [_ (fs & Hlook & Hfs)].
      unfold UI.holds_record, UI.setData.
      change ("schedule_" ++ id')%string with (UI.schedule_key id') in *.
      destruct (decide (id' = id)) as [->|Hdiff].
      * exists fields. by rewrite lookup_insert_eq.
      * exists fs. rewrite lookup_insert_ne; [done|].
        intros Heq. apply Hdiff. symmetry. by apply schedule_key_inj.
    + split; [done|]. apply Hkept; [done|].
      exists fields. split; [|done]. unfold UI.setData.
      change ("schedule_" ++ id)%string with (UI.schedule_key id).
      by rewrite lookup_insert_eq.
Qed.

Lemma submitSchedule_keeps_index_sound env account f
    (st : gmap string (list byte)) :
  index_sound st -> index_sound (snd (submitSchedule env account f st)).
Proof.
  intros Hst.
  assert (Hid : scheduleId env <> "keys"%string) by apply dashed_not_keys.
  unfold UI.submitSchedule.
  destruct (UI.provider_connected env); cbn [negb snd]; [|done].
  destruct (btoa _) as [b64|]; cbn [snd]; [|done].
  destruct (UI.signer_available env); cbn [negb snd]; [|done].
  destruct (UI.first_setData_ok env); cbn [negb snd]; [|done].
  assert (Hst1 : index_sound
                   (UI.setData (UI.schedule_key (scheduleId env))
                      (toUtf8Bytes (JSON_stringify
                         (UI.schedule_record (UI.JStr ("FHE-" ++ b64))
                            (UI.JNum (UI.date_now env / 1000))
                            (UI.JStr account) (UI.JStr (UI.loanAmount f))
                            (UI.number_json (parseInt (UI.term f)))
                            (UI.JStr "pending")))) st))
    by (by apply index_sound_record_written).
  destruct (UI.getData_ok env); cbn [negb snd]; [|done].
  rewrite stored_keys_setData by done.
  destruct Hst as (ids & Hidx & Hrecs).
  rewrite (stored_keys_of_index st ids Hidx).
  destruct (UI.second_setData_ok env); cbn [negb snd]; [|done].
  exists (ids ++ [scheduleId env]).
  by apply index_sound_submitted.
Qed.

Lemma submissions_keep_index_sound runs : index_sound (submissions runs ∅).
Proof.
  unfold UI.submissions.
  assert (H0 : index_sound ∅).
  { exists []. split; [|by intros id []].
    unfold UI.holds_index. by rewrite lookup_empty. }
  revert H0. generalize (∅ : gmap string (list byte)).
  induction runs as [|r runs IH]; intros st Hst; [done|].
  cbn [fold_left]. apply IH. by apply submitSchedule_keeps_index_sound.
Qed.


End ReadBack.

End PlannerProperties.

(** ** Runs on the reference engine *)

Lemma failure_Revert {A} (r : Result A) e : failure r = Some e -> r = Revert e.
Proof. destruct r; [discriminate | by intros [= ->]]. Qed.

Lemma reachable_authorized : reachable Example.authorized.
Proof. apply reach_transact, reach_deploy. Qed.

Lemma reachable_submitted : reachable Example.submitted.
Proof. apply (reachable_run _ Example.deployed), reach_deploy. Qed.

Lemma reachable_calculated : reachable Example.calculated.
Proof. apply reach_transact, reachable_submitted. Qed.

Lemma reachable_requested : reachable Example.requested.
Proof. apply reach_transact, reachable_calculated. Qed.

Lemma reachable_resolved : reachable Example.resolved.
Proof. apply reach_transact, reachable_requested. Qed.

(** The scenario of the specification, run: the schedule is revealed, with
    the largest 32-bit value as monthly payment. *)
Example scenario_run :
  getDecryptedSchedule Example.resolved 1 = (4294967295, 4294957260, 0, true).
Proof. vm_compute. reflexivity. Qed.

(** The closed form for principal 10000, rate 500 and term 36 lies between
    4166 and 4167. *)
Example closed_form_scenario :
  Qfloor (closed_form_annuity 10000 500 36) = 4166
  /\ Qceiling (closed_form_annuity 10000 500 36) = 4167.
Proof. split; vm_compute; reflexivity. Qed.

Example scenario_payment_is_no_rounding :
  ~ rounds_to (closed_form_annuity 10000 500 36)
      (monthlyPayment (sload (decryptedSchedules Example.resolved) 1)).
Proof.
  unfold rounds_to. destruct closed_form_scenario as [-> ->].
  replace (monthlyPayment (sload (decryptedSchedules Example.resolved) 1))
    with 4294967295 by (vm_compute; reflexivity).
  lia.
Qed.

(** C1, the failing input: on a submitted loan whose schedule is not
    calculated, [calculatePrepaymentRisk] returns a handle (here of
    500 * 100 / 10000) and does not revert. *)
Lemma prepayment_risk_without_schedule :
  isCalculated (sload (amortizationSchedules Example.with_extra) 1) = false
  /\ calculatePrepaymentRisk Example.with_extra 1 = Ok 5
  /\ analytic PrepaymentRisk Example.with_extra 1 <> Revert NotCalculated.
Proof. repeat split; [vm_compute; reflexivity.. | vm_compute; discriminate]. Qed.

(** C1, witness: loan 1 is submitted and not calculated; the interest-savings
    function reverts, and the prepayment risk of the loan submitted with an
    extra payment of 500 is returned, as the handle of 5. *)
Lemma analytic_requires_calculated_witness :
  isCalculated (sload (amortizationSchedules Example.submitted) 1) = false
  /\ analytic InterestSavings Example.submitted 1 = Revert NotCalculated
  /\ isCalculated (sload (amortizationSchedules Example.with_extra) 1) = false
  /\ analytic PrepaymentRisk Example.with_extra 1 = Ok 5.
Proof.
  split; [vm_compute; reflexivity|]. split; [|split].
  - apply (proj1 (analytic_requires_calculated InterestSavings
                    Example.submitted 1)).
    + vm_compute; reflexivity.
    + discriminate.
  - vm_compute; reflexivity.
  - assert (Hv : Ref.div
                   (Ref.mul (encryptedExtraPayment
                               (sload (encryptedLoans Example.with_extra) 1))
                            (Ref.asEuint32 100))
                   (encryptedPrincipal
                      (sload (encryptedLoans Example.with_extra) 1)) = 5)
      by (vm_compute; reflexivity).
    rewrite <- Hv.
    exact (proj2 (analytic_requires_calculated PrepaymentRisk
                    Example.with_extra 1)).
Defined.

(** C3, counterexample: the advisor calculates loan 1 before it exists, the
    loan is then submitted, which resets its schedule, and the advisor's
    second call goes through as well: two successful calculations for one
    loan id. *)
Lemma calculated_twice_for_one_id :
  calculations 1 Example.calculated_twice Example.deployed = 2%nat.
Proof. vm_compute. reflexivity. Qed.

(** C3, witness: on the calculated loan 1 the advisor's call is rejected; on
    the submitted loan 1 at most one call goes through in a sequence with
    another submission in between, and exactly one of three attempts. *)
Lemma calculateAmortization_once_witness :
  calculateAmortization Example.advisor 1 Example.calculated
    = Revert AlreadyCalculated
  /\ (calculations 1
        [ (Example.advisor, CalculateAmortization 1);
          (Example.alice, SubmitEncryptedLoan 1700000100 20000 700 24 0);
          (Example.advisor, CalculateAmortization 1) ]
        Example.submitted <= 1)%nat
  /\ calculations 1
       (attempts 1 [Example.mallory; Example.advisor; Example.advisor])
       Example.submitted = 1%nat.
Proof.
  split; [|split].
  - refine (proj1 (proj1 (calculateAmortization_once Example.calculated 1)
                     _ Example.advisor)).
    vm_compute; reflexivity.
  - refine (proj1 (proj1 (proj2 (calculateAmortization_once
                                   Example.submitted 1)) _ _)).
    vm_compute; discriminate.
  - refine (proj2 (proj2 (calculateAmortization_once Example.submitted 1))
              _ [Example.mallory; Example.advisor; Example.advisor]).
    vm_compute; reflexivity.
Defined.

(** C4, witness: the oracle's resolution of request 0 goes through, and a
    replay by another caller reverts. *)
Lemma resolve_exactly_once_witness :
  decryptAmortizationSchedule Example.oracle 0 Example.cleartexts Example.proof
    Example.requested = Ok Example.resolved
  /\ decryptAmortizationSchedule Example.mallory 0 Example.cleartexts
       Example.proof Example.resolved = Revert AlreadyRevealed.
Proof.
  assert (Hs : succeeds (decryptAmortizationSchedule Example.oracle 0
                           Example.cleartexts Example.proof Example.requested)
               = true) by (vm_compute; reflexivity).
  assert (H : decryptAmortizationSchedule Example.oracle 0 Example.cleartexts
                Example.proof Example.requested = Ok Example.resolved).
  { unfold Example.resolved, transact. cbn [execute].
    destruct (decryptAmortizationSchedule Example.oracle 0 Example.cleartexts
                Example.proof Example.requested); [reflexivity | discriminate Hs]. }
  split; [exact H|].
  exact (proj1 (proj2 (resolve_exactly_once _ _ _ _ _ _ H)
                  Example.mallory Example.cleartexts Example.proof)).
Defined.

(** C5, witness: a stranger is turned away, the borrower is turned away before
    the calculation and after the reveal. *)
Lemma requestScheduleDecryption_preconditions_witness :
  borrower (sload (encryptedLoans Example.calculated) 1) <> Example.mallory
  /\ requestScheduleDecryption Example.mallory 1 Example.calculated
     = Revert Unauthorized
  /\ requestScheduleDecryption Example.alice 1 Example.submitted
     = Revert NotCalculated
  /\ requestScheduleDecryption Example.alice 1 Example.resolved
     = Revert AlreadyRevealed.
Proof.
  assert (Hm : borrower (sload (encryptedLoans Example.calculated) 1)
               <> Example.mallory) by (vm_compute; discriminate).
  split; [exact Hm|]. split; [|split].
  - exact (proj1 (proj1 (requestScheduleDecryption_preconditions
                           Example.calculated Example.mallory 1) Hm)).
  - refine (proj1 (proj2 (requestScheduleDecryption_preconditions
                            Example.submitted Example.alice 1))
              reachable_submitted _ _).
    + vm_compute; reflexivity.
    + vm_compute; reflexivity.
  - refine (proj1 (proj2 (proj2 (requestScheduleDecryption_preconditions
                                   Example.resolved Example.alice 1))) _ _).
    + vm_compute; reflexivity.
    + vm_compute; reflexivity.
Defined.

(** C6, counterexample: request 0 was resolved; a replay of it reverts with
    [AlreadyRevealed], not with [UnknownRequest]. *)
Lemma resolved_replay_is_not_unknown :
  isRevealed (sload (decryptedSchedules Example.resolved) 1) = true
  /\ decryptAmortizationSchedule Example.oracle 0 Example.cleartexts
       Example.proof Example.resolved = Revert AlreadyRevealed
  /\ decryptAmortizationSchedule Example.oracle 0 Example.cleartexts
       Example.proof Example.resolved <> Revert UnknownRequest.
Proof.
  assert (H : decryptAmortizationSchedule Example.oracle 0 Example.cleartexts
                Example.proof Example.resolved = Revert AlreadyRevealed)
    by (apply failure_Revert; vm_compute; reflexivity).
  split; [vm_compute; reflexivity|]. split; [exact H|].
  rewrite H. discriminate.
Qed.

(** C6, witness: request 9 was never issued, request 0 was resolved. *)
Lemma resolve_unknown_or_resolved_witness :
  decryptAmortizationSchedule Example.oracle 9 Example.cleartexts Example.proof
    Example.requested = Revert UnknownRequest
  /\ decryptAmortizationSchedule Example.oracle 0 Example.cleartexts
       Example.proof Example.resolved = Revert AlreadyRevealed.
Proof.
  split.
  - refine (proj1 (proj1 (resolve_unknown_or_resolved Example.requested
                            Example.oracle 9 Example.cleartexts Example.proof)
                     _)).
    vm_compute; reflexivity.
  - refine (proj1 (proj2 (resolve_unknown_or_resolved Example.resolved
                            Example.oracle 0 Example.cleartexts Example.proof)
                     reachable_resolved _ _)).
    + vm_compute; discriminate.
    + vm_compute; reflexivity.
Defined.

(** C7, witness: an empty proof for request 0 is not accepted; the call
    reverts and the state is as it was. *)
Lemma invalid_proof_recoverable_witness :
  FHE_checkSignatures (fhe Example.requested) 0 Example.cleartexts [] = false
  /\ decryptAmortizationSchedule Example.mallory 0 Example.cleartexts []
       Example.requested = Revert InvalidProof
  /\ transact Example.mallory
       (DecryptAmortizationSchedule 0 Example.cleartexts []) Example.requested
     = Example.requested
  /\ exists s',
       decryptAmortizationSchedule Example.oracle 0 Example.cleartexts
         Example.proof
         (transact Example.mallory
            (DecryptAmortizationSchedule 0 Example.cleartexts [])
            Example.requested) = Ok s'
       /\ isRevealed (sload (decryptedSchedules s')
                        (sload (requestToLoanId Example.requested) 0)) = true.
Proof.
  assert (Hbad : FHE_checkSignatures (fhe Example.requested) 0
                   Example.cleartexts [] = false) by (vm_compute; reflexivity).
  split; [exact Hbad|].
  destruct (invalid_proof_recoverable (Sem := RefFacts.semantics)
              Example.requested Example.mallory 0 Example.cleartexts [])
    as (H1 & H2 & H3).
  - exact reachable_requested.
  - vm_compute; discriminate.
  - vm_compute; reflexivity.
  - vm_compute; reflexivity.
  - exact Hbad.
  - split; [exact H1|]. split; [exact H2|].
    refine (H3 Example.oracle Example.cleartexts Example.proof _).
    vm_compute; reflexivity.
Defined.

(** C9, witness: a stranger and the oracle get the same result for request
    0, and the stranger's call with the accepted cleartexts and proof goes
    through. *)
Lemma resolve_open_to_any_caller_witness :
  decryptAmortizationSchedule Example.mallory 0 Example.cleartexts Example.proof
    Example.requested
  = decryptAmortizationSchedule Example.oracle 0 Example.cleartexts
      Example.proof Example.requested
  /\ succeeds (decryptAmortizationSchedule Example.mallory 0 Example.cleartexts
                 Example.proof Example.requested) = true.
Proof.
  destruct (resolve_open_to_any_caller (Sem := RefFacts.semantics)
              Example.requested 0 Example.cleartexts Example.proof
              reachable_requested) as [Hany Hiff].
  split; [exact (Hany Example.mallory Example.oracle)|].
  refine (proj2 (Hiff Example.mallory) _).
  split; [vm_compute; discriminate|].
  split; [vm_compute; reflexivity|].
  split; vm_compute; reflexivity.
Defined.

(** C10, counterexample: the mark an early calculation leaves on loan id 1 is
    gone once [submitEncryptedLoan] assigns that id. *)
Lemma phantom_mark_is_reset :
  isCalculated
    (sload (amortizationSchedules
              (run Example.early_calculation Example.deployed)) 1) = true
  /\ isCalculated
       (sload (amortizationSchedules
                 (run Example.early_then_submitted Example.deployed)) 1) = false.
Proof. split; vm_compute; reflexivity. Qed.

(** C10, witness: no loan was submitted, and the advisor calculates loan 7. *)
Lemma calculateAmortization_phantom_witness :
  encryptedLoans Example.authorized !! 7 = None
  /\ exists s',
       calculateAmortization Example.advisor 7 Example.authorized = Ok s'
       /\ sload (amortizationSchedules s') 7
          = amortize (E := Ref.engine) zero_value
       /\ isCalculated (sload (amortizationSchedules s') 7) = true
       /\ forall txs,
            7 < 1 \/ loanCount (run txs s') < 7 ->
            sload (amortizationSchedules (run txs s')) 7
            = amortize (E := Ref.engine) zero_value.
Proof.
  apply (calculateAmortization_phantom Example.authorized Example.advisor 7).
  - exact reachable_authorized.
  - right. vm_compute; reflexivity.
  - vm_compute; reflexivity.
  - vm_compute; reflexivity.
Defined.

(** C2, witness: the scenario of the specification on the reference engine. *)
Lemma scenario_reveals_division_by_zero_witness :
  exists s',
    decryptAmortizationSchedule Example.oracle
      (scenario_request (E := Ref.engine) 1 2 3 1700000000 10000 500 36 0)
      Example.cleartexts Example.proof
      (scenario (E := Ref.engine) 1 2 3 1700000000 10000 500 36 0) = Ok s'
    /\ isRevealed (sload (decryptedSchedules s') 1) = true
    /\ monthlyPayment (sload (decryptedSchedules s') 1) = MAX_UINT32.
Proof.
  apply (scenario_reveals_division_by_zero (Sem := RefFacts.semantics)
           1 2 3 1700000000 10000 500 36 0 Example.oracle
           Example.cleartexts Example.proof).
  - vm_compute; reflexivity.
  - vm_compute; discriminate.
  - vm_compute; reflexivity.
Defined.

(** Two submissions in a row on the stand-in runtime: the index lists both
    ids, in order. *)
Example two_submissions :
  UI.stored_keys Runtime.JSON_parse Runtime.toUtf8String Runtime.after_second
  = Some [ UI.JStr "1700000000123-k3j9x2a"; UI.JStr "1700000060456-b7m1q0z" ].
Proof. vm_compute. reflexivity. Qed.

(** *** The stand-in runtime reads back an array of ids as written *)

Lemma string_app_cons c (a b : string) :
  (String c a ++ b)%string = String c (a ++ b)%string.
Proof. reflexivity. Qed.

Lemma string_app_nil (b : string) : (EmptyString ++ b)%string = b.
Proof. reflexivity. Qed.

Lemma string_app_assoc (a b c : string) :
  ((a ++ b) ++ c = a ++ (b ++ c))%string.
Proof.
  induction a as [|x a IH]; [done|].
  by rewrite !string_app_cons, IH.
Qed.

Lemma string_app_empty_r (a : string) : (a ++ EmptyString)%string = a.
Proof.
  induction a as [|x a IH]; [done|]. by rewrite string_app_cons, IH.
Qed.

Lemma string_length_app (a b : string) :
  String.length (a ++ b) = (String.length a + String.length b)%nat.
Proof.
  induction a as [|x a IH]; [done|].
  rewrite string_app_cons. cbn [String.length]. by rewrite IH.
Qed.

Lemma read_text_escape x acc tail :
  Browser.read_text acc
    (Runtime.escape x ++ String Runtime.quote_char tail)%string
  = Some ((acc ++ x)%string, tail).
Proof.
  assert (Hqq : Ascii.eqb Runtime.quote_char Runtime.quote_char = true)
    by reflexivity.
  assert (Hbq : Ascii.eqb Runtime.backslash_char Runtime.quote_char = false)
    by reflexivity.
  assert (Hbb : Ascii.eqb Runtime.backslash_char Runtime.backslash_char = true)
    by reflexivity.
  revert acc. induction x as [|c x IH]; intros acc.
  - cbn [Runtime.escape]. rewrite string_app_nil. cbn [Browser.read_text].
    by rewrite Hqq, string_app_empty_r.
  - cbn [Runtime.escape].
    destruct (Ascii.eqb c Runtime.quote_char) eqn:Hq;
      [|destruct (Ascii.eqb c Runtime.backslash_char) eqn:Hb];
      cbn [orb]; rewrite !string_app_cons; cbn [Browser.read_text];
      rewrite ?Hbq, ?Hbb, ?Hq, ?Hb; cbn [orb];
      rewrite IH, string_app_assoc, string_app_cons, string_app_nil;
      reflexivity.
Qed.

Lemma read_value_quoted n x tail :
  Browser.read_value (S n) (Runtime.quoted x ++ tail)%string
  = Some (UI.JStr x, tail).
Proof.
  assert (Hqq : Ascii.eqb Runtime.quote_char Runtime.quote_char = true)
    by reflexivity.
  unfold Runtime.quoted. rewrite string_app_cons, string_app_assoc.
  rewrite string_app_cons, string_app_nil.
  cbn [Browser.read_value]. rewrite Hqq.
  by rewrite read_text_escape.
Qed.

Lemma read_items_step n acc s :
  Browser.read_items (S n) acc s
  = match Browser.read_value n s with
    | Some (v, String c rest) =>
        if Ascii.eqb c Runtime.comma_char
        then Browser.read_items n (v :: acc) rest
        else if Ascii.eqb c Runtime.close_bracket
        then Some (UI.JArr (rev (v :: acc)), rest)
        else None
    | _ => None
    end.
Proof. reflexivity. Qed.

Lemma read_items_ids l : forall x acc fuel rest,
  (length l + 2 <= fuel)%nat ->
  Browser.read_items fuel acc
    (Browser.ids_text (x :: l) ++ String Runtime.close_bracket rest)%string
  = Some (UI.JArr (rev acc ++ map UI.JStr (x :: l)), rest).
Proof.
  assert (Hcc : Ascii.eqb Runtime.comma_char Runtime.comma_char = true)
    by reflexivity.
  assert (Hbc : Ascii.eqb Runtime.close_bracket Runtime.comma_char = false)
    by reflexivity.
  assert (Hbb : Ascii.eqb Runtime.close_bracket Runtime.close_bracket = true)
    by reflexivity.
  induction l as [|y l IH]; intros x acc fuel rest Hfuel.
  - destruct fuel as [|[|n]]; [cbn in Hfuel; lia..|].
    rewrite read_items_step. cbn [Browser.ids_text].
    rewrite read_value_quoted. cbv beta iota. rewrite Hbc, Hbb. reflexivity.
  - destruct fuel as [|[|n]]; [cbn in Hfuel; lia..|].
    change (Browser.ids_text (x :: y :: l))
      with (Runtime.quoted x
            ++ String Runtime.comma_char (Browser.ids_text (y :: l)))%string.
    rewrite string_app_assoc, string_app_cons.
    rewrite read_items_step, read_value_quoted. cbv beta iota. rewrite Hcc.
    rewrite IH by (cbn [length] in Hfuel; lia).
    cbn [rev map]. by rewrite <- app_assoc.
Qed.

Lemma ids_text_length x l :
  (length l + 2 <= String.length (Browser.ids_text (x :: l)))%nat.
Proof.
  revert x. induction l as [|y l IH]; intros x.
  - cbn [Browser.ids_text length]. unfold Runtime.quoted. cbn [String.length].
    rewrite string_length_app. cbn [String.length]. lia.
  - change (Browser.ids_text (x :: y :: l))
      with (Runtime.quoted x
            ++ String Runtime.comma_char (Browser.ids_text (y :: l)))%string.
    rewrite string_length_app. cbn [String.length length].
    specialize (IH y). lia.
Qed.

Lemma JSON_stringify_ids l :
  Runtime.JSON_stringify (UI.JArr (map UI.JStr l))
  = String Runtime.open_bracket
      (Browser.ids_text l ++ String Runtime.close_bracket EmptyString)%string.
Proof.
  cbn [Runtime.JSON_stringify]. rewrite string_app_cons, string_app_nil.
  f_equal. f_equal.
  induction l as [|x l IH]; [done|].
  cbn [map Browser.ids_text]. destruct l as [|y l]; [done|].
  cbn [map] in *. rewrite IH. reflexivity.
Qed.

Lemma JSON_parse_ids l :
  Browser.JSON_parse (Runtime.JSON_stringify (UI.JArr (map UI.JStr l)))
  = Some (UI.JArr (map UI.JStr l)).
Proof.
  assert (Hoq : Ascii.eqb Runtime.open_bracket Runtime.quote_char = false)
    by reflexivity.
  assert (Hoo : Ascii.eqb Runtime.open_bracket Runtime.open_bracket = true)
    by reflexivity.
  assert (Hbb : Ascii.eqb Runtime.close_bracket Runtime.close_bracket = true)
    by reflexivity.
  assert (Hqb : Ascii.eqb Runtime.quote_char Runtime.close_bracket = false)
    by reflexivity.
  rewrite JSON_stringify_ids. unfold Browser.JSON_parse.
  cbn [String.length Browser.read_value]. rewrite Hoq, Hoo.
  destruct l as [|x l].
  - cbn [Browser.ids_text]. rewrite string_app_nil, Hbb. reflexivity.
  - pose proof (ids_text_length x l) as Hlen.
    assert (Hhead : exists tail,
              (Browser.ids_text (x :: l) ++ String Runtime.close_bracket EmptyString)%string
              = String Runtime.quote_char tail).
    { destruct l; cbn [Browser.ids_text]; unfold Runtime.quoted;
        rewrite ?string_app_cons; by eexists. }
    destruct Hhead as [tail Htail].
    rewrite Htail at 1. rewrite Hqb.
    rewrite string_length_app. cbn [String.length].
    rewrite read_items_ids by lia. reflexivity.
Qed.

Lemma arrays_of_ids_read_back (ids : list string) :
  Schedules.reads_back Runtime.JSON_stringify Browser.JSON_parse
    Runtime.toUtf8Bytes Runtime.toUtf8String (UI.JArr (map UI.JStr ids)).
Proof.
  unfold Schedules.reads_back, Runtime.toUtf8Bytes, Runtime.toUtf8String.
  split.
  - rewrite JSON_stringify_ids. unfold String.list_byte_of_string.
    cbn [String.list_ascii_of_string List.map length]. lia.
  - rewrite String.string_of_list_byte_of_string. cbn [mbind option_bind].
    apply JSON_parse_ids.
Qed.


(** * More of the contract *)

Section ContractInvariants.
Context `{E : FHEEngine}.

Implicit Types (s : State) (loanId requestId : uint256) (sender : address).

(** Takes a successful call apart: one goal per function of the contract,
    with the state it returns written out. *)
Ltac passed H :=
  repeat match type of H with
  | bind _ _ = Ok _ =>
      let u := fresh "u" in
      let G := fresh "G" in
      apply bind_Ok in H as (u & G & H);
      try apply require_Ok in G
  end.

Ltac ran Hx c :=
  destruct c; cbn [execute] in Hx;
  [ unfold authorizeAdvisor, onlyAdmin in Hx; passed Hx; injection Hx as <-
  | unfold submitEncryptedLoan in Hx; passed Hx; injection Hx as <-
  | let s' := fresh "s'" in
    match type of Hx with
    | _ = Ok ?x => rename x into s'
    end
  | rewrite requestScheduleDecryption_cases in Hx;
    repeat match type of Hx with
    | (if ?b then _ else _) = Ok _ =>
        let G := fresh "G" in destruct b eqn:G; [discriminate Hx|]
    end;
    cbn zeta in Hx; injection Hx as <-
  | apply decryptAmortizationSchedule_Ok in Hx
  | unfold protectFinancialPrivacy, onlyAdmin in Hx; passed Hx;
    injection Hx as <- ].

Lemma calculateAmortization_Ok sender loanId s s' :
  calculateAmortization sender loanId s = Ok s' ->
  sload (financialAdvisors s) sender = true
  /\ isCalculated (sload (amortizationSchedules s) loanId) = false
  /\ s' = emit (ScheduleCalculated loanId)
            (set_amortizationSchedule loanId
               (amortize (sload (encryptedLoans s) loanId)) s).
Proof.
  rewrite calculateAmortization_cases.
  destruct (sload (financialAdvisors s) sender); [|discriminate].
  destruct (isCalculated _); [discriminate|].
  cbn [negb]. by intros [= <-].
Qed.

(** *** Roles *)

Lemma transact_platformAdmin sender c s :
  platformAdmin (transact sender c s) = platformAdmin s.
Proof.
  unfold transact. destruct (execute sender c s) as [s'|e] eqn:Hx; [|done].
  ran Hx c; try done.
  - by apply calculateAmortization_Ok in Hx as (_ & _ & ->).
  - by destruct Hx as (_ & _ & _ & _ & mp & ti & pt & _ & ->).
Qed.

(** X1.  The deployer stays the administrator: no sequence of transactions
    changes [platformAdmin]. *)
Theorem platformAdmin_is_final (admin : address) txs :
  platformAdmin (run txs (constructor admin)) = admin.
Proof.
  change admin with (platformAdmin (constructor admin)) at 2.
  generalize (constructor admin). induction txs as [|[a c] txs IH]; intros s;
    [done|].
  rewrite run_cons, IH. apply transact_platformAdmin.
Qed.

Lemma transact_advisor sender c s a :
  sload (financialAdvisors (transact sender c s)) a
  = if sload (financialAdvisors s) a then true
    else match c with
         | AuthorizeAdvisor a' => (a' =? a) && (sender =? platformAdmin s)
         | _ => false
         end.
Proof.
  unfold transact. destruct (execute sender c s) as [s'|e] eqn:Hx.
  - ran Hx c.
    + apply Z.eqb_eq in G. cbn [financialAdvisors set_financialAdvisor].
      rewrite G, Z.eqb_refl, andb_true_r.
      destruct (Z.eqb_spec advisor a) as [->|Hne].
      * rewrite sload_insert_eq. by destruct (sload _ a).
      * rewrite sload_insert_ne by done. by destruct (sload _ a).
    + cbn. by destruct (sload _ a).
    + apply calculateAmortization_Ok in Hx as (_ & _ & ->). cbn.
      by destruct (sload _ a).
    + cbn. by destruct (sload _ a).
    + destruct Hx as (_ & _ & _ & _ & mp & ti & pt & _ & ->). cbn.
      by destruct (sload _ a).
    + by destruct (sload _ a).
  - destruct (sload (financialAdvisors s) a) eqn:Ha; [done|].
    destruct c; try done. cbn [execute] in Hx.
    unfold authorizeAdvisor, onlyAdmin in Hx.
    destruct (sender =? platformAdmin s); [discriminate|].
    by rewrite andb_false_r.
Qed.

(** X2.  An address is an advisor after a transaction exactly when it was
    one before, or the transaction is the administrator's [authorizeAdvisor]
    for it: only the administrator grants the role, and nothing takes it
    back. *)
Theorem advisor_role_granted_by_admin_only sender c s a :
  sload (financialAdvisors (transact sender c s)) a = true
  <-> sload (financialAdvisors s) a = true
      \/ (c = AuthorizeAdvisor a /\ sender = platformAdmin s).
Proof.
  rewrite transact_advisor.
  destruct (sload (financialAdvisors s) a); [by split; auto|].
  split.
  - destruct c; try discriminate.
    intros [->%Z.eqb_eq ->%Z.eqb_eq]%andb_prop. by right.
  - intros [?|[-> ->]]; [done|]. by rewrite !Z.eqb_refl.
Qed.

Lemma run_advisor_kept txs s a :
  sload (financialAdvisors s) a = true ->
  sload (financialAdvisors (run txs s)) a = true.
Proof.
  revert s. induction txs as [|[b c] txs IH]; intros s Ha; [done|].
  rewrite run_cons. apply IH. cbn [fst snd]. by rewrite transact_advisor, Ha.
Qed.

(** *** Loans *)

(** X3.  [submitEncryptedLoan] is open to any caller and fails only when the
    counter is at its maximum.  It assigns the next id; the loan read back
    under that id is the caller with the four handles and the timestamp as
    submitted; its schedule starts uncalculated and unrevealed; the id is
    appended to the caller's list; one [LoanSubmitted] event is logged; the
    records under every other id are as before. *)
Theorem submitEncryptedLoan_stores sender now principal rate term extra s :
  (MAX_UINT256 <= loanCount s ->
   submitEncryptedLoan sender now principal rate term extra s
   = Revert ArithmeticPanic)
  /\ (loanCount s < MAX_UINT256 ->
      exists s',
        submitEncryptedLoan sender now principal rate term extra s = Ok s'
        /\ loanCount s' = loanCount s + 1
        /\ getEncryptedLoan s' (loanCount s')
           = (sender, principal, rate, term, extra, now)
        /\ getEncryptedSchedule s' (loanCount s')
           = (FHE_asEuint32 0, FHE_asEuint32 0, FHE_asEuint32 0, false)
        /\ getDecryptedSchedule s' (loanCount s') = (0, 0, 0, false)
        /\ sload (borrowerLoans s') sender
           = sload (borrowerLoans s) sender ++ [loanCount s']
        /\ events s' = events s ++ [LoanSubmitted (loanCount s') sender]
        /\ forall i, i <> loanCount s' ->
             getEncryptedLoan s' i = getEncryptedLoan s i
             /\ getEncryptedSchedule s' i = getEncryptedSchedule s i
             /\ getDecryptedSchedule s' i = getDecryptedSchedule s i).
Proof.
  unfold submitEncryptedLoan. split; intros Hn.
  - destruct (Z.leb_spec (loanCount s + 1) MAX_UINT256); [lia | done].
  - destruct (Z.leb_spec (loanCount s + 1) MAX_UINT256); [|lia].
    cbn [require bind]. eexists. split; [reflexivity|].
    unfold getEncryptedLoan, getEncryptedSchedule, getDecryptedSchedule.
    cbn [loanCount encryptedLoans amortizationSchedules decryptedSchedules
         borrowerLoans events].
    rewrite !sload_insert_eq. repeat split; try done.
    all: intros; by rewrite sload_insert_ne.
Qed.

(** What a transaction does to the loans: nothing, or it is a submission
    that adds the next id. *)
Lemma transact_submits_or_not sender c s :
  (loanCount (transact sender c s) = loanCount s
   /\ encryptedLoans (transact sender c s) = encryptedLoans s
   /\ borrowerLoans (transact sender c s) = borrowerLoans s
   /\ submitted_count (events (transact sender c s))
      = submitted_count (events s))
  \/ (exists now p r t e,
        c = SubmitEncryptedLoan now p r t e
        /\ loanCount (transact sender c s) = loanCount s + 1
        /\ encryptedLoans (transact sender c s)
           = <[loanCount s + 1 :=
                 {| loan_id := loanCount s + 1; borrower := sender;
                    encryptedPrincipal := p; encryptedInterestRate := r;
                    encryptedTerm := t; encryptedExtraPayment := e;
                    timestamp := now |}]> (encryptedLoans s)
        /\ borrowerLoans (transact sender c s)
           = <[sender := sload (borrowerLoans s) sender ++ [loanCount s + 1]]>
               (borrowerLoans s)
        /\ submitted_count (events (transact sender c s))
           = submitted_count (events s) + 1).
Proof.
  assert (Hlog : forall ev, is_LoanSubmitted ev = false ->
            submitted_count (events s ++ [ev]) = submitted_count (events s)).
  { intros ev Hev. unfold submitted_count. rewrite filter_app, length_app.
    cbn. rewrite Hev. cbn. destruct (decide (false = true)); [done|].
    cbn. lia. }
  unfold transact. destruct (execute sender c s) as [s'|e] eqn:Hx; [|by left].
  ran Hx c.
  - by left.
  - right. exists now, principal, rate, term, extra. repeat split.
    cbn [events]. unfold submitted_count. rewrite filter_app, length_app.
    cbn. destruct (decide (true = true)); [|done]. cbn. lia.
  - apply calculateAmortization_Ok in Hx as (_ & _ & ->). left.
    repeat split. cbn [events emit set_amortizationSchedule]. by apply Hlog.
  - by left.
  - destruct Hx as (_ & _ & _ & _ & mp & ti & pt & _ & ->). left.
    repeat split. cbn [events emit set_decryptedSchedule]. by apply Hlog.
  - by left.
Qed.

Lemma transact_keeps_loan sender c s loanId :
  loanId <= loanCount s ->
  encryptedLoans (transact sender c s) !! loanId = encryptedLoans s !! loanId.
Proof.
  intros Hid.
  destruct (transact_submits_or_not sender c s)
    as [(_ & -> & _)|(now & p & r & t & e & _ & _ & -> & _)]; [done|].
  apply lookup_insert_ne. lia.
Qed.

(** X4.  A loan is immutable once created: through any transactions, the
    record under an assigned id reads as it was submitted. *)
Theorem loan_record_is_final txs s loanId :
  loanId <= loanCount s ->
  getEncryptedLoan (run txs s) loanId = getEncryptedLoan s loanId.
Proof.
  revert s. induction txs as [|[a c] txs IH]; intros s Hid; [done|].
  rewrite run_cons. cbn [fst snd].
  pose proof (transact_loanCount a c s) as Hmono.
  rewrite IH by lia. unfold getEncryptedLoan, sload.
  by rewrite transact_keeps_loan.
Qed.

(** X5.  In a reachable state the loans are exactly the ids from 1 to
    [loanCount], and each loan carries its own id. *)
Theorem loans_are_one_to_loanCount s i :
  reachable s ->
  (is_Some (encryptedLoans s !! i) <-> 1 <= i <= loanCount s)
  /\ (1 <= i <= loanCount s -> loan_id (sload (encryptedLoans s) i) = i).
Proof.
  intros Hr.
  assert (Hin : 1 <= i <= loanCount s ->
                exists loan, encryptedLoans s !! i = Some loan /\ loan_id loan = i).
  { induction Hr as [admin | s sender c Hr IH]; [cbn; lia|].
    pose proof (reachable_loanCount s Hr) as Hn.
    destruct (transact_submits_or_not sender c s)
      as [(-> & -> & _)|(now & p & r & t & e & _ & -> & -> & _)]; [done|].
    intros Hi. destruct (decide (i = loanCount s + 1)) as [->|Hne].
    - eexists. by rewrite lookup_insert_eq.
    - rewrite lookup_insert_ne by done. apply IH. lia. }
  split; [split|].
  - intros Hsome. destruct (decide (1 <= i <= loanCount s)) as [|Hout]; [done|].
    rewrite (reachable_unassigned s Hr i) in Hsome by lia.
    by destruct Hsome.
  - intros Hi. destruct (Hin Hi) as (loan & -> & _). by eexists.
  - intros Hi. destruct (Hin Hi) as (loan & Hl & Hid). unfold sload.
    by rewrite Hl.
Qed.

Lemma StronglySorted_snoc (l : list Z) (y : Z) :
  StronglySorted Z.lt l -> (forall x, In x l -> x < y) ->
  StronglySorted Z.lt (l ++ [y]).
Proof.
  induction 1 as [|x l Hl IH Hx]; intros Hy; cbn.
  - repeat constructor.
  - constructor.
    + apply IH. intros z Hz. apply Hy. by right.
    + apply Forall_app. split; [done|]. constructor; [|constructor].
      apply Hy. by left.
Qed.

(** The list of a borrower: strictly increasing, and holding exactly the
    ids of the loans that borrower submitted. *)
Lemma transact_borrowerLoans sender c s :
  0 <= loanCount s ->
  (forall a,
     StronglySorted Z.lt (sload (borrowerLoans s) a)
     /\ forall i, In i (sload (borrowerLoans s) a)
                  <-> 1 <= i <= loanCount s
                      /\ borrower (sload (encryptedLoans s) i) = a) ->
  forall a,
    StronglySorted Z.lt (sload (borrowerLoans (transact sender c s)) a)
    /\ forall i, In i (sload (borrowerLoans (transact sender c s)) a)
                 <-> 1 <= i <= loanCount (transact sender c s)
                     /\ borrower (sload (encryptedLoans (transact sender c s)) i)
                        = a.
Proof.
  intros Hn Inv a.
  destruct (transact_submits_or_not sender c s)
    as [(-> & -> & -> & _)|(now & p & r & t & e & _ & -> & -> & -> & _)];
    [apply Inv|].
  destruct (Inv a) as [Hsorted Hmem].
  assert (Hold : forall i, i <> loanCount s + 1 ->
            sload (<[loanCount s + 1 :=
                       {| loan_id := loanCount s + 1; borrower := sender;
                          encryptedPrincipal := p; encryptedInterestRate := r;
                          encryptedTerm := t; encryptedExtraPayment := e;
                          timestamp := now |}]> (encryptedLoans s)) i
            = sload (encryptedLoans s) i)
    by (intros; by apply sload_insert_ne).
  destruct (decide (sender = a)) as [->|Hne].
  - rewrite sload_insert_eq. split.
    + apply StronglySorted_snoc; [done|].
      intros x Hx. apply Hmem in Hx. lia.
    + intros i. rewrite in_app_iff, Hmem. cbn [In]. split.
      * intros [[Hi Hb]|[<-|[]]].
        -- rewrite Hold by lia. split; [lia | done].
        -- rewrite sload_insert_eq. split; [lia | done].
      * intros [Hi Hb]. destruct (decide (i = loanCount s + 1)) as [->|Hd].
        -- by right; left.
        -- left. rewrite Hold in Hb by done. split; [lia | done].
  - rewrite sload_insert_ne by done. split; [done|].
    intros i. rewrite Hmem. split.
    + intros [Hi Hb]. rewrite Hold by lia. split; [lia | done].
    + intros [Hi Hb]. destruct (decide (i = loanCount s + 1)) as [->|Hd].
      * rewrite sload_insert_eq in Hb. cbn in Hb. congruence.
      * rewrite Hold in Hb by done. split; [lia | done].
Qed.

(** X6.  In a reachable state, the list kept for a borrower is strictly
    increasing (insertion order) and holds exactly the ids of the loans whose
    borrower is that address. *)
Theorem borrowerLoans_lists_own_loans s a :
  reachable s ->
  StronglySorted Z.lt (sload (borrowerLoans s) a)
  /\ forall i, In i (sload (borrowerLoans s) a)
               <-> 1 <= i <= loanCount s
                   /\ borrower (sload (encryptedLoans s) i) = a.
Proof.
  intros Hr. revert a. induction Hr as [admin | s sender c Hr IH].
  - intros a. cbn. rewrite sload_empty. split; [constructor|].
    intros i. cbn. split; [done | lia].
  - apply transact_borrowerLoans; [by apply reachable_loanCount | done].
Qed.

(** X7.  The log has one [LoanSubmitted] event per loan: in a reachable
    state their number is [loanCount]. *)
Theorem one_event_per_loan s :
  reachable s -> submitted_count (events s) = loanCount s.
Proof.
  induction 1 as [admin | s sender c Hr IH]; [done|].
  destruct (transact_submits_or_not sender c s)
    as [(-> & _ & _ & ->)|(now & p & r & t & e & _ & -> & _ & _ & ->)]; lia.
Qed.

(** *** Requests and reveals *)

(** X8.  The plaintext of a loan is written once: after the reveal of an
    assigned loan, through any transactions (further requests and oracle
    callbacks included), [getDecryptedSchedule] answers the same. *)
Theorem revealed_plaintext_is_final txs s loanId :
  loanId <= loanCount s ->
  isRevealed (sload (decryptedSchedules s) loanId) = true ->
  getDecryptedSchedule (run txs s) loanId = getDecryptedSchedule s loanId.
Proof.
  intros Hid Hrev. unfold getDecryptedSchedule.
  by rewrite run_keeps_plaintext.
Qed.

Lemma requestScheduleDecryption_Ok sender loanId s s' :
  requestScheduleDecryption sender loanId s = Ok s' ->
  let schedule := sload (amortizationSchedules s) loanId in
  let issued :=
    FHE_requestDecryption (fhe s)
      [ FHE_toBytes32 (encryptedMonthlyPayment schedule);
        FHE_toBytes32 (encryptedTotalInterest schedule);
        FHE_toBytes32 (encryptedPayoffTime schedule) ] in
  negb (borrower (sload (encryptedLoans s) loanId) =? sender) = false
  /\ isRevealed (sload (decryptedSchedules s) loanId) = false
  /\ negb (isCalculated schedule) = false
  /\ s' = set_request (fst issued) loanId (snd issued) s.
Proof.
  rewrite requestScheduleDecryption_cases. cbn zeta.
  destruct (negb (borrower (sload (encryptedLoans s) loanId) =? sender));
    [discriminate|].
  destruct (isRevealed (sload (decryptedSchedules s) loanId)); [discriminate|].
  destruct (negb (isCalculated (sload (amortizationSchedules s) loanId)));
    [discriminate|].
  by intros [= <-].
Qed.

(** X9.  A request that goes through writes one entry, from the identifier
    the library hands out to the loan, and the library's request store; it
    logs no event and leaves loans, schedules, plaintexts and roles alone.
    Nothing marks the loan as requested: the same request goes through
    again. *)
Theorem requestScheduleDecryption_effect sender loanId s s' :
  requestScheduleDecryption sender loanId s = Ok s' ->
  let schedule := sload (amortizationSchedules s) loanId in
  let issued :=
    FHE_requestDecryption (fhe s)
      [ FHE_toBytes32 (encryptedMonthlyPayment schedule);
        FHE_toBytes32 (encryptedTotalInterest schedule);
        FHE_toBytes32 (encryptedPayoffTime schedule) ] in
  sload (requestToLoanId s') (fst issued) = loanId
  /\ (forall r, r <> fst issued ->
       sload (requestToLoanId s') r = sload (requestToLoanId s) r)
  /\ fhe s' = snd issued
  /\ events s' = events s
  /\ loanCount s' = loanCount s
  /\ encryptedLoans s' = encryptedLoans s
  /\ amortizationSchedules s' = amortizationSchedules s
  /\ decryptedSchedules s' = decryptedSchedules s
  /\ financialAdvisors s' = financialAdvisors s
  /\ succeeds (requestScheduleDecryption sender loanId s') = true.
Proof.
  intros Hx.
  apply requestScheduleDecryption_Ok in Hx as (G1 & G2 & G3 & ->). cbn zeta.
  cbn [requestToLoanId fhe events loanCount encryptedLoans
       amortizationSchedules decryptedSchedules financialAdvisors set_request].
  rewrite sload_insert_eq. repeat split; try done.
  - intros r Hr. by apply sload_insert_ne.
  - rewrite requestScheduleDecryption_cases.
    cbn [encryptedLoans amortizationSchedules decryptedSchedules set_request].
    by rewrite G1, G2, G3.
Qed.

Lemma transact_keeps_requests sender c s :
  is_request c = false ->
  fhe (transact sender c s) = fhe s
  /\ requestToLoanId (transact sender c s) = requestToLoanId s.
Proof.
  intros Hc. unfold transact.
  destruct (execute sender c s) as [s'|e] eqn:Hx; [|done].
  ran Hx c; try done.
  - by apply calculateAmortization_Ok in Hx as (_ & _ & ->).
  - by destruct Hx as (_ & _ & _ & _ & mp & ti & pt & _ & ->).
Qed.

Lemma run_keeps_requests txs s :
  forallb (fun tx => negb (is_request (snd tx))) txs = true ->
  fhe (run txs s) = fhe s /\ requestToLoanId (run txs s) = requestToLoanId s.
Proof.
  revert s. induction txs as [|[a c] txs IH]; intros s Hno; [done|].
  cbn [forallb snd] in Hno. apply andb_prop in Hno as [Hc Hno].
  apply negb_true_iff in Hc.
  rewrite run_cons. cbn [fst snd].
  destruct (IH (transact a c s) Hno) as [-> ->].
  by apply transact_keeps_requests.
Qed.

(** *** Analytic functions *)

(** X10.  The [isCalculated] flag is the only precondition of the analytic
    functions: each of them but [calculatePrepaymentRisk] returns a handle
    exactly when the schedule is calculated, for any loan id, assigned or
    not. *)
Theorem analytic_succeeds_iff_calculated (q : Analytic) s loanId :
  q <> PrepaymentRisk ->
  (succeeds (analytic q s loanId) = true
   <-> isCalculated (sload (amortizationSchedules s) loanId) = true).
Proof.
  intros Hq.
  assert (Hrun : succeeds (analytic q s loanId)
                 = isCalculated (sload (amortizationSchedules s) loanId)).
  { destruct q; try congruence; cbn [analytic];
      unfold calculateInterestSavings, calculateAffordability,
        optimizePaymentStrategy, calculateDebtToIncome,
        estimateEarlyPayoffImpact, calculateLoanHealth,
        calculateRefinancingBenefit, calculatePaymentShockRisk,
        optimizeForGoals, calculateInterestSensitivity, estimateTaxBenefit,
        calculateLoanLiquidity, detectOverleveraging,
        calculateFinancialFlexibility, optimizeForCashFlow, estimateNetCost,
        calculateLoanEfficiency, generatePersonalizedAdvice,
        calculateDebtSustainability, estimateInflationImpact,
        calculateLoanHealth, estimateTaxBenefit, calculatePaymentShockRisk,
        calculateDebtToIncome, calculateAffordability,
        calculateInterestSavings;
      destruct (isCalculated (sload (amortizationSchedules s) loanId));
      reflexivity. }
  by rewrite Hrun.
Qed.

Section RevealSemantics.
Context {Sem : EngineSemantics E}.

(** X11.  What is revealed is what was calculated.  When the borrower's
    request for an assigned loan goes through, and the oracle's callback for
    the issued identifier goes through later, with any transactions but
    further requests in between, the stored plaintext is the decryption of
    the three handles of the schedule, and the schedule is still the one the
    request was made for. *)
Theorem reveal_is_decryption_of_schedule
    s sender loanId s1 txs oracle ct pf s2 :
  reachable s ->
  loanId <= loanCount s ->
  requestScheduleDecryption sender loanId s = Ok s1 ->
  forallb (fun tx => negb (is_request (snd tx))) txs = true ->
  let schedule := sload (amortizationSchedules s) loanId in
  let requestId :=
    fst (FHE_requestDecryption (fhe s)
           [ FHE_toBytes32 (encryptedMonthlyPayment schedule);
             FHE_toBytes32 (encryptedTotalInterest schedule);
             FHE_toBytes32 (encryptedPayoffTime schedule) ]) in
  decryptAmortizationSchedule oracle requestId ct pf (run txs s1) = Ok s2 ->
  getDecryptedSchedule s2 loanId
  = (dec (encryptedMonthlyPayment schedule),
     dec (encryptedTotalInterest schedule),
     dec (encryptedPayoffTime schedule), true)
  /\ sload (amortizationSchedules s2) loanId = schedule.
Proof.
  intros Hr Hid Hreq Hno schedule requestId Hdec.
  assert (Hr1 : reachable s1).
  { replace s1 with (transact sender (RequestScheduleDecryption loanId) s);
      [by apply reach_transact|].
    by apply (transact_ok sender (RequestScheduleDecryption loanId)). }
  pose proof (reachable_run txs s1 Hr1) as Hr2.
  assert (Hcalc : isCalculated schedule = true).
  { rewrite requestScheduleDecryption_cases in Hreq. unfold schedule.
    destruct (negb (borrower _ =? sender)); [discriminate|].
    destruct (isRevealed _); [discriminate|].
    by destruct (isCalculated _). }
  assert (Hmap : sload (requestToLoanId s1) requestId = loanId
                 /\ fhe s1
                    = snd (FHE_requestDecryption (fhe s)
                             [ FHE_toBytes32 (encryptedMonthlyPayment schedule);
                               FHE_toBytes32 (encryptedTotalInterest schedule);
                               FHE_toBytes32 (encryptedPayoffTime schedule) ])
                 /\ loanCount s1 = loanCount s
                 /\ amortizationSchedules s1 = amortizationSchedules s).
  { apply requestScheduleDecryption_Ok in Hreq as (_ & _ & _ & ->).
    cbn [requestToLoanId fhe loanCount amortizationSchedules set_request].
    by rewrite sload_insert_eq. }
  destruct Hmap as (Hmap & Hfhe & Hn & Hsch).
  destruct (run_keeps_requests txs s1 Hno) as [Hfhe2 Hmap2].
  assert (Hpend : pending (fhe (run txs s1)) requestId
                  = Some [ FHE_toBytes32 (encryptedMonthlyPayment schedule);
                           FHE_toBytes32 (encryptedTotalInterest schedule);
                           FHE_toBytes32 (encryptedPayoffTime schedule) ]).
  { rewrite Hfhe2, Hfhe. unfold requestId.
    destruct (FHE_requestDecryption _ _) as [r0 o'] eqn:Hissue.
    cbn [fst snd]. by apply request_recorded in Hissue as [-> _]. }
  assert (Hkeep : sload (amortizationSchedules (run txs s1)) loanId = schedule).
  { rewrite run_keeps_schedule; [by rewrite Hsch | by rewrite Hn |].
    by rewrite Hsch. }
  apply decryptAmortizationSchedule_Ok in Hdec
    as (_ & _ & _ & Hacc & mp & ti & pt & Hct & ->).
  destruct (accepted_cleartexts_decode _ _ _ _ Hr2 Hacc)
    as (a & b & c & Hp & Habc).
  rewrite Hpend in Hp. injection Hp as <- <- <-.
  rewrite Hct in Habc. injection Habc as -> -> ->.
  rewrite Hmap2, Hmap. unfold getDecryptedSchedule.
  cbn [decryptedSchedules amortizationSchedules emit set_decryptedSchedule].
  rewrite sload_insert_eq. by split.
Qed.

End RevealSemantics.

End ContractInvariants.

(** * Arithmetic of the formulas, under the engine's contract *)

Section Formulas.
Context `{E : FHEEngine} {Sem : EngineSemantics E}.

Implicit Types (s : State) (loanId : uint256).

Lemma dec_const v : 0 <= v <= MAX_UINT32 -> dec (FHE_asEuint32 v) = v.
Proof. intros Hv. rewrite dec_asEuint32. by apply wrap32_small. Qed.

Lemma dec_div_const a v :
  0 < v <= MAX_UINT32 -> dec (FHE_div a (FHE_asEuint32 v)) = dec a / v.
Proof.
  intros Hv. rewrite dec_div, dec_const by lia.
  by destruct (Z.eqb_spec v 0); [lia|].
Qed.

(** X12.  Tax benefit and net cost split the total interest: on a
    calculated schedule [estimateTaxBenefit] decrypts to a quarter of the
    total interest (rounded down), [estimateNetCost] to the rest, without
    wrap-around, and the two add up to the total interest. *)
Theorem tax_benefit_and_net_cost s loanId :
  isCalculated (sload (amortizationSchedules s) loanId) = true ->
  exists benefit cost,
    estimateTaxBenefit s loanId = Ok benefit
    /\ estimateNetCost s loanId = Ok cost
    /\ dec benefit
       = dec (encryptedTotalInterest (sload (amortizationSchedules s) loanId)) / 4
    /\ dec benefit + dec cost
       = dec (encryptedTotalInterest (sload (amortizationSchedules s) loanId)).
Proof.
  intros Hc. unfold estimateNetCost, estimateTaxBenefit. rewrite Hc.
  cbn [require bind]. eexists _, _. split; [reflexivity|].
  split; [reflexivity|].
  set (ti := encryptedTotalInterest (sload (amortizationSchedules s) loanId)).
  pose proof (dec_range ti) as Hti.
  assert (Hb : dec (FHE_div ti (FHE_asEuint32 4)) = dec ti / 4)
    by (apply dec_div_const; unfold MAX_UINT32; lia).
  split; [done|].
  rewrite dec_sub, Hb, wrap32_small; [lia|].
  assert (0 <= dec ti / 4 <= dec ti); [|lia].
  split; [apply Z.div_pos; lia | apply Z.div_le_upper_bound; lia].
Qed.

(** X13.  [optimizeForCashFlow] multiplies before it divides: its result
    decrypts to [(payment * 90 mod 2^32) / 100], which is ninety percent of
    the payment exactly when the payment is at most 47721858; above that the
    product wraps around. *)
Theorem cash_flow_target_wraps s loanId :
  isCalculated (sload (amortizationSchedules s) loanId) = true ->
  exists target,
    optimizeForCashFlow s loanId = Ok target
    /\ dec target
       = wrap32 (dec (encryptedMonthlyPayment
                        (sload (amortizationSchedules s) loanId)) * 90) / 100
    /\ (dec target
        = dec (encryptedMonthlyPayment
                 (sload (amortizationSchedules s) loanId)) * 90 / 100
        <-> dec (encryptedMonthlyPayment
                   (sload (amortizationSchedules s) loanId)) <= CASH_FLOW_BOUND).
Proof.
  intros Hc. unfold optimizeForCashFlow. rewrite Hc. cbn [require bind].
  eexists. split; [reflexivity|].
  set (mp := encryptedMonthlyPayment (sload (amortizationSchedules s) loanId)).
  pose proof (dec_range mp) as Hmp. unfold MAX_UINT32 in Hmp.
  assert (Ht : dec (FHE_div (FHE_mul mp (FHE_asEuint32 90)) (FHE_asEuint32 100))
               = wrap32 (dec mp * 90) / 100).
  { rewrite dec_div_const by (unfold MAX_UINT32; lia).
    rewrite dec_mul, dec_const by (unfold MAX_UINT32; lia). done. }
  split; [done|]. rewrite Ht. unfold CASH_FLOW_BOUND, wrap32. split.
  - intros Heq.
    destruct (Z_le_gt_dec (dec mp) 47721858) as [|Hbig]; [done|]. exfalso.
    assert (Hq : 1 <= dec mp * 90 / 2 ^ 32) by (apply Z.div_le_lower_bound; lia).
    pose proof (Z.div_mod (dec mp * 90) (2 ^ 32) ltac:(lia)) as Hdm.
    assert (Hlt : (dec mp * 90) mod 2 ^ 32 <= dec mp * 90 - 2 ^ 32) by nia.
    assert (Hd : (dec mp * 90) mod 2 ^ 32 / 100
                 <= (dec mp * 90 - 2 ^ 32) / 100)
      by (apply Z.div_le_mono; lia).
    assert (Hs : (dec mp * 90 - 2 ^ 32) / 100 < dec mp * 90 / 100).
    { apply Z.div_lt_upper_bound; [lia|].
      pose proof (Z.mul_div_le (dec mp * 90) 100 ltac:(lia)).
      pose proof (Z.mod_pos_bound (dec mp * 90) 100 ltac:(lia)).
      pose proof (Z.div_mod (dec mp * 90) 100 ltac:(lia)). lia. }
    lia.
  - intros Hsmall. rewrite Z.mod_small; [done|]. lia.
Qed.

(** X14.  A yearly rate from 1200 up to 2399 gives a monthly rate of one;
    with a term of 32 months or more, [(1 + 1)^term] is a multiple of
    [2^32], the numerator wraps to zero, and the monthly payment of the
    calculated schedule decrypts to zero, whatever the principal. *)
Theorem amortize_power_wraps (loan : EncryptedLoan) :
  1200 <= dec (encryptedInterestRate loan) < 2400 ->
  32 <= dec (encryptedTerm loan) <= POW_EXPONENT_BOUND ->
  dec (encryptedMonthlyPayment (amortize loan)) = 0
  /\ dec (encryptedTotalInterest (amortize loan))
     = wrap32 (- dec (encryptedPrincipal loan)).
Proof.
  intros Hrate Hterm. cbn [amortize encryptedMonthlyPayment encryptedTotalInterest].
  set (rate := encryptedInterestRate loan) in *.
  set (term := encryptedTerm loan) in *.
  set (mr := FHE_div rate (FHE_asEuint32 1200)).
  assert (Hmr : dec mr = 1).
  { unfold mr. rewrite dec_div_const by (unfold MAX_UINT32; lia).
    symmetry. apply Z.div_unique with (r := dec rate - 1200); lia. }
  assert (Hbase : dec (FHE_add (FHE_asEuint32 1) mr) = 2).
  { rewrite dec_add, dec_const, Hmr by (unfold MAX_UINT32; lia). reflexivity. }
  assert (Hpow : dec (FHE_pow (FHE_add (FHE_asEuint32 1) mr) term) = 0).
  { rewrite dec_pow by lia. rewrite Hbase. unfold wrap32.
    replace (dec term) with (32 + (dec term - 32)) by lia.
    rewrite Z.pow_add_r by lia. apply Z.mod_divide; [lia|].
    by apply Z.divide_factor_l. }
  assert (Hmp : dec (FHE_div
                       (FHE_mul (FHE_mul (encryptedPrincipal loan) mr)
                          (FHE_pow (FHE_add (FHE_asEuint32 1) mr) term))
                       (FHE_sub (FHE_pow (FHE_add (FHE_asEuint32 1) mr) term)
                          (FHE_asEuint32 1))) = 0).
  { rewrite dec_div, dec_sub, dec_mul, Hpow, dec_const
      by (unfold MAX_UINT32; lia).
    rewrite Z.mul_0_r. reflexivity. }
  split; [done|].
  rewrite dec_sub, dec_mul, Hmp. by rewrite Z.mul_0_l.
Qed.

(** X15.  The analytic functions divide without a guard.  With a principal
    below 10 the estimated income [principal / 10] is zero, and
    debt-to-income and affordability decrypt to the engine's answer to a
    division by zero; so does the prepayment risk of a loan whose principal
    decrypts to zero. *)
Theorem analytic_divisions_by_zero s loanId :
  (isCalculated (sload (amortizationSchedules s) loanId) = true ->
   dec (encryptedPrincipal (sload (encryptedLoans s) loanId)) < 10 ->
   exists dti aff,
     calculateDebtToIncome s loanId = Ok dti
     /\ calculateAffordability s loanId = Ok aff
     /\ dec dti = div_by_zero /\ dec aff = div_by_zero)
  /\ (dec (encryptedPrincipal (sload (encryptedLoans s) loanId)) = 0 ->
      exists risk,
        calculatePrepaymentRisk s loanId = Ok risk /\ dec risk = div_by_zero).
Proof.
  split.
  - intros Hc Hp. unfold calculateDebtToIncome, calculateAffordability.
    rewrite Hc. cbn [require bind]. eexists _, _.
    split; [reflexivity|]. split; [reflexivity|].
    set (p := encryptedPrincipal (sload (encryptedLoans s) loanId)) in *.
    pose proof (dec_range p) as Hr.
    assert (Hinc : dec (FHE_div p (FHE_asEuint32 10)) = 0).
    { rewrite dec_div_const by (unfold MAX_UINT32; lia).
      apply Z.div_small. lia. }
    split; rewrite dec_div, Hinc; reflexivity.
  - intros Hp. unfold calculatePrepaymentRisk. eexists. split; [reflexivity|].
    by rewrite dec_div, Hp.
Qed.

Section Select.
Context {Sel : SelectSemantics E Sem}.

(** X16.  The advice is one of three codes: on a calculated schedule
    [generatePersonalizedAdvice] decrypts to 1 when the interest savings
    exceed 1000, else to 2 when the payment-shock risk exceeds 15, else to
    3. *)
Theorem personalized_advice_codes s loanId :
  isCalculated (sload (amortizationSchedules s) loanId) = true ->
  exists savings risk advice,
    calculateInterestSavings s loanId = Ok savings
    /\ calculatePaymentShockRisk s loanId = Ok risk
    /\ generatePersonalizedAdvice s loanId = Ok advice
    /\ dec advice = (if 1000 <? dec savings then 1
                     else if 15 <? dec risk then 2 else 3).
Proof.
  intros Hc.
  unfold generatePersonalizedAdvice, calculateInterestSavings,
    calculatePaymentShockRisk.
  rewrite Hc. cbn [require bind]. eexists _, _, _.
  split; [reflexivity|]. split; [reflexivity|]. split; [reflexivity|].
  rewrite !dec_cmux, !dec_gt, !dec_const by (unfold MAX_UINT32; lia).
  reflexivity.
Qed.

(** X17.  [optimizePaymentStrategy] proposes the extra payment raised by
    100 (modulo [2^32]) when the savings ratio exceeds 15, and the extra
    payment as it is otherwise; [detectOverleveraging] is true exactly when
    the debt-to-income ratio exceeds 40. *)
Theorem payment_strategy_and_leverage s loanId :
  isCalculated (sload (amortizationSchedules s) loanId) = true ->
  exists savings strategy dti flag,
    calculateInterestSavings s loanId = Ok savings
    /\ optimizePaymentStrategy s loanId = Ok strategy
    /\ calculateDebtToIncome s loanId = Ok dti
    /\ detectOverleveraging s loanId = Ok flag
    /\ dec strategy
       = (if 15 <? dec (FHE_div (FHE_mul savings (FHE_asEuint32 100))
                          (encryptedTotalInterest
                             (sload (amortizationSchedules s) loanId)))
          then wrap32 (dec (encryptedExtraPayment
                              (sload (encryptedLoans s) loanId)) + 100)
          else dec (encryptedExtraPayment (sload (encryptedLoans s) loanId)))
    /\ dec_bool flag = (40 <? dec dti).
Proof.
  intros Hc.
  unfold optimizePaymentStrategy, detectOverleveraging,
    calculateInterestSavings, calculateDebtToIncome.
  rewrite Hc. cbn [require bind]. eexists _, _, _, _.
  do 4 (split; [reflexivity|]).
  rewrite dec_cmux, !dec_gt, dec_add, !dec_const by (unfold MAX_UINT32; lia).
  done.
Qed.

End Select.

End Formulas.

(** * More of the planner UI *)

Section PlannerStore.

Variable JSON_stringify : UI.json -> string.
Variable JSON_parse : string -> option UI.json.
Variable toUtf8Bytes : string -> bytes.
Variable toUtf8String : bytes -> option string.
Variable btoa : string -> option string.
Variable parseInt : string -> option Z.
Variable Number_toString : Z -> string.
Variable ToString : UI.json -> string.
Variable ToNumber : UI.json -> option Z.
Variable String_points : string -> list string.
Variable String_units : string -> list string.
Variable Array_sort :
  (Schedules.LoanSchedule -> Schedules.LoanSchedule -> option Z) ->
  list Schedules.LoanSchedule -> list Schedules.LoanSchedule.

Local Abbreviation submitSchedule :=
  (UI.submitSchedule JSON_stringify JSON_parse toUtf8Bytes toUtf8String btoa
                     parseInt Number_toString).
Local Abbreviation scheduleId := (UI.scheduleId Number_toString).
Local Abbreviation stored_keys := (UI.stored_keys JSON_parse toUtf8String).
Local Abbreviation keys_written := (UI.keys_written JSON_stringify toUtf8Bytes).
Local Abbreviation encode j := (toUtf8Bytes (JSON_stringify j)).
Local Abbreviation reads_back :=
  (Schedules.reads_back JSON_stringify JSON_parse toUtf8Bytes toUtf8String).
Local Abbreviation rewrite_status :=
  (Schedules.rewrite_status JSON_stringify JSON_parse toUtf8Bytes toUtf8String
                            Number_toString String_units).
Local Abbreviation with_status :=
  (Schedules.with_status Number_toString String_units).
Local Abbreviation loadSchedules :=
  (Schedules.loadSchedules JSON_parse toUtf8String ToString ToNumber
                           String_points Array_sort).
Local Abbreviation load_one :=
  (Schedules.load_one JSON_parse toUtf8String ToString).
Local Abbreviation iterate := (Schedules.iterate String_points).
Local Abbreviation template := (Schedules.template ToString).

(** The record a submission writes. *)
Local Abbreviation submitted_record env account f b64 :=
  (UI.schedule_record (UI.JStr ("FHE-" ++ b64))
     (UI.JNum (UI.date_now env / 1000))
     (UI.JStr account)
     (UI.JStr (UI.loanAmount f))
     (UI.number_json (parseInt (UI.term f)))
     (UI.JStr "pending")).

(** ** [submitSchedule]: what a failure leaves *)

(** X18.  The two writes of a submission are separate transactions.  A
    submission that fails never changes the index or any record but its
    own; it leaves the store as it was when it fails before the first write,
    and leaves its record stored, listed by no index entry, when it fails
    after it. *)
Theorem failed_submission_keeps_index env account f
    (st : gmap string (list byte)) :
  fst (submitSchedule env account f st) <> UI.Submitted ->
  snd (submitSchedule env account f st) !! "schedule_keys"%string
    = st !! "schedule_keys"%string
  /\ (forall key, key <> UI.schedule_key (scheduleId env) ->
       snd (submitSchedule env account f st) !! key = st !! key)
  /\ (UI.provider_connected env && UI.signer_available env
        && UI.first_setData_ok env = false
      \/ btoa (JSON_stringify (UI.form_json f)) = None ->
      snd (submitSchedule env account f st) = st)
  /\ (forall b64,
        UI.provider_connected env && UI.signer_available env
          && UI.first_setData_ok env = true ->
        btoa (JSON_stringify (UI.form_json f)) = Some b64 ->
        snd (submitSchedule env account f st)
          !! UI.schedule_key (scheduleId env)
        = Some (encode (submitted_record env account f b64))).
Proof.
  assert (Hid : scheduleId env <> "keys"%string) by apply dashed_not_keys.
  assert (Hkey : UI.schedule_key (scheduleId env) <> "schedule_keys"%string)
    by (by apply schedule_key_not_index).
  unfold UI.submitSchedule.
  destruct (UI.provider_connected env); cbn [negb andb fst snd];
    [|intros _; repeat split; try done; intros; discriminate].
  destruct (btoa _) as [b64|]; cbn [fst snd];
    [|intros _; repeat split; try done; intros; discriminate].
  destruct (UI.signer_available env); cbn [negb andb fst snd];
    [|intros _; repeat split; try done; intros; discriminate].
  destruct (UI.first_setData_ok env); cbn [negb andb fst snd];
    [|intros _; repeat split; try done; intros; discriminate].
  assert (Hleft :
    UI.setData (UI.schedule_key (scheduleId env))
      (encode (submitted_record env account f b64)) st
      !! "schedule_keys"%string = st !! "schedule_keys"%string
    /\ (forall key, key <> UI.schedule_key (scheduleId env) ->
         UI.setData (UI.schedule_key (scheduleId env))
           (encode (submitted_record env account f b64)) st !! key
         = st !! key)
    /\ (true = false \/ Some b64 = None ->
        UI.setData (UI.schedule_key (scheduleId env))
          (encode (submitted_record env account f b64)) st = st)
    /\ (forall b, true = true -> Some b64 = Some b ->
        UI.setData (UI.schedule_key (scheduleId env))
          (encode (submitted_record env account f b64)) st
          !! UI.schedule_key (scheduleId env)
        = Some (encode (submitted_record env account f b)))).
  { unfold UI.setData. split; [by rewrite lookup_insert_ne|].
    split; [intros key Hk; by rewrite lookup_insert_ne|].
    split; [by intros [|]|].
    intros b _ [= <-]. by rewrite lookup_insert_eq. }
  destruct (UI.getData_ok env); cbn [negb fst snd]; [|by intros _].
  destruct (UI.stored_keys _ _ _) as [keys|]; cbn [fst snd]; [|by intros _].
  destruct (UI.second_setData_ok env); cbn [negb fst snd]; [done | by intros _].
Qed.

(** X19.  An index that cannot be read is not repaired.  When the stored
    index is not empty and does not parse, a submission that goes through
    replaces it by an index of the new id alone, so the ids listed before
    are no longer listed; when it parses to something that is not an array,
    no submission goes through. *)
Theorem unreadable_index_is_replaced env account f
    (st : gmap string (list byte)) :
  (0 < length (UI.getData st "schedule_keys"))%nat ->
  (toUtf8String (UI.getData st "schedule_keys") ≫= JSON_parse = None ->
   forall st', submitSchedule env account f st = (UI.Submitted, st') ->
               keys_written st' [UI.JStr (scheduleId env)])
  /\ (forall parsed,
        toUtf8String (UI.getData st "schedule_keys") ≫= JSON_parse
          = Some parsed ->
        (forall items, parsed <> UI.JArr items) ->
        fst (submitSchedule env account f st) <> UI.Submitted).
Proof.
  intros Hlen.
  assert (Hlt : (0 <? length (UI.getData st "schedule_keys"))%nat = true)
    by by apply Nat.ltb_lt.
  split.
  - intros Hbad st' Hrun.
    destruct (submitSchedule_Submitted_shape _ _ _ _ _ _ _ _ _ _ _ _ Hrun)
      as (b64 & keys & _ & Hkeys & ->).
    unfold UI.stored_keys in Hkeys. rewrite Hlt, Hbad in Hkeys.
    injection Hkeys as <-.
    unfold UI.keys_written, UI.setData. by rewrite lookup_insert_eq.
  - intros parsed Hparsed Hnot Hrun.
    destruct (submitSchedule env account f st) as [out st'] eqn:Hsub.
    cbn [fst] in Hrun. subst out.
    destruct (submitSchedule_Submitted_shape _ _ _ _ _ _ _ _ _ _ _ _ Hsub)
      as (b64 & keys & _ & Hkeys & _).
    unfold UI.stored_keys in Hkeys. rewrite Hlt, Hparsed in Hkeys.
    destruct parsed; try discriminate. by apply (Hnot items).
Qed.

(** ** [activateSchedule] and [completeSchedule] *)

(** X20.  A status update reads and writes one key.  Whatever the status
    word, it leaves every other key as it was; when it does not go through
    the store is as it was; it does not go through when there is no record
    under the key; and when it goes through, the record is the parsed old one
    with the status set. *)
Theorem status_update_touches_one_record word env scheduleId
    (st : gmap string (list byte)) :
  (forall key, key <> UI.schedule_key scheduleId ->
     snd (rewrite_status word env scheduleId st) !! key = st !! key)
  /\ (fst (rewrite_status word env scheduleId st) <> Schedules.Updated ->
      snd (rewrite_status word env scheduleId st) = st)
  /\ (st !! UI.schedule_key scheduleId = None ->
      fst (rewrite_status word env scheduleId st) <> Schedules.Updated)
  /\ (fst (rewrite_status word env scheduleId st) = Schedules.Updated ->
      exists scheduleData,
        toUtf8String (UI.getData st (UI.schedule_key scheduleId)) ≫= JSON_parse
          = Some scheduleData
        /\ snd (rewrite_status word env scheduleId st)
             !! UI.schedule_key scheduleId
           = Some (encode (with_status word scheduleData))).
Proof.
  unfold Schedules.rewrite_status.
  destruct (Schedules.provider_connected env); cbn [negb fst snd];
    [|by repeat split].
  destruct (Schedules.signer_available env); cbn [negb fst snd];
    [|by repeat split].
  destruct (Schedules.getData_ok env); cbn [negb fst snd];
    [|by repeat split].
  destruct (length (UI.getData st (UI.schedule_key scheduleId)) =? 0)%nat
    eqn:Hlen; cbn [fst snd]; [by repeat split|].
  destruct (toUtf8String _ ≫= JSON_parse) as [scheduleData|] eqn:Hparse;
    cbn [fst snd]; [|by repeat split].
  destruct (Schedules.setData_ok env); cbn [negb fst snd];
    [|by repeat split].
  unfold UI.setData. repeat split; try done.
  - intros key Hkey. by rewrite lookup_insert_ne.
  - intros Hnone _. unfold UI.getData in Hlen. by rewrite Hnone in Hlen.
  - intros _. exists scheduleData. by rewrite lookup_insert_eq.
Qed.

Lemma with_status_record word d t o a m s0 :
  with_status word (UI.schedule_record d t o a m s0)
  = UI.schedule_record d t o a m (UI.JStr word).
Proof. reflexivity. Qed.

(** X21.  On a record in the format of [submitSchedule] that the store
    gives back as written, a status update that is not interrupted goes
    through and changes the status only: data, timestamp, owner, loanAmount
    and term are the same, in the same order.  Updates compose, and no order
    is enforced: a second update on the result gives the record with the
    second status word, whatever the first was, so completing an active
    schedule, activating a completed one and repeating an update all go
    through. *)
Theorem status_update_keeps_fields first env scheduleId
    (st : gmap string (list byte)) d t o a m s0 :
  Schedules.provider_connected env = true ->
  Schedules.signer_available env = true ->
  Schedules.getData_ok env = true ->
  Schedules.setData_ok env = true ->
  st !! UI.schedule_key scheduleId
    = Some (encode (UI.schedule_record d t o a m s0)) ->
  reads_back (UI.schedule_record d t o a m s0) ->
  rewrite_status first env scheduleId st
  = (Schedules.Updated,
     <[UI.schedule_key scheduleId :=
         encode (UI.schedule_record d t o a m (UI.JStr first))]> st)
  /\ (reads_back (UI.schedule_record d t o a m (UI.JStr first)) ->
      forall second,
        rewrite_status second env scheduleId
          (snd (rewrite_status first env scheduleId st))
        = (Schedules.Updated,
           <[UI.schedule_key scheduleId :=
               encode (UI.schedule_record d t o a m (UI.JStr second))]> st)).
Proof.
  intros Hp Hs Hg Hw Hrec Hback0.
  assert (Hstep : forall word (st0 : gmap string (list byte)) s1,
            st0 !! UI.schedule_key scheduleId
              = Some (encode (UI.schedule_record d t o a m s1)) ->
            reads_back (UI.schedule_record d t o a m s1) ->
            rewrite_status word env scheduleId st0
            = (Schedules.Updated,
               <[UI.schedule_key scheduleId :=
                   encode (UI.schedule_record d t o a m (UI.JStr word))]> st0)).
  { intros word st0 s1 Hst0 [Hlen Hparse].
    unfold Schedules.rewrite_status, UI.getData.
    rewrite Hp, Hs, Hg, Hw, Hst0. cbn [negb default from_option id].
    destruct (Nat.eqb_spec
                (length (encode (UI.schedule_record d t o a m s1))) 0)
      as [Hz|_]; [lia|].
    by rewrite Hparse, with_status_record. }
  split; [by apply (Hstep first st s0)|].
  intros Hback1 second.
  rewrite (Hstep first st s0) by done. cbn [snd].
  rewrite (Hstep second _ (UI.JStr first));
    [|by rewrite lookup_insert_eq|done].
  by rewrite insert_insert_eq.
Qed.

(** ** [loadSchedules] *)

Lemma falsy_status st0 :
  Schedules.falsy
    (Some (if Schedules.falsy st0 then UI.JStr "pending"
           else default UI.JNull st0)) = false.
Proof.
  destruct (Schedules.falsy st0) eqn:Hf; [done|].
  destruct st0 as [v|]; [done | discriminate].
Qed.

Lemma load_one_Some env (st : gmap string (list byte)) key x :
  load_one env st key = Some x ->
  Schedules.schedule_id x = key
  /\ Schedules.falsy (Some (Schedules.status x)) = false
  /\ (0 < length (UI.getData st (UI.schedule_key (template key))))%nat.
Proof.
  unfold Schedules.load_one.
  destruct (Schedules.record_read_ok env key); cbn [negb]; [|discriminate].
  destruct (0 <? length _)%nat eqn:Hlen; [|discriminate].
  apply Nat.ltb_lt in Hlen.
  destruct (toUtf8String _ ≫= JSON_parse) as [scheduleData|]; [|discriminate].
  destruct (Schedules.property scheduleData "data"); [|discriminate].
  destruct (Schedules.property scheduleData "timestamp"); [|discriminate].
  destruct (Schedules.property scheduleData "owner"); [|discriminate].
  destruct (Schedules.property scheduleData "loanAmount"); [|discriminate].
  destruct (Schedules.property scheduleData "term"); [|discriminate].
  destruct (Schedules.property scheduleData "status") as [st0|];
    [|discriminate].
  intros [= <-]. cbn [Schedules.schedule_id Schedules.status].
  split; [done|]. split; [apply falsy_status | done].
Qed.

Lemma omap_length_le {A B} (f : A -> option B) (l : list A) :
  (length (omap f l) <= length l)%nat.
Proof.
  induction l as [|a l IH]; cbn [omap list_omap length]; [lia|].
  destruct (f a); cbn [length]; lia.
Qed.

Section Sorting.

(** What is used of [Array.prototype.sort]: it rearranges. *)
Hypothesis sort_permutes : forall compare l,
  Permutation (Array_sort compare l) l.

(** X22.  Every entry [loadSchedules] shows comes from the index.  When
    the bytes stored under [schedule_keys] are not empty and parse to an
    array, the ids of the entries shown are, up to the order the sort gives
    them, a sublist of that array: each item of the index is shown at most
    as often as it is listed, and nothing else is shown.  A record that is
    missing, empty, unreadable or [null] is skipped without failing the
    load; the record of an entry shown is stored and not empty, and its
    status is never empty ([pending] stands in for a missing or empty one).
    When the index is empty or does not parse, the list is empty. *)
Theorem loaded_entries_come_from_the_index env
    (st : gmap string (list byte)) l :
  loadSchedules env st = Some l ->
  (forall items,
     (0 < length (UI.getData st "schedule_keys"))%nat ->
     toUtf8String (UI.getData st "schedule_keys") ≫= JSON_parse
       = Some (UI.JArr items) ->
     (exists shown,
        shown `sublist_of` items
        /\ Permutation (map Schedules.schedule_id l) shown)
     /\ (length l <= length items)%nat
     /\ forall x, In x l ->
          In (Schedules.schedule_id x) items
          /\ Schedules.falsy (Some (Schedules.status x)) = false
          /\ (0 < length (UI.getData st
                            (UI.schedule_key
                               (template (Schedules.schedule_id x)))))%nat)
  /\ ((length (UI.getData st "schedule_keys") = 0)%nat
      \/ toUtf8String (UI.getData st "schedule_keys") ≫= JSON_parse = None ->
      l = []).
Proof.
  unfold Schedules.loadSchedules.
  destruct (Schedules.readonly_available env); cbn [negb]; [|discriminate].
  destruct (Schedules.isAvailable env) as [[|]|]; try discriminate.
  destruct (Schedules.keys_read_ok env); cbn [negb]; [|discriminate].
  cbn zeta.
  destruct (iterate _) as [listed|] eqn:Hit; [|discriminate].
  intros [= <-]. split.
  - intros items Hlen Hparse. apply Nat.ltb_lt in Hlen.
    rewrite Hlen, Hparse in Hit. cbn [Schedules.iterate] in Hit.
    injection Hit as <-.
    assert (Hsub : map Schedules.schedule_id (omap (load_one env st) items)
                   `sublist_of` items).
    { clear Hlen Hparse. induction items as [|key items IH];
        cbn [omap list_omap map]; [constructor|].
      destruct (load_one env st key) as [x|] eqn:Hload.
      - apply load_one_Some in Hload as (Hid & _). cbn [map].
        rewrite Hid. by apply sublist_skip.
      - by apply sublist_cons. }
    split; [|split].
    + eexists. split; [exact Hsub|].
      apply Permutation_map, sort_permutes.
    + rewrite (Permutation_length (sort_permutes _ _)). apply omap_length_le.
    + intros x Hx.
      apply (Permutation_in _ (sort_permutes _ _)) in Hx.
      apply list_elem_of_In, list_elem_of_omap in Hx as (key & Hkey & Hload).
      apply list_elem_of_In in Hkey.
      apply load_one_Some in Hload as (-> & Hst & Hlen'). done.
  - intros Hbad.
    assert (Hnone : listed = []).
    { destruct Hbad as [Hzero|Hnoparse].
      - rewrite Hzero in Hit. cbn in Hit. by injection Hit as <-.
      - rewrite Hnoparse in Hit.
        destruct (0 <? length _)%nat; cbn in Hit; by injection Hit as <-. }
    subst listed. cbn [omap list_omap].
    by apply Permutation_nil, Permutation_sym.
Qed.

(** X23.  What is submitted is shown.  After a submission that went
    through, when the store gives back the index and the record as written
    and the reads go through, [loadSchedules] lists an entry with the new id
    and the fields as submitted: the data, the timestamp in seconds, the
    owner, the loan amount, the term, and the status [pending]. *)
Theorem submitted_schedule_is_loaded env account f
    (st st' : gmap string (list byte)) lenv b64 keys :
  submitSchedule env account f st = (UI.Submitted, st') ->
  btoa (JSON_stringify (UI.form_json f)) = Some b64 ->
  stored_keys st = Some keys ->
  reads_back (UI.JArr (keys ++ [UI.JStr (scheduleId env)])) ->
  reads_back (submitted_record env account f b64) ->
  Schedules.readonly_available lenv = true ->
  Schedules.isAvailable lenv = Some true ->
  Schedules.keys_read_ok lenv = true ->
  Schedules.record_read_ok lenv (UI.JStr (scheduleId env)) = true ->
  exists l,
    loadSchedules lenv st' = Some l
    /\ In {| Schedules.schedule_id := UI.JStr (scheduleId env);
             Schedules.encryptedData := Some (UI.JStr ("FHE-" ++ b64));
             Schedules.timestamp := Some (UI.JNum (UI.date_now env / 1000));
             Schedules.owner := Some (UI.JStr account);
             Schedules.loanAmount := Some (UI.JStr (UI.loanAmount f));
             Schedules.term := Some (UI.number_json (parseInt (UI.term f)));
             Schedules.status := UI.JStr "pending" |} l.
Proof.
  intros Hrun Hb64 Hkeys [Hklen Hkparse] [Hrlen Hrparse] Hro Hav Hkr Hrr.
  destruct (submitSchedule_Submitted_shape _ _ _ _ _ _ _ _ _ _ _ _ Hrun)
    as (b64' & keys' & Hb64' & Hkeys' & ->).
  rewrite Hb64 in Hb64'. injection Hb64' as <-.
  rewrite Hkeys in Hkeys'. injection Hkeys' as <-.
  assert (Hid : scheduleId env <> "keys"%string) by apply dashed_not_keys.
  unfold Schedules.loadSchedules. rewrite Hro, Hav, Hkr. cbn [negb].
  unfold UI.getData at 1 2. unfold UI.setData at 1 3.
  rewrite !lookup_insert_eq. cbn [default from_option id].
  apply Nat.ltb_lt in Hklen. rewrite Hklen, Hkparse.
  cbn [Schedules.iterate]. eexists. split; [reflexivity|].
  apply (Permutation_in _ (Permutation_sym (sort_permutes _ _))).
  apply list_elem_of_In, list_elem_of_omap.
  exists (UI.JStr (scheduleId env)). split.
  - apply list_elem_of_In, in_or_app. right. by left.
  - unfold Schedules.load_one. rewrite Hrr. cbn [negb Schedules.template].
    unfold UI.getData, UI.setData.
    rewrite lookup_insert_ne
      by (apply not_eq_sym; by apply schedule_key_not_index).
    rewrite lookup_insert_eq. cbn [default from_option id].
    apply Nat.ltb_lt in Hrlen. rewrite Hrlen, Hrparse. reflexivity.
Qed.

End Sorting.

(** ** The statistics panel *)

(** X24.  The three counters never exceed the number of schedules, and
    they add up to it exactly when every schedule's status is one of
    [active], [pending] and [completed]; a schedule stored with any other
    status is shown in the list and counted nowhere. *)
Theorem status_counters (schedules : list Schedules.LoanSchedule) :
  (Schedules.activeCount schedules + Schedules.pendingCount schedules
   + Schedules.completedCount schedules <= length schedules)%nat
  /\ ((Schedules.activeCount schedules + Schedules.pendingCount schedules
       + Schedules.completedCount schedules = length schedules)%nat
      <-> Forall (fun x =>
                    Schedules.has_status "active" x
                    || Schedules.has_status "pending" x
                    || Schedules.has_status "completed" x = true)
                 schedules).
Proof.
  unfold Schedules.activeCount, Schedules.pendingCount,
    Schedules.completedCount.
  induction schedules as [|x l [IHle IHeq]]; [by split|].
  assert (Hone : (Schedules.has_status "active" x = true
                  /\ Schedules.has_status "pending" x = false
                  /\ Schedules.has_status "completed" x = false)
                 \/ (Schedules.has_status "active" x = false
                     /\ Schedules.has_status "pending" x = true
                     /\ Schedules.has_status "completed" x = false)
                 \/ (Schedules.has_status "active" x = false
                     /\ Schedules.has_status "pending" x = false
                     /\ Schedules.has_status "completed" x = true)
                 \/ (Schedules.has_status "active" x = false
                     /\ Schedules.has_status "pending" x = false
                     /\ Schedules.has_status "completed" x = false)).
  { unfold Schedules.has_status.
    destruct (Schedules.status x) as [|b|n|s|items|fields];
      try (by right; right; right).
    destruct (String.eqb_spec s "active") as [->|]; [by left|].
    destruct (String.eqb_spec s "pending") as [->|]; [by right; left|].
    destruct (String.eqb_spec s "completed") as [->|]; [by right; right; left|].
    by right; right; right. }
  cbn [List.filter].
  destruct Hone as [(Hact & Hpen & Hcom)|[(Hact & Hpen & Hcom)
                   |[(Hact & Hpen & Hcom)|(Hact & Hpen & Hcom)]]];
    rewrite Hact, Hpen, Hcom;
    cbn [length orb]; (split; [lia|]); rewrite Forall_cons; cbn beta;
    try rewrite Hact; try rewrite Hpen; try rewrite Hcom; cbn [orb].
  - split; [intros H; split; [reflexivity|apply IHeq; lia]
           | intros [_ H%IHeq]; lia].
  - split; [intros H; split; [reflexivity|apply IHeq; lia]
           | intros [_ H%IHeq]; lia].
  - split; [intros H; split; [reflexivity|apply IHeq; lia]
           | intros [_ H%IHeq]; lia].
  - split; [intros H; lia | intros [H _]; discriminate H].
Qed.

End PlannerStore.

(** * Concrete runs of the invariants, the formulas and the planner *)

Lemma ref_gt_dec a b : negb (Ref.gt a b =? 0) = (wrap32 b <? wrap32 a).
Proof. unfold Ref.gt. by destruct (wrap32 b <? wrap32 a). Qed.

Lemma ref_cmux_dec c a b :
  wrap32 (Ref.cmux c a b) = if negb (c =? 0) then wrap32 a else wrap32 b.
Proof. unfold Ref.cmux. by destruct (c =? 0). Qed.

(** The reference engine meets the contract of comparison and select. *)
#[global] Instance ref_select : SelectSemantics Ref.engine RefFacts.semantics :=
  Build_SelectSemantics Ref.engine RefFacts.semantics
    (fun c => negb (c =? 0)) ref_gt_dec ref_cmux_dec.

(** The sort of the stand-in runtime rearranges. *)
Lemma insert_sorted_Permutation {A} (compare : A -> A -> option Z) x l :
  Permutation (Browser.insert_sorted compare x l) (x :: l).
Proof.
  induction l as [|y l IH]; cbn [Browser.insert_sorted]; [done|].
  destruct (Browser.goes_after compare x y); [|done].
  rewrite IH. apply perm_swap.
Qed.

Lemma Array_sort_Permutation {A} (compare : A -> A -> option Z) l :
  Permutation (Browser.Array_sort compare l) l.
Proof.
  unfold Browser.Array_sort.
  induction l as [|x l IH]; cbn [foldr]; [done|].
  rewrite insert_sorted_Permutation. by apply perm_skip.
Qed.

Lemma request_of_calculated :
  requestScheduleDecryption Example.alice 1 Example.calculated
  = Ok Example.requested.
Proof.
  assert (Hs : succeeds (requestScheduleDecryption Example.alice 1
                           Example.calculated) = true)
    by (vm_compute; reflexivity).
  unfold Example.requested, transact. cbn [execute].
  destruct (requestScheduleDecryption Example.alice 1 Example.calculated);
    [reflexivity | discriminate Hs].
Qed.

Lemma resolution_of_requested :
  decryptAmortizationSchedule Example.oracle 0 Example.cleartexts Example.proof
    Example.requested = Ok Example.resolved.
Proof.
  assert (Hs : succeeds (decryptAmortizationSchedule Example.oracle 0
                           Example.cleartexts Example.proof Example.requested)
               = true) by (vm_compute; reflexivity).
  unfold Example.resolved, transact. cbn [execute].
  destruct (decryptAmortizationSchedule Example.oracle 0 Example.cleartexts
              Example.proof Example.requested); [reflexivity | discriminate Hs].
Qed.

(** X2, witness: the administrator authorizes the advisor. *)
Lemma advisor_role_granted_by_admin_only_witness :
  sload (financialAdvisors
           (transact Example.admin (AuthorizeAdvisor Example.advisor)
              Example.deployed)) Example.advisor = true.
Proof.
  refine (proj2 (advisor_role_granted_by_admin_only Example.admin
                   (AuthorizeAdvisor Example.advisor) Example.deployed
                   Example.advisor) _).
  right. split; [reflexivity | vm_compute; reflexivity].
Defined.

(** X3, witness: a submission by alice after the advisor is authorized. *)
Lemma submitEncryptedLoan_stores_witness :
  loanCount Example.authorized < MAX_UINT256
  /\ exists s',
       submitEncryptedLoan Example.alice 1700000000 10000 500 36 0
         Example.authorized = Ok s'
       /\ getEncryptedLoan s' (loanCount s')
          = (Example.alice, 10000, 500, 36, 0, 1700000000).
Proof.
  assert (H : loanCount Example.authorized < MAX_UINT256)
    by (vm_compute; reflexivity).
  split; [exact H|].
  destruct (proj2 (submitEncryptedLoan_stores Example.alice 1700000000 10000
                     500 36 0 Example.authorized) H)
    as (s' & Hs & _ & Hloan & _).
  exists s'. split; [exact Hs | exact Hloan].
Defined.

(** X4, witness: loan 1 through a calculation and another submission. *)
Lemma loan_record_is_final_witness :
  getEncryptedLoan
    (run [ (Example.advisor, CalculateAmortization 1);
           (Example.mallory, SubmitEncryptedLoan 1700000200 1 1 1 1) ]
       Example.submitted) 1
  = getEncryptedLoan Example.submitted 1.
Proof.
  refine (loan_record_is_final _ Example.submitted 1 _).
  vm_compute; discriminate.
Defined.

(** X5, witness: loan 1 of the submitted state. *)
Lemma loans_are_one_to_loanCount_witness :
  is_Some (encryptedLoans Example.submitted !! 1)
  /\ loan_id (sload (encryptedLoans Example.submitted) 1) = 1.
Proof.
  assert (H : 1 <= 1 <= loanCount Example.submitted)
    by (split; vm_compute; discriminate).
  destruct (loans_are_one_to_loanCount Example.submitted 1 reachable_submitted)
    as [Hiff Hid].
  split; [exact (proj2 Hiff H) | exact (Hid H)].
Defined.

(** X6, witness: loan 1 is in alice's list. *)
Lemma borrowerLoans_lists_own_loans_witness :
  In 1 (sload (borrowerLoans Example.submitted) Example.alice).
Proof.
  refine (proj2 (proj2 (borrowerLoans_lists_own_loans Example.submitted
                          Example.alice reachable_submitted) 1) _).
  split; [split; vm_compute; discriminate | vm_compute; reflexivity].
Defined.

(** X7, witness: the log of the submitted state. *)
Lemma one_event_per_loan_witness :
  submitted_count (events Example.submitted) = loanCount Example.submitted.
Proof. exact (one_event_per_loan Example.submitted reachable_submitted). Defined.

(** X8, witness: the revealed loan 1 through a further request, a replay of
    the callback and a further calculation. *)
Lemma revealed_plaintext_is_final_witness :
  getDecryptedSchedule
    (run [ (Example.alice, RequestScheduleDecryption 1);
           (Example.oracle,
            DecryptAmortizationSchedule 0 Example.cleartexts Example.proof);
           (Example.advisor, CalculateAmortization 1) ]
       Example.resolved) 1
  = getDecryptedSchedule Example.resolved 1.
Proof.
  refine (revealed_plaintext_is_final _ Example.resolved 1 _ _).
  - vm_compute; discriminate.
  - vm_compute; reflexivity.
Defined.

(** X9, witness: alice's request for the calculated loan 1. *)
Lemma requestScheduleDecryption_effect_witness :
  requestScheduleDecryption Example.alice 1 Example.calculated
    = Ok Example.requested
  /\ events Example.requested = events Example.calculated
  /\ succeeds (requestScheduleDecryption Example.alice 1 Example.requested)
     = true.
Proof.
  split; [exact request_of_calculated|].
  destruct (requestScheduleDecryption_effect _ _ _ _ request_of_calculated)
    as (_ & _ & _ & Hev & _ & _ & _ & _ & _ & Hagain).
  split; [exact Hev | exact Hagain].
Defined.

(** X10, witness: the interest savings of the calculated loan 1. *)
Lemma analytic_succeeds_iff_calculated_witness :
  succeeds (analytic InterestSavings Example.calculated 1) = true.
Proof.
  refine (proj2 (analytic_succeeds_iff_calculated InterestSavings
                   Example.calculated 1 _) _).
  - discriminate.
  - vm_compute; reflexivity.
Defined.

(** X11, witness: the request and the callback of the scenario. *)
Lemma reveal_is_decryption_of_schedule_witness :
  getDecryptedSchedule Example.resolved 1
  = (wrap32 (encryptedMonthlyPayment
               (sload (amortizationSchedules Example.calculated) 1)),
     wrap32 (encryptedTotalInterest
               (sload (amortizationSchedules Example.calculated) 1)),
     wrap32 (encryptedPayoffTime
               (sload (amortizationSchedules Example.calculated) 1)), true).
Proof.
  assert (Hid :
    fst (FHE_requestDecryption (fhe Example.calculated)
           [ FHE_toBytes32 (encryptedMonthlyPayment
                              (sload (amortizationSchedules Example.calculated) 1));
             FHE_toBytes32 (encryptedTotalInterest
                              (sload (amortizationSchedules Example.calculated) 1));
             FHE_toBytes32 (encryptedPayoffTime
                              (sload (amortizationSchedules Example.calculated) 1)) ])
    = 0) by (vm_compute; reflexivity).
  refine (proj1 (reveal_is_decryption_of_schedule (Sem := RefFacts.semantics)
                   Example.calculated Example.alice 1 Example.requested []
                   Example.oracle Example.cleartexts Example.proof
                   Example.resolved reachable_calculated _
                   request_of_calculated _ _)).
  - vm_compute; discriminate.
  - reflexivity.
  - rewrite Hid. exact resolution_of_requested.
Defined.

(** X12, witness: the calculated loan 1. *)
Lemma tax_benefit_and_net_cost_witness :
  exists benefit cost,
    estimateTaxBenefit Example.calculated 1 = Ok benefit
    /\ estimateNetCost Example.calculated 1 = Ok cost
    /\ wrap32 benefit
       = wrap32 (encryptedTotalInterest
                   (sload (amortizationSchedules Example.calculated) 1)) / 4
    /\ wrap32 benefit + wrap32 cost
       = wrap32 (encryptedTotalInterest
                   (sload (amortizationSchedules Example.calculated) 1)).
Proof.
  refine (tax_benefit_and_net_cost (Sem := RefFacts.semantics)
            Example.calculated 1 _).
  vm_compute; reflexivity.
Defined.

(** X13, witness: the calculated loan 1, whose payment is above the bound. *)
Lemma cash_flow_target_wraps_witness :
  exists target,
    optimizeForCashFlow Example.calculated 1 = Ok target
    /\ wrap32 target
       = wrap32 (wrap32 (encryptedMonthlyPayment
                           (sload (amortizationSchedules Example.calculated) 1))
                 * 90) / 100
    /\ (wrap32 target
        = wrap32 (encryptedMonthlyPayment
                    (sload (amortizationSchedules Example.calculated) 1))
          * 90 / 100
        <-> wrap32 (encryptedMonthlyPayment
                      (sload (amortizationSchedules Example.calculated) 1))
            <= CASH_FLOW_BOUND).
Proof.
  refine (cash_flow_target_wraps (Sem := RefFacts.semantics)
            Example.calculated 1 _).
  vm_compute; reflexivity.
Defined.

(** X14, witness: a loan at a yearly rate of 1200 over 36 months. *)
Lemma amortize_power_wraps_witness :
  wrap32 (encryptedMonthlyPayment
            (amortize (E := Ref.engine) Inputs.doubling_loan)) = 0
  /\ wrap32 (encryptedTotalInterest
               (amortize (E := Ref.engine) Inputs.doubling_loan))
     = wrap32 (- wrap32 (encryptedPrincipal Inputs.doubling_loan)).
Proof.
  refine (amortize_power_wraps (Sem := RefFacts.semantics)
            Inputs.doubling_loan _ _).
  - vm_compute. split; [discriminate | reflexivity].
  - vm_compute. split; discriminate.
Defined.

(** X15, witness: loan id 1 calculated before any submission, and loan id 7
    of the fresh contract. *)
Lemma analytic_divisions_by_zero_witness :
  (exists dti aff,
     calculateDebtToIncome (run Example.early_calculation Example.deployed) 1
       = Ok dti
     /\ calculateAffordability (run Example.early_calculation Example.deployed) 1
        = Ok aff
     /\ wrap32 dti = MAX_UINT32 /\ wrap32 aff = MAX_UINT32)
  /\ exists risk,
       calculatePrepaymentRisk Example.deployed 7 = Ok risk
       /\ wrap32 risk = MAX_UINT32.
Proof.
  split.
  - refine (proj1 (analytic_divisions_by_zero (Sem := RefFacts.semantics)
                     (run Example.early_calculation Example.deployed) 1) _ _).
    + vm_compute; reflexivity.
    + vm_compute; reflexivity.
  - refine (proj2 (analytic_divisions_by_zero (Sem := RefFacts.semantics)
                     Example.deployed 7) _).
    vm_compute; reflexivity.
Defined.

(** X16, witness: the calculated loan 1. *)
Lemma personalized_advice_codes_witness :
  exists savings risk advice,
    calculateInterestSavings Example.calculated 1 = Ok savings
    /\ calculatePaymentShockRisk Example.calculated 1 = Ok risk
    /\ generatePersonalizedAdvice Example.calculated 1 = Ok advice
    /\ wrap32 advice = (if 1000 <? wrap32 savings then 1
                        else if 15 <? wrap32 risk then 2 else 3).
Proof.
  refine (personalized_advice_codes (Sel := ref_select) Example.calculated 1 _).
  vm_compute; reflexivity.
Defined.

(** X17, witness: the calculated loan 1. *)
Lemma payment_strategy_and_leverage_witness :
  exists savings strategy dti flag,
    calculateInterestSavings Example.calculated 1 = Ok savings
    /\ optimizePaymentStrategy Example.calculated 1 = Ok strategy
    /\ calculateDebtToIncome Example.calculated 1 = Ok dti
    /\ detectOverleveraging Example.calculated 1 = Ok flag
    /\ wrap32 strategy
       = (if 15 <? wrap32 (Ref.div (Ref.mul savings (Ref.asEuint32 100))
                             (encryptedTotalInterest
                                (sload (amortizationSchedules Example.calculated)
                                   1)))
          then wrap32 (wrap32 (encryptedExtraPayment
                                 (sload (encryptedLoans Example.calculated) 1))
                       + 100)
          else wrap32 (encryptedExtraPayment
                         (sload (encryptedLoans Example.calculated) 1)))
    /\ negb (flag =? 0) = (40 <? wrap32 dti).
Proof.
  refine (payment_strategy_and_leverage (Sel := ref_select)
            Example.calculated 1 _).
  vm_compute; reflexivity.
Defined.

(** X18, witness: a second submission whose index write fails. *)
Lemma failed_submission_keeps_index_witness :
  fst (Browser.submit Inputs.interrupted Runtime.account Runtime.form
         Runtime.after_first) <> UI.Submitted
  /\ snd (Browser.submit Inputs.interrupted Runtime.account Runtime.form
            Runtime.after_first) !! "schedule_keys"%string
     = Runtime.after_first !! "schedule_keys"%string.
Proof.
  assert (H : fst (Browser.submit Inputs.interrupted Runtime.account
                     Runtime.form Runtime.after_first) <> UI.Submitted)
    by (vm_compute; discriminate).
  split; [exact H|].
  exact (proj1 (failed_submission_keeps_index Runtime.JSON_stringify
                  Browser.JSON_parse Runtime.toUtf8Bytes Runtime.toUtf8String
                  Runtime.btoa Runtime.parseInt Runtime.Number_toString
                  Inputs.interrupted Runtime.account Runtime.form
                  Runtime.after_first H)).
Defined.

(** X19, witness: a submission on an index that is no JSON text, and one on
    an index that is an object. *)
Lemma unreadable_index_is_replaced_witness :
  UI.keys_written Runtime.JSON_stringify Runtime.toUtf8Bytes
    (snd (Browser.submit Runtime.first_run Runtime.account Runtime.form
            Inputs.broken_index))
    [UI.JStr (UI.scheduleId Runtime.Number_toString Runtime.first_run)]
  /\ fst (Browser.submit Runtime.first_run Runtime.account Runtime.form
            Inputs.object_index) <> UI.Submitted.
Proof.
  assert (Hf : fst (Browser.submit Runtime.first_run Runtime.account
                      Runtime.form Inputs.broken_index) = UI.Submitted)
    by (vm_compute; reflexivity).
  assert (H : Browser.submit Runtime.first_run Runtime.account Runtime.form
                Inputs.broken_index
              = (UI.Submitted,
                 snd (Browser.submit Runtime.first_run Runtime.account
                        Runtime.form Inputs.broken_index))).
  { rewrite <- Hf. apply surjective_pairing. }
  split.
  - refine (proj1 (unreadable_index_is_replaced Runtime.JSON_stringify
                     Browser.JSON_parse Runtime.toUtf8Bytes
                     Runtime.toUtf8String Runtime.btoa Runtime.parseInt
                     Runtime.Number_toString Runtime.first_run Runtime.account
                     Runtime.form Inputs.broken_index _) _ _ H).
    + vm_compute; lia.
    + vm_compute; reflexivity.
  - refine (proj2 (unreadable_index_is_replaced Runtime.JSON_stringify
                     Browser.JSON_parse Runtime.toUtf8Bytes
                     Runtime.toUtf8String Runtime.btoa Runtime.parseInt
                     Runtime.Number_toString Runtime.first_run Runtime.account
                     Runtime.form Inputs.object_index _) (UI.JObj []) _ _).
    + vm_compute; lia.
    + vm_compute; reflexivity.
    + discriminate.
Defined.

(** X20, witness: the first of two stored schedules is activated. *)
Lemma status_update_touches_one_record_witness :
  exists scheduleData,
    Runtime.toUtf8String
      (UI.getData Browser.two_stored (UI.schedule_key Browser.first_id))
      ≫= Browser.JSON_parse = Some scheduleData
    /\ snd (Browser.activate Browser.all_writes Browser.first_id
              Browser.two_stored) !! UI.schedule_key Browser.first_id
       = Some (Runtime.toUtf8Bytes
                 (Runtime.JSON_stringify
                    (Schedules.with_status Runtime.Number_toString
                       Browser.characters "active" scheduleData))).
Proof.
  refine (proj2 (proj2 (proj2
            (status_update_touches_one_record Runtime.JSON_stringify
               Browser.JSON_parse Runtime.toUtf8Bytes Runtime.toUtf8String
               Runtime.Number_toString Browser.characters "active"
               Browser.all_writes Browser.first_id Browser.two_stored))) _).
  vm_compute; reflexivity.
Defined.

(** X21, witness: the first schedule is activated; completed and then
    activated, it is active. *)
Lemma status_update_keeps_fields_witness :
  Browser.activate Browser.all_writes Browser.first_id Runtime.after_first
  = (Schedules.Updated,
     <[UI.schedule_key Browser.first_id :=
         Runtime.toUtf8Bytes
           (Runtime.JSON_stringify (Inputs.first_record (UI.JStr "active")))]>
       Runtime.after_first)
  /\ Browser.activate Browser.all_writes Browser.first_id
       (snd (Browser.complete Browser.all_writes Browser.first_id
               Runtime.after_first))
     = (Schedules.Updated,
        <[UI.schedule_key Browser.first_id :=
            Runtime.toUtf8Bytes
              (Runtime.JSON_stringify (Inputs.first_record (UI.JStr "active")))]>
          Runtime.after_first).
Proof.
  assert (Hrec : Runtime.after_first !! UI.schedule_key Browser.first_id
                 = Some (Runtime.toUtf8Bytes
                           (Runtime.JSON_stringify
                              (Inputs.first_record (UI.JStr "pending")))))
    by (vm_compute; reflexivity).
  assert (Hback : forall word,
            In word ["pending"; "completed"]%string ->
            Schedules.reads_back Runtime.JSON_stringify Browser.JSON_parse
              Runtime.toUtf8Bytes Runtime.toUtf8String
              (Inputs.first_record (UI.JStr word))).
  { intros word [<-|[<-|[]]]; (split; [vm_compute; lia | vm_compute; reflexivity]). }
  split.
  - refine (proj1 (status_update_keeps_fields Runtime.JSON_stringify
                     Browser.JSON_parse Runtime.toUtf8Bytes
                     Runtime.toUtf8String Runtime.Number_toString
                     Browser.characters "active" Browser.all_writes
                     Browser.first_id Runtime.after_first _ _ _ _ _
                     (UI.JStr "pending") _ _ _ _ Hrec _)).
    1-4: reflexivity.
    apply Hback. by left.
  - refine (proj2 (status_update_keeps_fields Runtime.JSON_stringify
                     Browser.JSON_parse Runtime.toUtf8Bytes
                     Runtime.toUtf8String Runtime.Number_toString
                     Browser.characters "completed" Browser.all_writes
                     Browser.first_id Runtime.after_first _ _ _ _ _
                     (UI.JStr "pending") _ _ _ _ Hrec _) _ "active"%string).
    1-4: reflexivity.
    + apply Hback. by left.
    + apply Hback. by right; left.
Defined.

(** X22, witness: the list loaded from two stored schedules. *)
Lemma loaded_entries_come_from_the_index_witness :
  exists l,
    Browser.load Browser.all_reads Browser.two_stored = Some l
    /\ (exists shown,
          shown `sublist_of` [ UI.JStr "1700000000123-k3j9x2a";
                              UI.JStr "1700000060456-b7m1q0z" ]
          /\ Permutation (map Schedules.schedule_id l) shown)
    /\ (length l <= 2)%nat.
Proof.
  assert (Hs : match Browser.load Browser.all_reads Browser.two_stored with
               | Some _ => true
               | None => false
               end = true) by (vm_compute; reflexivity).
  destruct (Browser.load Browser.all_reads Browser.two_stored) as [l|] eqn:Hl;
    [|discriminate Hs].
  exists l. split; [reflexivity|].
  destruct (proj1 (loaded_entries_come_from_the_index Browser.JSON_parse
                     Runtime.toUtf8String Runtime.JSON_stringify
                     Browser.ToNumber Browser.characters Browser.Array_sort
                     Array_sort_Permutation Browser.all_reads
                     Browser.two_stored l Hl)
              [ UI.JStr "1700000000123-k3j9x2a";
                UI.JStr "1700000060456-b7m1q0z" ])
    as (Hshown & Hlen & _).
  - vm_compute; lia.
  - vm_compute; reflexivity.
  - split; [exact Hshown | exact Hlen].
Defined.

(** X23, witness: the first submission on an empty store, then loaded. *)
Lemma submitted_schedule_is_loaded_witness :
  exists l,
    Browser.load Browser.all_reads
      (snd (Browser.submit Runtime.first_run Runtime.account Runtime.form ∅))
    = Some l
    /\ In {| Schedules.schedule_id :=
               UI.JStr (UI.scheduleId Runtime.Number_toString Runtime.first_run);
             Schedules.encryptedData :=
               Some (UI.JStr ("FHE-" ++ Runtime.JSON_stringify
                                          (UI.form_json Runtime.form)));
             Schedules.timestamp :=
               Some (UI.JNum (UI.date_now Runtime.first_run / 1000));
             Schedules.owner := Some (UI.JStr Runtime.account);
             Schedules.loanAmount := Some (UI.JStr (UI.loanAmount Runtime.form));
             Schedules.term :=
               Some (UI.number_json (Runtime.parseInt (UI.term Runtime.form)));
             Schedules.status := UI.JStr "pending" |} l.
Proof.
  assert (Hf : fst (Browser.submit Runtime.first_run Runtime.account
                      Runtime.form ∅) = UI.Submitted)
    by (vm_compute; reflexivity).
  assert (H : Browser.submit Runtime.first_run Runtime.account Runtime.form ∅
              = (UI.Submitted,
                 snd (Browser.submit Runtime.first_run Runtime.account
                        Runtime.form ∅))).
  { rewrite <- Hf. apply surjective_pairing. }
  refine (submitted_schedule_is_loaded Runtime.JSON_stringify
            Browser.JSON_parse Runtime.toUtf8Bytes Runtime.toUtf8String
            Runtime.btoa Runtime.parseInt Runtime.Number_toString
            Runtime.JSON_stringify Browser.ToNumber Browser.characters
            Browser.Array_sort Array_sort_Permutation Runtime.first_run
            Runtime.account Runtime.form ∅ _ Browser.all_reads
            (Runtime.JSON_stringify (UI.form_json Runtime.form)) [] H
            _ _ _ _ _ _ _ _).
  - reflexivity.
  - vm_compute; reflexivity.
  - split; [vm_compute; lia | vm_compute; reflexivity].
  - split; [vm_compute; lia | vm_compute; reflexivity].
  - reflexivity.
  - reflexivity.
  - reflexivity.
  - reflexivity.
Defined.

(** X24, witness: a pending and a completed schedule. *)
Lemma status_counters_witness :
  (Schedules.activeCount [Inputs.shown "pending"; Inputs.shown "completed"]
   + Schedules.pendingCount [Inputs.shown "pending"; Inputs.shown "completed"]
   + Schedules.completedCount [Inputs.shown "pending"; Inputs.shown "completed"]
   = length [Inputs.shown "pending"; Inputs.shown "completed"])%nat.
Proof.
  refine (proj2 (proj2 (status_counters
                          [Inputs.shown "pending"; Inputs.shown "completed"]))
            _).
  constructor; [reflexivity|]. constructor; [reflexivity|]. constructor.
Defined.
